(** * amazon-planner: reorder metrics, user-scoped store and session boundary

    A shallow embedding of the core of [main.py], [auth.py] and [db.py]:
    the reorder-metric computation, the user-scoped SQL helpers over the
    schema of [init_db], the three-month aggregation and the password and
    session helpers.

    Conventions of the embedding.
    - A Python [int] is a [Z]; a Python [float] is a binary64 number, the
      kernel's [float], with its rounding, infinities and NaN; a Python
      [str] is the list of its code points (text decoded from a request,
      so without lone surrogates).
    - A call that can raise returns a [result]: [Ok v] or [Raise e].
    - [date.today()], [time.time()] and SQL's [CURRENT_TIMESTAMP] are
      explicit arguments. *)

From Stdlib Require Import ZArith List Bool Lia Reals Lra Psatz String Ascii.
From Stdlib Require Import DecimalString DecimalZ DecimalPos Permutation Sorted.
From Stdlib Require Import QArith Qreduction Floats.
Import ListNotations.

Set Implicit Arguments.
Close Scope Q_scope.

(* ------------------------------------------------------------------ *)
(** * The Python runtime the code relies on *)

Module Py.

(** The exception classes that occur in the modelled code. *)
Inductive exn : Type :=
| ZeroDivisionError
| OverflowError
| ValueError
| TypeError
| StatisticsError
| IntegrityError
| BadSignature
| BadTimeSignature
| SignatureExpired
| BadPayload.

Inductive result (A : Type) : Type :=
| Ok (a : A)
| Raise (e : exn).

Arguments Ok {A} a.
Arguments Raise {A} e.

Definition bind {A B : Type} (m : result A) (k : A -> result B) : result B :=
  match m with
  | Ok a => k a
  | Raise e => Raise e
  end.

(** A Python [str]: the sequence of its Unicode code points. *)
Definition str : Type := list N.

Fixpoint str_eqb (s t : str) : bool :=
  match s, t with
  | [], [] => true
  | c :: s', d :: t' => N.eqb c d && str_eqb s' t'
  | _, _ => false
  end.

(** An ASCII literal as a [str]. *)
Fixpoint lit (s : string) : str :=
  match s with
  | EmptyString => []
  | String c s' => N_of_ascii c :: lit s'
  end.

(** [len(l)] *)
Definition len {A : Type} (l : list A) : Z := Z.of_nat (List.length l).

(** [sum(l)] on a list of ints: the loop of the builtin, from 0. *)
Definition sum (l : list Z) : Z := fold_left Z.add l 0%Z.

(** [max(a, b)]: the first argument unless the second is greater. *)
Definition max_int (a b : Z) : Z := if (a <? b)%Z then b else a.

Definition max_float (a b : float) : float := if (a <? b)%float then b else a.

(** ** Ints and floats *)

(** An int as an unrounded binary number, mantissa and exponent 0. *)
Definition spec_of_int (n : Z) : spec_float :=
  match n with
  | Z0 => S754_zero false
  | Zpos p => S754_finite false p 0
  | Zneg p => S754_finite true p 0
  end.

(** The binary64 number nearest to an int (ties to even; an infinity
    when the int is too large). *)
Definition nearest_int (n : Z) : float :=
  SF2Prim (binary_normalize prec emax n 0 false).

(** The binary64 number nearest to the quotient of two ints. *)
Definition nearest_div (a b : Z) : float :=
  SF2Prim (SFdiv prec emax (spec_of_int a) (spec_of_int b)).

(** The least magnitude that rounds to 2^1024, halfway between the
    largest float and 2^1024: from here on there is no float. *)
Definition float_limit : Z := (2 ^ 1024 - 2 ^ 970)%Z.

(** The conversion of an int operand of a float operation
    ([PyLong_AsDouble]): [OverflowError] when the int is too large. *)
Definition float_of_int (n : Z) : result float :=
  if (float_limit <=? Z.abs n)%Z then Raise OverflowError
  else Ok (nearest_int n).

(** [a / b] on ints: true division, correctly rounded; [OverflowError]
    when the quotient is too large for a float. *)
Definition true_div (a b : Z) : result float :=
  if (b =? 0)%Z then Raise ZeroDivisionError
  else if (float_limit * Z.abs b <=? Z.abs a)%Z then Raise OverflowError
  else Ok (nearest_div a b).

(** [x * n] and [x - n] for a float [x] and an int [n]. *)
Definition mul_int (x : float) (n : Z) : result float :=
  match float_of_int n with
  | Ok f => Ok (x * f)%float
  | Raise e => Raise e
  end.

Definition sub_int (x : float) (n : Z) : result float :=
  match float_of_int n with
  | Ok f => Ok (x - f)%float
  | Raise e => Raise e
  end.

(** [math.sqrt(n)] on an int: the int is converted first; a domain error
    below zero. *)
Definition math_sqrt (n : Z) : result float :=
  match float_of_int n with
  | Ok f => if (n <? 0)%Z then Raise ValueError else Ok (PrimFloat.sqrt f)
  | Raise e => Raise e
  end.

(** [n.bit_length()] *)
Definition bit_length (n : Z) : Z :=
  if (n =? 0)%Z then 0%Z else (Z.log2 (Z.abs n) + 1)%Z.

(** ** [statistics.stdev] on ints (CPython 3.11) *)

(** [_integer_sqrt_of_frac_rto(n, m)]: the square root of n/m rounded to
    an integer, to odd. *)
Definition _integer_sqrt_of_frac_rto (n m : Z) : Z :=
  let a := Z.sqrt (n / m) in
  Z.lor a (if (a * a * m =? n)%Z then 0 else 1).

(** The numerator and the denominator [_float_sqrt_of_frac(n, m)]
    divides. *)
Definition sqrt_of_frac_terms (n m : Z) : Z * Z :=
  let q := ((bit_length n - bit_length m - 109) / 2)%Z in
  if (0 <=? q)%Z then
    (Z.shiftl (_integer_sqrt_of_frac_rto n (Z.shiftl m (2 * q))) q, 1%Z)
  else
    (_integer_sqrt_of_frac_rto (Z.shiftl n (-2 * q)) m, Z.shiftl 1 (- q)).

(** [_float_sqrt_of_frac(n, m)]: the square root of n/m as a float. *)
Definition _float_sqrt_of_frac (n m : Z) : result float :=
  true_div (fst (sqrt_of_frac_terms n m)) (snd (sqrt_of_frac_terms n m)).

(** [_ss(data)]: one pass accumulates [count], the sum and the sum of the
    squares exactly; the sum of squared deviations is the fraction
    [(count * sxx - sx * sx) / count].  A [Fraction] is a rational kept in
    lowest terms. *)
Definition _ss (data : list Z) : Q * Z :=
  let count := len data in
  let sx := inject_Z (sum data) in
  let sxx := inject_Z (sum (map (fun n => n * n)%Z data)) in
  (if (count =? 0)%Z then 0%Q
   else Qred ((inject_Z count * sxx - sx * sx) / inject_Z count)%Q,
   count).

(** [stdev(data)]: fewer than two points raise [StatisticsError]; the
    result is the square root of the fraction [ss / (n - 1)]. *)
Definition stdev (data : list Z) : result float :=
  let ss := fst (_ss data) in
  let n := snd (_ss data) in
  if (n <? 2)%Z then Raise StatisticsError
  else
    let mss := Qred (ss / inject_Z (n - 1))%Q in
    _float_sqrt_of_frac (Qnum mss) (Zpos (Qden mss)).

(** ** Floats as numbers *)

(** The real number a finite float stands for (0 for an infinity or
    NaN). *)
Definition real (x : float) : R :=
  match Prim2SF x with
  | S754_finite s m e =>
    if (0 <=? e)%Z then IZR (cond_Zopp s (Zpos m) * 2 ^ e)
    else (IZR (cond_Zopp s (Zpos m)) / IZR (2 ^ (- e)))%R
  | _ => 0%R
  end.

(** [round(x)] without digits: the nearest int, a tie going to the even
    one; an infinity raises [OverflowError], NaN [ValueError]. *)
Definition round (x : float) : result Z :=
  match Prim2SF x with
  | S754_nan => Raise ValueError
  | S754_infinity _ => Raise OverflowError
  | S754_zero _ => Ok 0%Z
  | S754_finite s m e =>
    let n :=
      if (0 <=? e)%Z then (Zpos m * 2 ^ e)%Z
      else
        let d := (2 ^ (- e))%Z in
        let q := (Zpos m / d)%Z in
        let r := (Zpos m mod d)%Z in
        if (2 * r <? d)%Z then q
        else if (d <? 2 * r)%Z then (q + 1)%Z
        else if Z.even q then q else (q + 1)%Z in
    Ok (cond_Zopp s n)
  end.

End Py.

Import Py.

Coercion real : float >-> R.

Declare Scope py_scope.
Delimit Scope py_scope with py.
Notation "x <- m ;; k" := (bind m (fun x => k))
  (at level 61, m at next level, right associativity) : py_scope.
Open Scope py_scope.

(* ------------------------------------------------------------------ *)
(** * Reorder metrics engine ([main.py], [compute_from_last_months]) *)

Module Metrics.

Open Scope float_scope.

(** The dict the function returns, one field per key. *)
Record metrics : Type := mk_metrics {
  daily_velocity : float;
  std_daily : float;
  safety_stock : float;
  rop : float;
  order_qty : float
}.

Definition zero_metrics : metrics := mk_metrics 0 0 0 0 0.

Definition compute_from_last_months
  (lead_time : Z) (z : float) (monthly_units : list Z)
  (fba_stock inbound_stock : Z) : result metrics :=
  match monthly_units with
  | [] => Ok zero_metrics
  | _ :: _ =>
    mean_month <- true_div (Py.sum monthly_units) (len monthly_units) ;;
    let daily_velocity := mean_month / 30 in
    std_daily <- (if (2 <=? len monthly_units)%Z
                  then s <- stdev monthly_units ;; Ok (s / 30)
                  else Ok 0) ;;
    root <- math_sqrt (max_int 1 lead_time) ;;
    let safety_stock := z * std_daily * root in
    lead_demand <- mul_int daily_velocity lead_time ;;
    let rop := lead_demand + safety_stock in
    horizon_demand <- mul_int daily_velocity 60 ;;
    need <- sub_int (horizon_demand + safety_stock)
              (fba_stock + inbound_stock) ;;
    Ok (mk_metrics daily_velocity std_daily safety_stock rop
          (max_float 0 need))
  end.

(** ** The reference definition of the specification, in binary64

    Sums, the mean and the sample variance are exact rationals; every
    other operation rounds to the nearest float. *)

Definition total (l : list Z) : Z := fold_right Z.add 0%Z l.

Definition mean (seq : list Z) : Q := total seq # Pos.of_nat (List.length seq).

Definition total_Q (l : list Q) : Q := fold_right Qplus 0%Q l.

(** Sample variance: squared deviations from the mean, divided by
    [n - 1]. *)
Definition sampleVariance (seq : list Z) : Q :=
  (total_Q (map (fun x => (inject_Z x - mean seq) ^ 2) seq)
   / (inject_Z (Z.of_nat (List.length seq)) - 1))%Q.

(** A fraction rounded to the nearest float. *)
Definition nearest (q : Q) : float := nearest_div (Qnum q) (Zpos (Qden q)).

(** The square root of a fraction in lowest terms, as [statistics]
    rounds it. *)
Definition sqrt_of_frac (q : Q) : float :=
  nearest_div
    (fst (sqrt_of_frac_terms (Qnum (Qred q)) (Zpos (Qden (Qred q)))))
    (snd (sqrt_of_frac_terms (Qnum (Qred q)) (Zpos (Qden (Qred q))))).

Definition sampleStdDev (seq : list Z) : float :=
  sqrt_of_frac (sampleVariance seq).

Definition computeMetrics_spec
  (leadTimeDays : Z) (z : float) (seq : list Z) (fbaStock inboundStock : Z)
  : metrics :=
  let dailyVelocity := nearest (mean seq) / 30 in
  let stdDaily :=
    if (2 <=? List.length seq)%nat then sampleStdDev seq / 30 else 0 in
  let safetyStock :=
    z * stdDaily * PrimFloat.sqrt (nearest_int (Z.max 1 leadTimeDays)) in
  let reorderPoint := dailyVelocity * nearest_int leadTimeDays + safetyStock in
  let orderQuantity :=
    max_float 0 (dailyVelocity * 60 + safetyStock
                 - nearest_int (fbaStock + inboundStock)) in
  mk_metrics dailyVelocity stdDaily safetyStock reorderPoint orderQuantity.

(** ** The worked scenario *)

(** Lead time 7, Z 1.65, monthly units [100; 120; 110], FBA stock 50,
    nothing inbound. *)
Definition scenario : result metrics :=
  compute_from_last_months 7 (165 / 100) [100; 120; 110]%Z 50 0.

(** [x] is [v] up to [tol]. *)
Definition approx (tol x v : R) : Prop := (Rabs (x - v) <= tol)%R.

End Metrics.

(* ------------------------------------------------------------------ *)
(** * The data store ([db.py], [init_db]; the SQL helpers of [main.py])

    A table is the list of its rows in insertion order together with its
    AUTOINCREMENT counter (its row of [sqlite_sequence]).  Every helper
    takes the cursor's database and returns the database it leaves behind.
    The caller passes the id of an authenticated, existing user, so the
    [REFERENCES users(id)] clause is satisfied and the [users] table is not
    part of the state. *)

Module Store.

(** A row of [products]. *)
Module Product.
Record row : Type := mk {
  id : Z;
  user_id : Z;
  sku : str;
  name : str;
  lead_time_days : Z;
  z_value : float;
  fba_stock : Z;
  inbound_stock : Z;
  updated_at : Z
}.
End Product.

(** A row of [monthly_sales]. *)
Module Sale.
Record row : Type := mk {
  id : Z;
  user_id : Z;
  sku : str;
  year : Z;
  month : Z;
  units_sold : Z;
  created_at : Z
}.
End Sale.

Record db : Type := mk_db {
  products : list Product.row;
  products_seq : Z;
  monthly_sales : list Sale.row;
  monthly_sales_seq : Z
}.

(** [init_db] on a fresh file: both tables exist and are empty. *)
Definition init_db : db := mk_db [] 0 [] 0.

(** What [sqlite3] binds to an INTEGER parameter: 64 bits, signed.  A
    larger int makes [execute] raise [OverflowError] before the statement
    runs. *)
Definition int64 (n : Z) : bool := (- 2 ^ 63 <=? n)%Z && (n <? 2 ^ 63)%Z.

(** What a REAL column gives back for a float written to it: the float,
    but a negative zero is kept as the integer 0 and reads back as 0.0.
    (NaN is bound as NULL and never stored in a NOT NULL column.) *)
Definition real_column (x : float) : float :=
  if PrimFloat.Leibniz.eqb x neg_zero then zero else x.

(** [WHERE user_id=? AND sku=?] on [products]. *)
Definition product_at (user_id : Z) (sku : str) (r : Product.row) : bool :=
  (Product.user_id r =? user_id)%Z && str_eqb (Product.sku r) sku.

(** [WHERE user_id=? AND sku=?] on [monthly_sales]. *)
Definition sale_of (user_id : Z) (sku : str) (r : Sale.row) : bool :=
  (Sale.user_id r =? user_id)%Z && str_eqb (Sale.sku r) sku.

(** [WHERE user_id=? AND sku=? AND year=? AND month=?]. *)
Definition sale_at (user_id : Z) (sku : str) (y m : Z) (r : Sale.row) : bool :=
  sale_of user_id sku r && (Sale.year r =? y)%Z && (Sale.month r =? m)%Z.

(** The [DO UPDATE SET ...] clause of [upsert_product] on one row: the row
    in conflict keeps its id, user and SKU and takes the new values. *)
Definition rewrite_product (now : Z) (user_id : Z) (sku name : str)
  (lead_time_days : Z) (z_value : float) (fba_stock inbound_stock : Z)
  (r : Product.row) : Product.row :=
  if product_at user_id sku r
  then Product.mk (Product.id r) (Product.user_id r) (Product.sku r)
         name lead_time_days (real_column z_value) fba_stock inbound_stock now
  else r.

(** [INSERT INTO products ... ON CONFLICT(user_id, sku) DO UPDATE SET ...]:
    the parameters are bound first ([OverflowError] for an int outside 64
    bits; a NaN is bound as NULL, which [z_value REAL NOT NULL] then
    rejects with [IntegrityError]).  The statement takes the next id from
    the counter; with a row in conflict on the unique pair the update runs
    in place and the id is dropped (the counter keeps it); without one, the
    new row gets it.  A statement that raises changes nothing. *)
Definition upsert_product (now : Z) (cur : db) (user_id : Z) (sku name : str)
  (lead_time_days : Z) (z_value : float) (fba_stock inbound_stock : Z)
  : result db :=
  if negb (forallb int64 [user_id; lead_time_days; fba_stock; inbound_stock])
  then Raise OverflowError
  else if is_nan z_value then Raise IntegrityError
  else
    let rowid := (products_seq cur + 1)%Z in
    if existsb (product_at user_id sku) (products cur) then
      Ok (mk_db
            (map (rewrite_product now user_id sku name lead_time_days z_value
                    fba_stock inbound_stock)
                 (products cur))
            rowid (monthly_sales cur) (monthly_sales_seq cur))
    else
      Ok (mk_db
            (products cur ++
               [Product.mk rowid user_id sku name lead_time_days
                  (real_column z_value) fba_stock inbound_stock now])
            rowid (monthly_sales cur) (monthly_sales_seq cur)).

(** [CHECK(month BETWEEN 1 AND 12)] and [CHECK(units_sold >= 0)]. *)
Definition sale_checks (m u : Z) : bool :=
  (1 <=? m)%Z && (m <=? 12)%Z && (0 <=? u)%Z.

(** The [DO UPDATE SET ...] clause of [upsert_monthly_sales] on one row. *)
Definition rewrite_sale (now : Z) (user_id : Z) (sku : str) (y m u : Z)
  (r : Sale.row) : Sale.row :=
  if sale_at user_id sku y m r
  then Sale.mk (Sale.id r) (Sale.user_id r) (Sale.sku r)
         (Sale.year r) (Sale.month r) u now
  else r.

(** One [INSERT INTO monthly_sales ... ON CONFLICT(user_id, sku, year,
    month) DO UPDATE SET ...] with [(user_id, sku, int(y), int(m), int(u))]:
    an int outside 64 bits raises [OverflowError] when it is bound, a
    failed CHECK raises [IntegrityError]; the counter moves as for
    [upsert_product]. *)
Definition execute_upsert_sale (now : Z) (cur : db) (user_id : Z) (sku : str)
  (y m u : Z) : result db :=
  if negb (forallb int64 [user_id; y; m; u]) then Raise OverflowError
  else if negb (sale_checks m u) then Raise IntegrityError
  else
    let rowid := (monthly_sales_seq cur + 1)%Z in
    if existsb (sale_at user_id sku y m) (monthly_sales cur) then
      Ok (mk_db (products cur) (products_seq cur)
            (map (rewrite_sale now user_id sku y m u) (monthly_sales cur))
            rowid)
    else
      Ok (mk_db (products cur) (products_seq cur)
            (monthly_sales cur ++ [Sale.mk rowid user_id sku y m u now])
            rowid).

(** [zip(years, months, units_sold)] *)
Fixpoint zip3 (years months units_sold : list Z) : list (Z * Z * Z) :=
  match years, months, units_sold with
  | y :: ys, m :: ms, u :: us => (y, m, u) :: zip3 ys ms us
  | _, _, _ => []
  end.

(** The loop of [upsert_monthly_sales] over the zipped triples. *)
Fixpoint upsert_sales_loop (now : Z) (cur : db) (user_id : Z) (sku : str)
  (triples : list (Z * Z * Z)) : result db :=
  match triples with
  | [] => Ok cur
  | (y, m, u) :: rest =>
    cur' <- execute_upsert_sale now cur user_id sku y m u ;;
    upsert_sales_loop now cur' user_id sku rest
  end.

Definition upsert_monthly_sales (now : Z) (cur : db) (user_id : Z) (sku : str)
  (years months units_sold : list Z) : result db :=
  upsert_sales_loop now cur user_id sku (zip3 years months units_sold).

Definition fetch_product (cur : db) (user_id : Z) (sku : str)
  : option Product.row :=
  find (product_at user_id sku) (products cur).

Definition fetch_month_units (cur : db) (user_id : Z) (sku : str) (y m : Z)
  : option Z :=
  match find (sale_at user_id sku y m) (monthly_sales cur) with
  | None => None
  | Some r => Some (Sale.units_sold r)
  end.

Definition delete_product_and_sales (cur : db) (user_id : Z) (sku : str) : db :=
  mk_db
    (filter (fun r => negb (product_at user_id sku r)) (products cur))
    (products_seq cur)
    (filter (fun r => negb (sale_of user_id sku r)) (monthly_sales cur))
    (monthly_sales_seq cur).

Definition delete_single_month_sale (cur : db) (user_id : Z) (sku : str)
  (year month : Z) : db :=
  mk_db (products cur) (products_seq cur)
    (filter (fun r => negb (sale_at user_id sku year month r))
       (monthly_sales cur))
    (monthly_sales_seq cur).

(** The units the zipped triples pair with a month: those of the last
    triple that names it. *)
Fixpoint paired_units (y m : Z) (triples : list (Z * Z * Z)) : option Z :=
  match triples with
  | [] => None
  | (y', m', u') :: rest =>
    match paired_units y m rest with
    | Some u => Some u
    | None => if ((y' =? y) && (m' =? m))%Z then Some u' else None
    end
  end.

(** What one statement of the batch raises, if it raises. *)
Definition triple_error (user_id : Z) (t : Z * Z * Z) : option exn :=
  let '(y, m, u) := t in
  if negb (forallb int64 [user_id; y; m; u]) then Some OverflowError
  else if negb (sale_checks m u) then Some IntegrityError
  else None.

(** The exception of the first zipped triple that is refused: an int
    outside 64 bits, or a failed CHECK constraint. *)
Fixpoint first_error (user_id : Z) (triples : list (Z * Z * Z))
  : option exn :=
  match triples with
  | [] => None
  | t :: rest =>
    match triple_error user_id t with
    | Some e => Some e
    | None => first_error user_id rest
    end
  end.

(** [min(len(a), len(b), len(c))] *)
Definition min_len (a b c : list Z) : nat :=
  Nat.min (List.length a) (Nat.min (List.length b) (List.length c)).

(** ** What the schema guarantees, and what a user owns *)

(** [UNIQUE(user_id, sku)] on [products]. *)
Definition product_key (r : Product.row) : Z * str :=
  (Product.user_id r, Product.sku r).

Definition products_unique (cur : db) : Prop :=
  NoDup (map product_key (products cur)).

(** The rows of each table that belong to one user. *)
Definition products_of (user_id : Z) (cur : db) : list Product.row :=
  filter (fun r => (Product.user_id r =? user_id)%Z) (products cur).

Definition sales_of (user_id : Z) (cur : db) : list Sale.row :=
  filter (fun r => (Sale.user_id r =? user_id)%Z) (monthly_sales cur).

(** The database with every other user's rows removed. *)
Definition only_user (user_id : Z) (cur : db) : db :=
  mk_db (products_of user_id cur) (products_seq cur)
    (sales_of user_id cur) (monthly_sales_seq cur).

(** The rows of [products] a query for [(user_id, sku)] addresses. *)
Definition rows_at (user_id : Z) (sku : str) (cur : db) : list Product.row :=
  filter (product_at user_id sku) (products cur).

End Store.

(* ------------------------------------------------------------------ *)
(** * Aggregation ([main.py], [last_n_calendar_months], [compute_for_sku]) *)

Module Planner.

Import Store Metrics.

(** The loop of [last_n_calendar_months], from the year and month held in
    [y] and [m]. *)
Fixpoint months_back (n : nat) (y m : Z) : list (Z * Z) :=
  match n with
  | O => []
  | S k =>
    (y, m) ::
      (let m' := (m - 1)%Z in
       if (m' =? 0)%Z then months_back k (y - 1)%Z 12%Z
       else months_back k y m')
  end.

(** [today] is [(date.today().year, date.today().month)]. *)
Definition last_n_calendar_months (today : Z * Z) (n : nat) : list (Z * Z) :=
  months_back n (fst today) (snd today).

(** The loop of [compute_for_sku] that gathers the units of the months
    that have a row. *)
Fixpoint gather_units (cur : db) (user_id : Z) (sku : str)
  (window : list (Z * Z)) : list Z :=
  match window with
  | [] => []
  | (y, m) :: rest =>
    match fetch_month_units cur user_id sku y m with
    | Some u => u :: gather_units cur user_id sku rest
    | None => gather_units cur user_id sku rest
    end
  end.

Definition compute_for_sku (today : Z * Z) (cur : db) (user_id : Z) (sku : str)
  : result (option (Product.row * list (Z * Z) * list Z * metrics)) :=
  match fetch_product cur user_id sku with
  | None => Ok None
  | Some prod =>
    let last3 := last_n_calendar_months today 3 in
    let monthly_units := gather_units cur user_id sku last3 in
    res <- compute_from_last_months
             (Product.lead_time_days prod) (Product.z_value prod)
             monthly_units
             (Product.fba_stock prod) (Product.inbound_stock prod) ;;
    Ok (Some (prod, last3, monthly_units, res))
  end.

(** The position of a calendar month on the time line, in months. *)
Definition month_index (ym : Z * Z) : Z := (12 * fst ym + (snd ym - 1))%Z.

End Planner.

(* ------------------------------------------------------------------ *)
(** * Credentials and sessions ([auth.py]) *)

Module Auth.

(** ** Exceptions and [except] clauses *)

(** [issubclass(e, c)] on the modelled classes: in itsdangerous
    [SignatureExpired] derives from [BadTimeSignature], which derives from
    [BadSignature]; [BadPayload] derives from [BadData] only; in the
    standard library [StatisticsError] derives from [ValueError], and
    [OverflowError] and [ZeroDivisionError] from [ArithmeticError]. *)
Definition issubclass (e c : exn) : bool :=
  match e, c with
  | BadSignature, BadSignature => true
  | BadTimeSignature, (BadTimeSignature | BadSignature) => true
  | SignatureExpired, (SignatureExpired | BadTimeSignature | BadSignature) => true
  | BadPayload, BadPayload => true
  | ValueError, ValueError => true
  | StatisticsError, (StatisticsError | ValueError) => true
  | TypeError, TypeError => true
  | ZeroDivisionError, ZeroDivisionError => true
  | OverflowError, OverflowError => true
  | IntegrityError, IntegrityError => true
  | _, _ => false
  end.

(** [except (c1, c2, ...)] *)
Definition except_matches (classes : list exn) (e : exn) : bool :=
  existsb (issubclass e) classes.

(** ** Passwords *)

(** The bytes of a code point in UTF-8. *)
Definition utf8_of_code_point (c : N) : list N :=
  (if c <? 128 then [c]
   else if c <? 2048 then [192 + c / 64; 128 + c mod 64]
   else if c <? 65536 then
     [224 + c / 4096; 128 + (c / 64) mod 64; 128 + c mod 64]
   else
     [240 + c / 262144; 128 + (c / 4096) mod 64;
      128 + (c / 64) mod 64; 128 + c mod 64])%N.

(** [s.encode("utf-8")] *)
Definition utf8 (s : str) : list N := flat_map utf8_of_code_point s.

Definition is_ascii (s : str) : Prop := Forall (fun c => (c < 128)%N) s.

(** [plain[:72]] *)
Definition slice72 (plain : str) : str := firstn 72 plain.

Section Passwords.

(** [_pwd_ctx.hash] with the salt it draws, and [_pwd_ctx.verify]. *)
Variable salt : Type.
Variable ctx_hash : salt -> str -> str.
Variable ctx_verify : str -> str -> bool.

Definition hash_password (fresh : salt) (plain : str) : str :=
  ctx_hash fresh (slice72 plain).

Definition verify_password (plain hashed : str) : bool :=
  ctx_verify (slice72 plain) hashed.

End Passwords.

(** ** Session cookies *)

(** What [json.loads] can return. *)
Unset Elimination Schemes.
Inductive json : Type :=
| JNull
| JBool (b : bool)
| JInt (z : Z)
| JFloat (f : float)
| JStr (s : str)
| JList (l : list json)
| JDict (l : list (str * json)).
Set Elimination Schemes.

(** The code points of the digit zero of each run of ten decimal digits
    of Unicode 14 ([Py_UNICODE_TODECIMAL]): ASCII, Arabic-Indic,
    Devanagari, fullwidth and the others. *)
Definition decimal_zeros : list N :=
  [48; 1632; 1776; 1984; 2406; 2534; 2662; 2790; 2918; 3046; 3174; 3302;
   3430; 3558; 3664; 3792; 3872; 4160; 4240; 6112; 6160; 6470; 6608; 6784;
   6800; 6992; 7088; 7232; 7248; 42528; 43216; 43264; 43472; 43504; 43600;
   44016; 65296; 66720; 68912; 69734; 69872; 69942; 70096; 70384; 70736;
   70864; 71248; 71360; 71472; 71904; 72016; 72784; 73040; 73120; 92768;
   92864; 93008; 120782; 120792; 120802; 120812; 120822; 123200; 123632;
   125264; 130032]%N.

(** The value of a decimal digit, ASCII or not. *)
Definition decimal_value (c : N) : option Z :=
  match find (fun zero => (zero <=? c) && (c <=? zero + 9))%N decimal_zeros with
  | Some zero => Some (Z.of_N (c - zero))
  | None => None
  end.

(** The blanks [int] skips around the digits: the six of ASCII, and the
    white space of Unicode from U+0085 on. *)
Definition is_space (c : N) : bool :=
  ((9 <=? c) && (c <=? 13) || (c =? 32) || (c =? 133) || (c =? 160)
   || (c =? 5760) || (8192 <=? c) && (c <=? 8202) || (c =? 8232)
   || (c =? 8233) || (c =? 8239) || (c =? 8287) || (c =? 12288))%N.

Fixpoint skip_spaces (s : str) : str :=
  match s with
  | [] => []
  | c :: s' => if is_space c then skip_spaces s' else s
  end.

(** The digits that follow a digit: more digits, each preceded by at most
    one underscore.  Returns the value, the number of digits and what
    follows them; [None] for an underscore that no digit follows. *)
Fixpoint digits_after (acc count : Z) (s : str) : option (Z * Z * str) :=
  match s with
  | [] => Some (acc, count, [])
  | c :: s' =>
    match decimal_value c with
    | Some d => digits_after (10 * acc + d)%Z (count + 1)%Z s'
    | None =>
      if (c =? 95)%N then
        match s' with
        | [] => None
        | c' :: s'' =>
          match decimal_value c' with
          | Some d => digits_after (10 * acc + d)%Z (count + 1)%Z s''
          | None => None
          end
        end
      else Some (acc, count, s)
    end
  end.

(** Digits, from the first one on; more than 4300 digits are refused
    ([sys.int_info.default_max_str_digits]); only blanks may follow. *)
Definition parse_digits_from (s : str) : option Z :=
  match s with
  | [] => None
  | c :: s' =>
    match decimal_value c with
    | None => None
    | Some d =>
      match digits_after d 1 s' with
      | None => None
      | Some (v, count, rest) =>
        if (4300 <? count)%Z then None
        else
          match skip_spaces rest with
          | [] => Some v
          | _ :: _ => None
          end
      end
    end
  end.

(** [int(s)] on a [str], base 10: blanks, an optional sign, digits with
    single underscores between them, blanks. *)
Definition parse_int (s : str) : option Z :=
  match skip_spaces s with
  | [] => None
  | c :: s' =>
    if (c =? 45)%N then option_map Z.opp (parse_digits_from s')
    else if (c =? 43)%N then parse_digits_from s'
    else parse_digits_from (c :: s')
  end.

(** [int(x)] on a float: the integer part; an infinity raises
    [OverflowError], NaN [ValueError]. *)
Definition int_of_float (x : float) : result Z :=
  match Prim2SF x with
  | S754_nan => Raise ValueError
  | S754_infinity _ => Raise OverflowError
  | S754_zero _ => Ok 0%Z
  | S754_finite s m e =>
    Ok (cond_Zopp s
          (if (0 <=? e)%Z then Zpos m * 2 ^ e else Zpos m / 2 ^ (- e))%Z)
  end.

(** [int(x)] on a deserialised payload. *)
Definition int_of (x : json) : result Z :=
  match x with
  | JInt z => Ok z
  | JBool b => Ok (if b then 1 else 0)%Z
  | JFloat f => int_of_float f
  | JStr s =>
    match parse_int s with
    | Some z => Ok z
    | None => Raise ValueError
    end
  | JNull | JList _ | JDict _ => Raise TypeError
  end.

(** The separator of itsdangerous, a full stop. *)
Definition sep : N := 46%N.

(** [s.rsplit(sep, 1)] when [sep] occurs in [s]. *)
Fixpoint rsplit_sep (s : str) : option (str * str) :=
  match s with
  | [] => None
  | c :: s' =>
    match rsplit_sep s' with
    | Some (a, b) => Some (c :: a, b)
    | None => if (c =? sep)%N then Some ([], s') else None
    end
  end.

Definition SESSION_MAX_AGE : Z := (60 * 60 * 24 * 30)%Z.

Section Session.

(** The primitives of [URLSafeTimedSerializer(SECRET_KEY, salt="session")]
    (itsdangerous 2): the encoded keyed MAC of a value and its check, the
    JSON and base64 coding of the payload ([None]: the payload does not
    decode) and the base64 coding of the timestamp. *)
Variable get_signature : str -> str.
Variable verify_signature : str -> str -> bool.
Variable dump_payload : json -> str.
Variable load_payload : str -> option json.
Variable encode_timestamp : Z -> str.
Variable decode_timestamp : str -> option Z.

(** [_signer.dumps(obj)] at time [now]. *)
Definition dumps (now : Z) (obj : json) : str :=
  let value := dump_payload obj ++ [sep] ++ encode_timestamp now in
  value ++ [sep] ++ get_signature value.

(** [TimestampSigner.unsign(s, max_age=max_age)] at time [now]: the
    signature is checked first, then the timestamp is split off and read,
    then its age is compared with [max_age].  The conversion of the
    timestamp to a [datetime] for the caller is left out. *)
Definition unsign (now max_age : Z) (s : str) : result str :=
  match rsplit_sep s with
  | None => Raise BadSignature
  | Some (signed, sig) =>
    if verify_signature signed sig then
      match rsplit_sep signed with
      | None => Raise BadTimeSignature
      | Some (value, ts_bytes) =>
        match decode_timestamp ts_bytes with
        | None => Raise BadTimeSignature
        | Some ts_int =>
          let age := (now - ts_int)%Z in
          if (max_age <? age)%Z then Raise SignatureExpired
          else if (age <? 0)%Z then Raise SignatureExpired
          else Ok value
        end
      end
    else
      match rsplit_sep signed with
      | None => Raise BadSignature
      | Some _ => Raise BadTimeSignature
      end
  end.

(** [_signer.loads(token, max_age=max_age)] at time [now]. *)
Definition loads (now max_age : Z) (token : str) : result json :=
  value <- unsign now max_age token ;;
  match load_payload value with
  | Some obj => Ok obj
  | None => Raise BadPayload
  end.

Definition make_session_cookie (now : Z) (user_id : Z) : str :=
  dumps now (JInt user_id).

(** [Ok None] is the [None] of the handler, [Ok (Some uid)] the decoded
    id; [Raise e] is an exception that leaves the function. *)
Definition decode_session_cookie (now : Z) (token : str) : result (option Z) :=
  match (obj <- loads now SESSION_MAX_AGE token ;; int_of obj) with
  | Ok uid => Ok (Some uid)
  | Raise e =>
    if except_matches [BadSignature; SignatureExpired; ValueError] e
    then Ok None
    else Raise e
  end.

(** The token carries a signature that verifies. *)
Definition signature_ok (token : str) : bool :=
  match rsplit_sep token with
  | None => false
  | Some (signed, sig) => verify_signature signed sig
  end.

(** The timestamp a token embeds, when it has a readable one. *)
Definition embedded_timestamp (token : str) : option Z :=
  match rsplit_sep token with
  | None => None
  | Some (signed, _) =>
    match rsplit_sep signed with
    | None => None
    | Some (_, ts_bytes) => decode_timestamp ts_bytes
    end
  end.

End Session.

End Auth.

(* ------------------------------------------------------------------ *)
(** * Requests on behalf of a user

    The SQL helpers the routes run for an authenticated user, as data:
    a command changes the store, a query only reads it. *)

Module Requests.

Import Store Metrics Planner.

(** A command that raises returns no store: the route then never reaches
    [conn.commit()], so nothing of it is kept. *)
Inductive command : Type :=
| UpsertProduct (sku name : str) (lead_time_days : Z) (z_value : float)
    (fba_stock inbound_stock : Z)
| UpsertMonthlySales (sku : str) (years months units_sold : list Z)
| DeleteProductAndSales (sku : str)
| DeleteSingleMonthSale (sku : str) (year month : Z).

Definition run (now : Z) (user_id : Z) (c : command) (cur : db) : result db :=
  match c with
  | UpsertProduct sku name lt z fba inb =>
    upsert_product now cur user_id sku name lt z fba inb
  | UpsertMonthlySales sku years months units =>
    upsert_monthly_sales now cur user_id sku years months units
  | DeleteProductAndSales sku => Ok (delete_product_and_sales cur user_id sku)
  | DeleteSingleMonthSale sku y m =>
    Ok (delete_single_month_sale cur user_id sku y m)
  end.

Inductive query : Type :=
| FetchProduct (sku : str)
| FetchMonthUnits (sku : str) (y m : Z)
| ComputeForSku (sku : str).

Inductive answer : Type :=
| Row (r : option Product.row)
| Units (u : option Z)
| Computed
    (c : result (option (Product.row * list (Z * Z) * list Z * metrics))).

Definition ask (today : Z * Z) (user_id : Z) (q : query) (cur : db) : answer :=
  match q with
  | FetchProduct sku => Row (fetch_product cur user_id sku)
  | FetchMonthUnits sku y m => Units (fetch_month_units cur user_id sku y m)
  | ComputeForSku sku => Computed (compute_for_sku today cur user_id sku)
  end.

(** The stores the application can be in: [init_db], then any commands
    of any users. *)
Inductive reachable : db -> Prop :=
| reachable_init : reachable init_db
| reachable_run (now user_id : Z) (c : command) (cur cur' : db) :
    reachable cur -> run now user_id c cur = Ok cur' -> reachable cur'.

End Requests.

(* ------------------------------------------------------------------ *)
(** * What the schema of [init_db] promises about stored rows *)

Module Schema.

Import Store.

(** [UNIQUE(user_id, sku, year, month)] on [monthly_sales]. *)
Definition sale_key (r : Sale.row) : Z * str * Z * Z :=
  (Sale.user_id r, Sale.sku r, Sale.year r, Sale.month r).

Definition sales_unique (cur : db) : Prop :=
  NoDup (map sale_key (monthly_sales cur)).

(** [CHECK(month BETWEEN 1 AND 12)] and [CHECK(units_sold >= 0)] on every
    stored row. *)
Definition sales_checked (cur : db) : Prop :=
  Forall (fun r => (1 <= Sale.month r <= 12)%Z /\ (0 <= Sale.units_sold r)%Z)
    (monthly_sales cur).

(** [INTEGER PRIMARY KEY AUTOINCREMENT]: ids are positive, pairwise
    distinct and not above the table's counter. *)
Definition ids_fresh (ids : list Z) (counter : Z) : Prop :=
  NoDup ids /\ Forall (fun i => (0 < i <= counter)%Z) ids /\ (0 <= counter)%Z.

(** The units the table holds for the months of a window, in the words of
    the specification: a month with a fact for (user, sku, year, month)
    gives the units of that fact, a month with no fact gives nothing. *)
Inductive window_units (cur : db) (user_id : Z) (sku : str)
  : list (Z * Z) -> list Z -> Prop :=
| window_units_nil : window_units cur user_id sku [] []
| window_units_fact (y m : Z) (rest : list (Z * Z)) (units : list Z)
    (r : Sale.row) :
    In r (monthly_sales cur) ->
    sale_key r = (user_id, sku, y, m) ->
    window_units cur user_id sku rest units ->
    window_units cur user_id sku ((y, m) :: rest) (Sale.units_sold r :: units)
| window_units_none (y m : Z) (rest : list (Z * Z)) (units : list Z) :
    (forall r, In r (monthly_sales cur) -> sale_key r <> (user_id, sku, y, m)) ->
    window_units cur user_id sku rest units ->
    window_units cur user_id sku ((y, m) :: rest) units.

(** Every stored integer fits in 64 bits and no stored z is NaN: another
    value is refused when it is bound or by NOT NULL. *)
Definition product_storable (r : Product.row) : Prop :=
  int64 (Product.lead_time_days r) = true
  /\ is_nan (Product.z_value r) = false
  /\ int64 (Product.fba_stock r) = true
  /\ int64 (Product.inbound_stock r) = true.

Definition storable (cur : db) : Prop :=
  Forall product_storable (products cur)
  /\ Forall (fun r => int64 (Sale.units_sold r) = true) (monthly_sales cur).

(** What one store guarantees: unique facts that pass the CHECKs, and
    fresh ids in both tables. *)
Definition well_kept (cur : db) : Prop :=
  sales_unique cur /\ sales_checked cur
  /\ ids_fresh (map Product.id (products cur)) (products_seq cur)
  /\ ids_fresh (map Sale.id (monthly_sales cur)) (monthly_sales_seq cur).

End Schema.

(* ------------------------------------------------------------------ *)
(** * A small store, for examples

    Users 1 and 2 both keep a product under the SKU "A1"; user 1 has one
    monthly fact for it, user 2 another. *)

Module Sample.

Import Store.

Definition store : db :=
  mk_db
    [Product.mk 1 1 (lit "A1") (lit "Lamp") 7 (165 / 100)%float 50 0 10;
     Product.mk 2 2 (lit "A1") (lit "Desk") 14 2%float 5 5 11]
    2
    [Sale.mk 1 1 (lit "A1") 2023 12 120 10;
     Sale.mk 2 2 (lit "A1") 2024 1 999 11]
    2.

(** ** A toy signer, for examples

    Decimal text stands for the base64 coding and a rolling checksum for
    the keyed MAC; payloads are JSON scalars: [null], [true], [false], an
    integer, [Infinity], [NaN], [1.5] or a quoted string without
    escapes. *)

Import Auth.

Definition print_int (z : Z) : str := lit (NilZero.string_of_int (Z.to_int z)).

Definition digit (c : N) : option Z :=
  if ((48 <=? c) && (c <=? 57))%N then Some (Z.of_N c - 48)%Z else None.

Fixpoint parse_digits (acc : Z) (s : str) : option Z :=
  match s with
  | [] => Some acc
  | c :: s' =>
    match digit c with
    | Some d => parse_digits (10 * acc + d)%Z s'
    | None => None
    end
  end.

Definition checksum (value : str) : Z :=
  fold_left (fun a c => ((a * 31 + Z.of_N c) mod 65521)%Z) value 7%Z.

Definition get_signature (value : str) : str := print_int (checksum value).

Definition verify_signature (value sig : str) : bool :=
  str_eqb sig (get_signature value).

Definition dump_payload (obj : json) : str :=
  match obj with
  | JNull => lit "null"
  | JBool true => lit "true"
  | JBool false => lit "false"
  | JInt z => print_int z
  | JFloat f =>
    if is_nan f then lit "NaN"
    else if is_infinity f then lit "Infinity"
    else lit "1.5"
  | JStr s => [34%N] ++ s ++ [34%N]
  | JList _ => lit "[]"
  | JDict _ => lit "{}"
  end.

(** A JSON integer: an optional minus sign and ASCII digits. *)
Definition load_int (s : str) : option Z :=
  match s with
  | [] => None
  | c :: s' =>
    if (c =? 45)%N then
      match s' with
      | [] => None
      | _ :: _ => option_map Z.opp (parse_digits 0 s')
      end
    else parse_digits 0 s
  end.

Definition load_payload (s : str) : option json :=
  if str_eqb s (lit "null") then Some JNull
  else if str_eqb s (lit "true") then Some (JBool true)
  else if str_eqb s (lit "false") then Some (JBool false)
  else if str_eqb s (lit "[]") then Some (JList [])
  else if str_eqb s (lit "Infinity") then Some (JFloat infinity)
  else if str_eqb s (lit "NaN") then Some (JFloat nan)
  else if str_eqb s (lit "1.5") then Some (JFloat (3 / 2)%float)
  else
    match s with
    | 34%N :: rest =>
      match rev rest with
      | 34%N :: inner => Some (JStr (rev inner))
      | _ => None
      end
    | _ => option_map JInt (load_int s)
    end.

Definition encode_timestamp (ts : Z) : str := print_int ts.

Definition decode_timestamp (s : str) : option Z :=
  match s with
  | [] => None
  | _ :: _ => parse_digits 0 s
  end.

(** The toy signer's [make_session_cookie] and [decode_session_cookie]. *)
Definition make_cookie (now user_id : Z) : str :=
  make_session_cookie get_signature dump_payload encode_timestamp now user_id.

Definition decode_cookie (now : Z) (token : str) : result (option Z) :=
  decode_session_cookie verify_signature load_payload decode_timestamp
    now token.

(** 72 times U+00E9, and two plaintexts of 36 times U+00E9 followed by
    one differing ASCII letter. *)
Definition accented72 : str := repeat 233%N 72.

End Sample.

(* ------------------------------------------------------------------ *)
(** * Month labels and the six-month chart ([main.py], [month_label],
      [product_detail]) *)

Module Charts.

Import Store Planner.

(** [str(z)] on an int: decimal digits, a minus sign when negative. *)
Definition str_of_int (z : Z) : str := lit (NilZero.string_of_int (Z.to_int z)).

(** [f"{m:02d}"]: zero-padded to two characters; an int below zero or
    above 9 already fills them. *)
Definition format_02d (m : Z) : str :=
  if ((0 <=? m) && (m <? 10))%Z then lit "0" ++ str_of_int m
  else str_of_int m.

(** [f"{y}-{m:02d}"] *)
Definition month_label (y m : Z) : str :=
  str_of_int y ++ lit "-" ++ format_02d m.

(** [last6 = list(reversed(last_n_calendar_months(6)))] *)
Definition last6 (today : Z * Z) : list (Z * Z) :=
  rev (last_n_calendar_months today 6).

(** [labels6] of [product_detail]. *)
Definition labels6 (today : Z * Z) : list str :=
  map (fun ym => month_label (fst ym) (snd ym)) (last6 today).

(** [fetch_month_units(...) or 0] *)
Definition units_or_0 (u : option Z) : Z :=
  match u with
  | Some v => if (v =? 0)%Z then 0%Z else v
  | None => 0%Z
  end.

(** [units6] of [product_detail]. *)
Definition units6 (today : Z * Z) (cur : db) (user_id : Z) (sku : str)
  : list Z :=
  map (fun ym => units_or_0 (fetch_month_units cur user_id sku (fst ym) (snd ym)))
    (last6 today).

End Charts.

(* ------------------------------------------------------------------ *)
(** * Accounts ([auth.py], [create_user], [authenticate_user]; the [users]
      table of [db.py])

    The table is the list of its rows with its AUTOINCREMENT counter.
    [email.strip().lower()] and the hashing context are parameters. *)

Module Users.

Import Auth.

Record row : Type := mk {
  id : Z;
  email : str;
  hashed_pw : str;
  created_at : Z
}.

Record table : Type := mk_table {
  rows : list row;
  seq : Z
}.

(** The [users] table [init_db] creates. *)
Definition no_users : table := mk_table [] 0.

(** [COLLATE NOCASE]: the 26 upper-case ASCII letters fold to lower case
    before the comparison. *)
Definition fold_case (c : N) : N :=
  if ((65 <=? c) && (c <=? 90))%N then (c + 32)%N else c.

Definition nocase_eqb (s t : str) : bool :=
  str_eqb (map fold_case s) (map fold_case t).

Section Accounts.

(** [fun email => email.strip().lower()], and [_pwd_ctx]. *)
Variable normalize : str -> str.
Variable salt : Type.
Variable ctx_hash : salt -> str -> str.
Variable ctx_verify : str -> str -> bool.

(** [WHERE email=?] against the normalised address, on the NOCASE column. *)
Definition email_is (address : str) (r : row) : bool :=
  nocase_eqb (email r) (normalize address).

(** The [INSERT] fails on [UNIQUE] with [sqlite3.IntegrityError], which
    the function turns into [ValueError]; otherwise the new row id is
    returned and the insert is committed. *)
Definition create_user (now : Z) (fresh : salt) (users : table)
  (address plain_password : str) : result (Z * table) :=
  let hashed := hash_password ctx_hash fresh plain_password in
  if existsb (email_is address) (rows users) then Raise ValueError
  else
    let rowid := (seq users + 1)%Z in
    Ok (rowid,
        mk_table (rows users ++ [mk rowid (normalize address) hashed now])
          rowid).

Definition authenticate_user (users : table) (address plain_password : str)
  : option Z :=
  match find (email_is address) (rows users) with
  | None => None
  | Some r =>
    if negb (verify_password ctx_verify plain_password (hashed_pw r))
    then None
    else Some (id r)
  end.

(** The tables registrations can produce. *)
Inductive registered : table -> Prop :=
| registered_none : registered no_users
| registered_more (now : Z) (fresh : salt) (users users' : table)
    (address plain_password : str) (uid : Z) :
    registered users ->
    create_user now fresh users address plain_password = Ok (uid, users') ->
    registered users'.

End Accounts.

End Users.

(* ------------------------------------------------------------------ *)
(** * The session boundary of the routes ([main.py], [_current_user_id],
      [_require_user], [_get_user_or_redirect]; [auth.py],
      [get_current_user]) *)

Module Http.

Import Auth.

(** Where a redirect points. *)
Inductive location : Type :=
| ToHome                      (* "/" *)
| ToHomeSkuEmpty              (* "/?error=SKU+bos+olamaz" *)
| ToLogin                     (* "/login" *)
| ToLoginBadCredentials       (* "/login?error=..." *)
| ToRegisterTooShort          (* "/register?error=..." for a short password *)
| ToRegisterMismatch          (* "/register?error=..." for unequal passwords *)
| ToRegisterTaken             (* "/register?error=" with the quoted message *)
| ToProducts                  (* "/products" *)
| ToProduct (sku : str).      (* f"/product/{sku}" *)

(** [RedirectResponse(url, status_code)], with the session cookie it sets
    when it sets one. *)
Record response : Type := RedirectResponse {
  url : location;
  status_code : Z;
  session_cookie : option str
}.

(** How a helper or route ends: it returns, raises [HTTPException] (status
    code and [Location] header), or lets another exception through. *)
Inductive outcome (A : Type) : Type :=
| Returned (a : A)
| HTTPException (status : Z) (header_location : option location)
| Escaped (e : exn).

Arguments Returned {A} a.
Arguments HTTPException {A} status header_location.
Arguments Escaped {A} e.

(** [not session] on an [Optional[str]]. *)
Definition falsy (session : option str) : bool :=
  match session with
  | None => true
  | Some [] => true
  | Some (_ :: _) => false
  end.

Section Boundary.

Variable verify_signature : str -> str -> bool.
Variable load_payload : str -> option json.
Variable decode_timestamp : str -> option Z.

Definition _current_user_id (now : Z) (session : option str)
  : result (option Z) :=
  match session with
  | None => Ok None
  | Some token =>
    if falsy session then Ok None
    else decode_session_cookie verify_signature load_payload decode_timestamp
           now token
  end.

Definition _require_user (now : Z) (session : option str) : outcome Z :=
  match _current_user_id now session with
  | Raise e => Escaped e
  | Ok None => HTTPException 303 (Some ToLogin)
  | Ok (Some uid) => Returned uid
  end.

(** The user id, or the redirect the route returns instead. *)
Definition _get_user_or_redirect (now : Z) (session : option str)
  : outcome (Z + response) :=
  match _current_user_id now session with
  | Raise e => Escaped e
  | Ok None => Returned (inr (RedirectResponse ToLogin 302 None))
  | Ok (Some uid) => Returned (inl uid)
  end.

(** [get_current_user] of [auth.py]: status 401 in both failures (the
    detail text of the exception is left out). *)
Definition get_current_user (now : Z) (session : option str) : outcome Z :=
  match session with
  | None => HTTPException 401 None
  | Some token =>
    if falsy session then HTTPException 401 None
    else
      match decode_session_cookie verify_signature load_payload
              decode_timestamp now token with
      | Raise e => Escaped e
      | Ok None => HTTPException 401 None
      | Ok (Some uid) => Returned uid
      end
  end.

End Boundary.

End Http.

(* ------------------------------------------------------------------ *)
(** * Routes ([main.py]: [register], [login], [upsert], [delete_product],
      [delete_sale], [plan])

    A route returns how it ends together with the committed state: a route
    that ends before [conn.commit()] leaves the store as it found it. *)

Module Routes.

Import Store Metrics Planner Auth Http.

Section Handlers.

Variable normalize : str -> str.          (* email.strip().lower() *)
Variable strip : str -> str.              (* s.strip() *)
Variable strip_upper : str -> str.        (* s.strip().upper() *)
Variable salt : Type.
Variable ctx_hash : salt -> str -> str.
Variable ctx_verify : str -> str -> bool.
Variable get_signature : str -> str.
Variable verify_signature : str -> str -> bool.
Variable dump_payload : json -> str.
Variable load_payload : str -> option json.
Variable encode_timestamp : Z -> str.
Variable decode_timestamp : str -> option Z.

(** [POST /register] *)
Definition register (now : Z) (fresh : salt) (users : Users.table)
  (address password password2 : str) : outcome response * Users.table :=
  if (len password <? 8)%Z then
    (Returned (RedirectResponse ToRegisterTooShort 303 None), users)
  else if negb (str_eqb password password2) then
    (Returned (RedirectResponse ToRegisterMismatch 303 None), users)
  else
    match Users.create_user normalize ctx_hash now fresh users address
            password with
    | Raise e =>
      if except_matches [ValueError] e
      then (Returned (RedirectResponse ToRegisterTaken 303 None), users)
      else (Escaped e, users)
    | Ok (uid, users') =>
      (Returned
         (RedirectResponse ToHome 303
            (Some (make_session_cookie get_signature dump_payload
                     encode_timestamp now uid))),
       users')
    end.

(** [POST /login] *)
Definition login (now : Z) (users : Users.table) (address password : str)
  : response :=
  match Users.authenticate_user normalize ctx_verify users address
          password with
  | None => RedirectResponse ToLoginBadCredentials 303 None
  | Some uid =>
    RedirectResponse ToHome 303
      (Some (make_session_cookie get_signature dump_payload encode_timestamp
               now uid))
  end.

(** [POST /upsert] *)
Definition upsert (now : Z) (cur : db) (session : option str)
  (sku name : str) (lead_time_days : Z) (z_value : float)
  (fba_stock inbound_stock : Z) (years months units_sold : list Z)
  : outcome response * db :=
  match _require_user verify_signature load_payload decode_timestamp
          now session with
  | HTTPException status header => (HTTPException status header, cur)
  | Escaped e => (Escaped e, cur)
  | Returned user_id =>
    let sku := strip_upper sku in
    match sku with
    | [] => (Returned (RedirectResponse ToHomeSkuEmpty 303 None), cur)
    | _ :: _ =>
      match upsert_product now cur user_id sku (strip name) lead_time_days
              z_value fba_stock inbound_stock with
      | Raise e => (Escaped e, cur)
      | Ok cur1 =>
        match upsert_monthly_sales now cur1 user_id sku years months
                units_sold with
        | Raise e => (Escaped e, cur)
        | Ok cur2 =>
          (Returned (RedirectResponse (ToProduct sku) 303 None), cur2)
        end
      end
    end
  end.

(** [POST /delete/product/{sku}] *)
Definition delete_product (now : Z) (cur : db) (session : option str)
  (sku : str) : outcome response * db :=
  match _require_user verify_signature load_payload decode_timestamp
          now session with
  | HTTPException status header => (HTTPException status header, cur)
  | Escaped e => (Escaped e, cur)
  | Returned user_id =>
    (Returned (RedirectResponse ToProducts 303 None),
     delete_product_and_sales cur user_id sku)
  end.

(** [POST /delete/sale] *)
Definition delete_sale (now : Z) (cur : db) (session : option str)
  (sku : str) (year month : Z) : outcome response * db :=
  match _require_user verify_signature load_payload decode_timestamp
          now session with
  | HTTPException status header => (HTTPException status header, cur)
  | Escaped e => (Escaped e, cur)
  | Returned user_id =>
    (Returned (RedirectResponse (ToProduct sku) 303 None),
     delete_single_month_sale cur user_id sku year month)
  end.

End Handlers.

(** What [SELECT sku FROM products WHERE user_id=? ORDER BY updated_at
    DESC] may return: the SKUs of the user's rows, latest update first
    (rows updated at the same instant in either order). *)
Definition sku_listing (cur : db) (user_id : Z) (skus : list str) : Prop :=
  exists rows,
    Permutation.Permutation rows (products_of user_id cur)
    /\ Sorted.StronglySorted
         (fun a b => (Product.updated_at b <= Product.updated_at a)%Z) rows
    /\ skus = map Product.sku rows.

(** One line of the order plan: SKU, product row, metrics and the rounded
    order quantity. *)
Definition plan_line : Type := (str * Product.row * metrics * Z)%type.

(** The loop of [plan] (and of [export_plan_xlsx]) over the listed SKUs:
    unpacking a [None] from [compute_for_sku] raises [TypeError];
    [int(round(order_qty))] raises on an infinite order quantity; a SKU
    whose rounded order quantity is not positive is skipped. *)
Fixpoint plan_lines (today : Z * Z) (cur : db) (user_id : Z)
  (skus : list str) : result (list plan_line) :=
  match skus with
  | [] => Ok []
  | sku :: rest =>
    computed <- compute_for_sku today cur user_id sku ;;
    match computed with
    | None => Raise TypeError
    | Some (prod, _, _, res) =>
      oq <- round (order_qty res) ;;
      lines <- plan_lines today cur user_id rest ;;
      if (oq <=? 0)%Z then Ok lines
      else Ok ((sku, prod, res, oq) :: lines)
    end
  end.

End Routes.

(* ================================================================== *)
(** * Properties of the metrics engine *)

Section MetricsFacts.

Import Metrics.

Lemma fold_left_add_shift (l : list Z) (a : Z) :
  fold_left Z.add l a = (a + fold_left Z.add l 0)%Z.
Proof.
  revert a. induction l as [|x l IH]; intro a; simpl.
  - lia.
  - rewrite IH, (IH x). lia.
Qed.

Lemma sum_cons (x : Z) (l : list Z) : Py.sum (x :: l) = (x + Py.sum l)%Z.
Proof. unfold Py.sum. simpl. apply fold_left_add_shift. Qed.

Lemma len_cons (A : Type) (x : A) (l : list A) : len (x :: l) = (len l + 1)%Z.
Proof. unfold len. simpl List.length. lia. Qed.

Lemma len_nonneg (A : Type) (l : list A) : (0 <= len l)%Z.
Proof. unfold len. lia. Qed.

Lemma total_sum (l : list Z) : total l = Py.sum l.
Proof.
  induction l as [|x l IH]; [reflexivity|].
  rewrite sum_cons. simpl. rewrite IH. reflexivity.
Qed.

Lemma len_positive (A : Type) (l : list A) :
  l <> [] -> len l = Zpos (Pos.of_nat (List.length l)).
Proof.
  intro H. destruct l as [|x l]; [congruence|].
  unfold len. simpl List.length. lia.
Qed.

(** ** The exact sample variance *)

Open Scope Q_scope.



(** Squared deviations from any centre [c], through the accumulators of
    [_ss]. *)
Lemma squared_deviations (c : Q) (l : list Z) :
  total_Q (map (fun x => (inject_Z x - c) ^ 2) l)
  == inject_Z (Py.sum (map (fun n => n * n)%Z l))
     - 2 * c * inject_Z (Py.sum l) + inject_Z (len l) * c ^ 2.
Proof.
  induction l as [|x l IH].
  - unfold Py.sum, len. simpl. ring.
  - rewrite !map_cons. unfold total_Q in *. cbn [fold_right]. rewrite IH.
    rewrite !sum_cons, len_cons, !inject_Z_plus, inject_Z_mult. ring.
Qed.

Lemma mean_as_quotient (l : list Z) :
  l <> [] -> mean l == inject_Z (Py.sum l) / inject_Z (len l).
Proof.
  intro H. unfold mean. rewrite total_sum, (len_positive H).
  apply Qmake_Qdiv.
Qed.

Lemma inject_len_nonzero (l : list Z) : l <> [] -> ~ inject_Z (len l) == 0.
Proof.
  intros H E. rewrite (len_positive H) in E. discriminate E.
Qed.

(** The fraction [stdev] takes the root of is the sample variance. *)
Lemma stdev_fraction_is_sampleVariance (l : list Z) :
  (2 <= len l)%Z ->
  Qred (fst (_ss l) / inject_Z (snd (_ss l) - 1)) = Qred (sampleVariance l).
Proof.
  intro H2.
  assert (Hne : l <> []) by (intro E; subst l; unfold len in H2; simpl in H2; lia).
  apply Qred_complete. unfold _ss. cbn [fst snd].
  destruct (Z.eqb_spec (len l) 0) as [E|_]; [lia|].
  rewrite Qred_correct. unfold sampleVariance.

  rewrite squared_deviations.
  assert (Hn1 : inject_Z (Z.of_nat (List.length l)) - 1 == inject_Z (len l - 1)).
  { unfold len. unfold Zminus. rewrite inject_Z_plus. reflexivity. }
  rewrite Hn1.
  rewrite (mean_as_quotient Hne).
  pose proof (inject_len_nonzero Hne) as Hn.
  assert (Hn' : ~ inject_Z (len l - 1) == 0).
  { intro E. apply (inject_Z_injective (len l - 1) 0) in E. lia. }
  field. split; assumption.
Qed.

Close Scope Q_scope.
Open Scope Z_scope.

(** ** When the engine returns *)

Lemma float_limit_large : 2 ^ 200 < float_limit.
Proof. reflexivity. Qed.

Lemma float_of_int_returns (n : Z) :
  Z.abs n < float_limit -> float_of_int n = Ok (nearest_int n).
Proof.
  intro H. unfold float_of_int.
  destruct (Z.leb_spec float_limit (Z.abs n)); [lia|reflexivity].
Qed.

Lemma true_div_returns (a b : Z) :
  b <> 0 -> Z.abs a < float_limit * Z.abs b ->
  true_div a b = Ok (nearest_div a b).
Proof.
  intros Hb H. unfold true_div.
  destruct (Z.eqb_spec b 0); [contradiction|].
  destruct (Z.leb_spec (float_limit * Z.abs b) (Z.abs a)); [lia|reflexivity].
Qed.

(** Whatever [float_of_int] and [true_div] return is the nearest float. *)
Lemma float_of_int_value (n : Z) (f : float) :
  float_of_int n = Ok f -> f = nearest_int n.
Proof.
  unfold float_of_int.
  destruct (float_limit <=? Z.abs n); [discriminate|congruence].
Qed.

Lemma true_div_value (a b : Z) (f : float) :
  true_div a b = Ok f -> f = nearest_div a b.
Proof.
  unfold true_div. destruct (b =? 0); [discriminate|].
  destruct (float_limit * Z.abs b <=? Z.abs a); [discriminate|congruence].
Qed.

Lemma true_div_raises (a b : Z) (e : exn) :
  b <> 0 -> true_div a b = Raise e -> e = OverflowError.
Proof.
  intro Hb. unfold true_div. destruct (Z.eqb_spec b 0); [contradiction|].
  destruct (float_limit * Z.abs b <=? Z.abs a); congruence.
Qed.

Lemma float_of_int_raises (n : Z) (e : exn) :
  float_of_int n = Raise e -> e = OverflowError.
Proof.
  unfold float_of_int. destruct (float_limit <=? Z.abs n); congruence.
Qed.

Lemma int64_bounds (n : Z) : Store.int64 n = true -> - 2 ^ 63 <= n < 2 ^ 63.
Proof.
  unfold Store.int64. rewrite andb_true_iff, Z.leb_le, Z.ltb_lt. tauto.
Qed.

Lemma sum_int64 (l : list Z) :
  Forall (fun u => Store.int64 u = true) l ->
  Z.abs (Py.sum l) <= 2 ^ 63 * len l.
Proof.
  induction 1 as [|x l Hx _ IH].
  - unfold Py.sum, len. simpl. lia.
  - rewrite sum_cons, len_cons. apply int64_bounds in Hx. lia.
Qed.

Lemma sum_squares_int64 (l : list Z) :
  Forall (fun u => Store.int64 u = true) l ->
  0 <= Py.sum (map (fun n => n * n) l) <= 2 ^ 126 * len l.
Proof.
  induction 1 as [|x l Hx _ IH].
  - unfold Py.sum, len. simpl. lia.
  - rewrite map_cons, sum_cons, len_cons. apply int64_bounds in Hx.
    assert (0 <= x * x <= 2 ^ 126) by nia. lia.
Qed.

(** The squared distances of the points of [l] from [y]. *)
Lemma squared_distances_nonneg (y : Z) (l : list Z) :
  0 <= Py.sum (map (fun n => n * n) l) - 2 * y * Py.sum l + len l * (y * y).
Proof.
  induction l as [|x l IH].
  - unfold Py.sum, len. simpl. lia.
  - rewrite map_cons, !sum_cons, len_cons.
    pose proof (Z.square_nonneg (x - y)) as Hsq.
    replace (x * x + Py.sum (map (fun n => n * n) l)
             - 2 * y * (x + Py.sum l) + (len l + 1) * (y * y))
      with (Py.sum (map (fun n => n * n) l) - 2 * y * Py.sum l
            + len l * (y * y) + (x - y) * (x - y)) by ring.
    lia.
Qed.

(** Cauchy-Schwarz on the accumulators: the numerator of the sum of
    squared deviations is not negative. *)
Lemma ssd_numerator_nonneg (l : list Z) :
  0 <= len l * Py.sum (map (fun n => n * n) l) - Py.sum l * Py.sum l.
Proof.
  induction l as [|y l IH].
  - unfold Py.sum, len. simpl. lia.
  - rewrite map_cons, !sum_cons, len_cons.
    pose proof (squared_distances_nonneg y l) as Hd.
    replace ((len l + 1) * (y * y + Py.sum (map (fun n => n * n) l))
             - (y + Py.sum l) * (y + Py.sum l))
      with (len l * Py.sum (map (fun n => n * n) l) - Py.sum l * Py.sum l
            + (Py.sum (map (fun n => n * n) l) - 2 * y * Py.sum l
               + len l * (y * y))) by ring.
    lia.
Qed.


Lemma lor_bound (a b : Z) : 0 <= a -> 0 <= b -> 0 <= Z.lor a b <= a + b.
Proof.
  intros Ha Hb. split.
  - apply Z.lor_nonneg. split; assumption.
  - pose proof (Z.add_lor_land a b) as H.
    assert (0 <= Z.land a b) by (apply Z.land_nonneg; left; exact Ha).
    lia.
Qed.

Lemma rto_bound (n m : Z) :
  0 <= _integer_sqrt_of_frac_rto n m <= Z.sqrt (n / m) + 1.
Proof.
  unfold _integer_sqrt_of_frac_rto.
  pose proof (Z.sqrt_nonneg (n / m)) as Hs.
  destruct (Z.sqrt (n / m) * Z.sqrt (n / m) * m =? n).
  - rewrite Z.lor_0_r. lia.
  - pose proof (@lor_bound (Z.sqrt (n / m)) 1 Hs ltac:(lia)). lia.
Qed.

Lemma bit_length_bound (n m : Z) :
  0 <= n <= 2 ^ 127 * m -> 0 < m -> bit_length n <= bit_length m + 127.
Proof.
  intros Hn Hm. unfold bit_length.
  destruct (Z.eqb_spec n 0) as [->|Hn0], (Z.eqb_spec m 0) as [->|_]; try lia.
  - pose proof (Z.log2_nonneg (Z.abs m)). lia.
  - rewrite !Z.abs_eq by lia.
    assert (Z.log2 n <= Z.log2 (m * 2 ^ 127)) by (apply Z.log2_le_mono; lia).
    rewrite Z.log2_mul_pow2 in H by lia. lia.
Qed.

(** The square root [stdev] returns is far from the limit of the floats
    when the variance is that of 64-bit values. *)
Lemma sqrt_of_frac_terms_in_range (n m : Z) :
  0 <= n <= 2 ^ 127 * m -> 0 < m ->
  snd (sqrt_of_frac_terms n m) <> 0
  /\ Z.abs (fst (sqrt_of_frac_terms n m))
     < float_limit * Z.abs (snd (sqrt_of_frac_terms n m)).
Proof.
  intros Hn Hm. unfold sqrt_of_frac_terms.
  pose proof (bit_length_bound Hn Hm) as Hbl.
  pose proof float_limit_large as Hlim.
  set (q := (bit_length n - bit_length m - 109) / 2) in *.
  assert (Hq : q <= 9) by (unfold q; apply Z.div_le_upper_bound; lia).
  assert (Hdiv : n / m <= 2 ^ 127) by (apply Z.div_le_upper_bound; lia).
  destruct (Z.leb_spec 0 q) as [Hq0|Hq0]; cbn [fst snd].
  - split; [lia|].
    rewrite Z.shiftl_mul_pow2 by lia.
    rewrite Z.shiftl_mul_pow2 by lia.
    set (M := m * 2 ^ (2 * q)).
    assert (HM : m <= M).
    { unfold M. assert (1 <= 2 ^ (2 * q)) by (apply Z.pow_le_mono_r with (b := 0); lia).
      nia. }
    pose proof (rto_bound n M) as [Hr0 Hr1].
    assert (Hle : n / M <= n / m) by (apply Z.div_le_compat_l; lia).
    assert (Hsq : Z.sqrt (n / M) <= Z.sqrt (2 ^ 127)) by (apply Z.sqrt_le_mono; lia).
    assert (Hs127 : Z.sqrt (2 ^ 127) <= 2 ^ 64) by (vm_compute; discriminate).
    assert (Hp : 0 < 2 ^ q <= 2 ^ 9).
    { split; [apply Z.pow_pos_nonneg; lia|apply Z.pow_le_mono_r; lia]. }
    change (Z.abs 1) with 1. rewrite Z.abs_eq by nia.
    assert (_integer_sqrt_of_frac_rto n M * 2 ^ q <= (2 ^ 64 + 1) * 2 ^ 9) by nia.
    assert ((2 ^ 64 + 1) * 2 ^ 9 < 2 ^ 200) by (vm_compute; reflexivity).
    lia.
  - set (k := - q) in *.
    assert (Hk : 0 < k) by (unfold k; lia).
    replace (-2 * q) with (2 * k) by (unfold k; lia).
    rewrite !Z.shiftl_mul_pow2 by lia.
    assert (Hp : 0 < 2 ^ k) by (apply Z.pow_pos_nonneg; lia).
    split; [lia|].
    pose proof (rto_bound (n * 2 ^ (2 * k)) m) as [Hr0 Hr1].
    assert (H4 : 2 ^ (2 * k) = 2 ^ k * 2 ^ k).
    { replace (2 * k) with (k + k) by lia. apply Z.pow_add_r; lia. }
    assert (Hd : n * 2 ^ (2 * k) / m <= (2 ^ 64 * 2 ^ k) * (2 ^ 64 * 2 ^ k)).
    { apply Z.div_le_upper_bound; [lia|]. rewrite H4.
      assert (2 ^ 127 <= 2 ^ 64 * 2 ^ 64) by (vm_compute; discriminate).
      nia. }
    assert (Hs : Z.sqrt (n * 2 ^ (2 * k) / m) <= 2 ^ 64 * 2 ^ k).
    { etransitivity; [apply Z.sqrt_le_mono; exact Hd|].
      rewrite Z.sqrt_square by nia. lia. }
    rewrite Z.mul_1_l. rewrite (Z.abs_eq (2 ^ k)) by lia. rewrite Z.abs_eq by lia.
    assert (2 ^ 64 * 2 ^ k + 1 < 2 ^ 200 * 2 ^ k) by nia.
    nia.
Qed.


(** The fraction [stdev] takes the root of, for 64-bit values: not
    negative and at most 2^127. *)
Lemma stdev_fraction_int64 (l : list Z) :
  2 <= len l ->
  Forall (fun u => Store.int64 u = true) l ->
  0 <= Qnum (Qred (fst (_ss l) / inject_Z (snd (_ss l) - 1)))
    <= 2 ^ 127 * Zpos (Qden (Qred (fst (_ss l) / inject_Z (snd (_ss l) - 1)))).
Proof.
  intros H2 Hall.
  set (mss := Qred (fst (_ss l) / inject_Z (snd (_ss l) - 1))).
  set (n := len l) in *.
  set (S1 := Py.sum l).
  set (S2 := Py.sum (map (fun n => n * n) l)).
  assert (HN : 0 <= n * S2 - S1 * S1) by apply ssd_numerator_nonneg.
  pose proof (sum_squares_int64 Hall) as HS2. fold S2 n in HS2.
  destruct (n * (n - 1)) as [|D|D] eqn:HD; try nia.
  assert (Hmss : (mss == (n * S2 - S1 * S1) # D)%Q).
  { unfold mss. rewrite Qred_correct. unfold _ss. cbn [fst snd].
    fold n S1 S2.
    destruct (Z.eqb_spec n 0) as [E|_]; [lia|].
    rewrite Qred_correct, Qmake_Qdiv, <- HD.
    rewrite inject_Z_mult.
    replace (n * S2 - S1 * S1) with (n * S2 + - (S1 * S1)) by lia.
    rewrite inject_Z_plus, inject_Z_opp, !inject_Z_mult.
    assert (Hn : ~ (inject_Z n == 0)%Q).
    { intro E. apply (inject_Z_injective n 0) in E. lia. }
    assert (Hn' : ~ (inject_Z (n - 1) == 0)%Q).
    { intro E. apply (inject_Z_injective (n - 1) 0) in E. lia. }
    field. split; assumption. }
  unfold Qeq in Hmss. cbn [Qnum Qden] in Hmss.
  assert (HNle : n * S2 - S1 * S1 <= 2 ^ 127 * Zpos D).
  { rewrite <- HD. assert (0 <= S1 * S1) by apply Z.square_nonneg.
    assert (n * S2 <= n * (2 ^ 126 * n)) by nia.
    assert (n * (2 ^ 126 * n) <= 2 ^ 127 * (n * (n - 1))).
    { replace (2 ^ 127) with (2 ^ 126 * 2) by reflexivity. nia. }
    lia. }
  split; nia.
Qed.

Lemma stdev_returns (l : list Z) :
  2 <= len l ->
  Forall (fun u => Store.int64 u = true) l ->
  stdev l = Ok (sampleStdDev l).
Proof.
  intros H2 Hall. unfold stdev, _float_sqrt_of_frac.
  assert (Hn : snd (_ss l) = len l) by reflexivity.
  destruct (Z.ltb_spec (snd (_ss l)) 2) as [Hlt|_]; [lia|].
  pose proof (stdev_fraction_int64 H2 Hall) as Hrange.
  destruct (sqrt_of_frac_terms_in_range Hrange (Pos2Z.pos_is_pos _))
    as [Hden Hnum].
  rewrite (@true_div_returns _ _ Hden Hnum).
  unfold sampleStdDev, sqrt_of_frac.
  rewrite <- (stdev_fraction_is_sampleVariance l H2). reflexivity.
Qed.

(** Whatever [stdev] returns is the rounded root of the sample variance,
    and all it raises on two points or more is [OverflowError]. *)
Lemma stdev_value (l : list Z) (s : float) :
  2 <= len l -> stdev l = Ok s -> s = sampleStdDev l.
Proof.
  intros H2. unfold stdev, _float_sqrt_of_frac.
  assert (Hn : snd (_ss l) = len l) by reflexivity.
  destruct (Z.ltb_spec (snd (_ss l)) 2) as [Hlt|_]; [lia|].
  intro E. apply true_div_value in E. subst s.
  unfold sampleStdDev, sqrt_of_frac.
  rewrite <- (stdev_fraction_is_sampleVariance l H2). reflexivity.
Qed.

Lemma sqrt_of_frac_terms_denominator (n m : Z) :
  snd (sqrt_of_frac_terms n m) <> 0.
Proof.
  unfold sqrt_of_frac_terms.
  destruct (Z.leb_spec 0 ((bit_length n - bit_length m - 109) / 2)) as [H|H];
    cbn [snd]; [lia|].
  rewrite Z.shiftl_mul_pow2 by lia.
  assert (0 < 2 ^ (- ((bit_length n - bit_length m - 109) / 2)))
    by (apply Z.pow_pos_nonneg; lia).
  lia.
Qed.

Lemma stdev_raises (l : list Z) (e : exn) :
  2 <= len l -> stdev l = Raise e -> e = OverflowError.
Proof.
  intros H2. unfold stdev, _float_sqrt_of_frac.
  assert (Hn : snd (_ss l) = len l) by reflexivity.
  destruct (Z.ltb_spec (snd (_ss l)) 2) as [Hlt|_]; [lia|].
  apply true_div_raises. apply sqrt_of_frac_terms_denominator.
Qed.


Lemma max_int_max (a b : Z) : max_int a b = Z.max a b.
Proof. unfold max_int. destruct (Z.ltb_spec a b); lia. Qed.

Lemma math_sqrt_value (n : Z) (f : float) :
  math_sqrt n = Ok f -> f = PrimFloat.sqrt (nearest_int n).
Proof.
  unfold math_sqrt. destruct (float_of_int n) as [g|e] eqn:E; [|discriminate].
  apply float_of_int_value in E. subst g.
  destruct (n <? 0); [discriminate|congruence].
Qed.

Lemma math_sqrt_raises (n : Z) (e : exn) :
  0 <= n -> math_sqrt n = Raise e -> e = OverflowError.
Proof.
  intro Hn. unfold math_sqrt.
  destruct (float_of_int n) as [g|e'] eqn:E.
  - destruct (Z.ltb_spec n 0); [lia|discriminate].
  - intro H. injection H as <-. eapply float_of_int_raises. exact E.
Qed.

Lemma math_sqrt_returns (n : Z) :
  0 <= n < float_limit -> math_sqrt n = Ok (PrimFloat.sqrt (nearest_int n)).
Proof.
  intro Hn. unfold math_sqrt. rewrite float_of_int_returns by lia.
  destruct (Z.ltb_spec n 0); [lia|reflexivity].
Qed.

Lemma mul_int_value (x : float) (n : Z) (f : float) :
  mul_int x n = Ok f -> f = (x * nearest_int n)%float.
Proof.
  unfold mul_int. destruct (float_of_int n) as [g|e] eqn:E; [|discriminate].
  apply float_of_int_value in E. congruence.
Qed.

Lemma sub_int_value (x : float) (n : Z) (f : float) :
  sub_int x n = Ok f -> f = (x - nearest_int n)%float.
Proof.
  unfold sub_int. destruct (float_of_int n) as [g|e] eqn:E; [|discriminate].
  apply float_of_int_value in E. congruence.
Qed.

Lemma mul_int_raises (x : float) (n : Z) (e : exn) :
  mul_int x n = Raise e -> e = OverflowError.
Proof.
  unfold mul_int. destruct (float_of_int n) as [g|e'] eqn:E; [discriminate|].
  intro H. injection H as <-. eapply float_of_int_raises. exact E.
Qed.

Lemma sub_int_raises (x : float) (n : Z) (e : exn) :
  sub_int x n = Raise e -> e = OverflowError.
Proof.
  unfold sub_int. destruct (float_of_int n) as [g|e'] eqn:E; [discriminate|].
  intro H. injection H as <-. eapply float_of_int_raises. exact E.
Qed.

Lemma length_two (A : Type) (l : list A) :
  (2 <=? List.length l)%nat = (2 <=? len l).
Proof.
  unfold len. destruct (Nat.leb_spec 2 (List.length l)), (Z.leb_spec 2 (Z.of_nat (List.length l)));
    try reflexivity; lia.
Qed.

Lemma nearest_mean (l : list Z) :
  l <> [] -> nearest (mean l) = nearest_div (Py.sum l) (len l).
Proof.
  intro H. unfold nearest, mean. cbn [Qnum Qden].
  rewrite total_sum, (len_positive H). reflexivity.
Qed.

(** The standard deviation per day the engine uses, against the
    reference. *)
Lemma std_daily_value (l : list Z) (s : float) :
  (if 2 <=? len l then s <- stdev l ;; Ok (s / 30)%float else Ok 0%float)
  = Ok s ->
  s = if (2 <=? List.length l)%nat then (sampleStdDev l / 30)%float
      else 0%float.
Proof.
  rewrite length_two. destruct (Z.leb_spec 2 (len l)) as [H2|H2].
  - destruct (stdev l) as [v|e] eqn:E; simpl; [|discriminate].
    apply (stdev_value l H2) in E. congruence.
  - congruence.
Qed.

Lemma std_daily_raises (l : list Z) (e : exn) :
  (if 2 <=? len l then s <- stdev l ;; Ok (s / 30)%float else Ok 0%float)
  = Raise e ->
  e = OverflowError.
Proof.
  destruct (Z.leb_spec 2 (len l)) as [H2|H2]; [|discriminate].
  destruct (stdev l) as [v|e'] eqn:E; simpl; [discriminate|].
  intro H. injection H as <-. exact (stdev_raises l H2 E).
Qed.

(** Whatever the engine returns on a non-empty sequence is the
    reference. *)
Lemma compute_from_last_months_value
  (lead_time : Z) (z : float) (monthly_units : list Z)
  (fba_stock inbound_stock : Z) (m : metrics) :
  monthly_units <> [] ->
  compute_from_last_months lead_time z monthly_units fba_stock inbound_stock
  = Ok m ->
  m = computeMetrics_spec lead_time z monthly_units fba_stock inbound_stock.
Proof.
  intros Hne. unfold compute_from_last_months, computeMetrics_spec.
  rewrite (nearest_mean Hne).
  destruct monthly_units as [|x l]; [congruence|].
  set (seq := x :: l) in *.
  destruct (true_div (Py.sum seq) (len seq)) as [mean_month|e] eqn:E1;
    [|discriminate].
  apply true_div_value in E1. subst mean_month. cbn [bind].
  destruct (if 2 <=? len seq then s <- stdev seq ;; Ok (s / 30)%float
            else Ok 0%float) as [sd|e] eqn:E2; [|discriminate].
  apply std_daily_value in E2. rewrite <- E2. cbn [bind].
  destruct (math_sqrt (max_int 1 lead_time)) as [root|e] eqn:E3;
    [|discriminate].
  apply math_sqrt_value in E3. rewrite max_int_max in E3. subst root.
  cbn [bind].
  destruct (mul_int (nearest_div (Py.sum seq) (len seq) / 30) lead_time)
    as [ld|e] eqn:E4; [|discriminate].
  apply mul_int_value in E4. subst ld. cbn [bind].
  destruct (mul_int (nearest_div (Py.sum seq) (len seq) / 30) 60)
    as [hd|e] eqn:E5; [|discriminate].
  apply mul_int_value in E5. subst hd. cbn [bind].
  match goal with
  | |- context [sub_int ?a ?b] =>
    destruct (sub_int a b) as [need|e] eqn:E6; [|discriminate]
  end.
  apply sub_int_value in E6. subst need. cbn [bind].
  intro H. injection H as <-. reflexivity.
Qed.

(** All the engine raises is [OverflowError]. *)
Lemma compute_from_last_months_raises
  (lead_time : Z) (z : float) (monthly_units : list Z)
  (fba_stock inbound_stock : Z) (e : exn) :
  compute_from_last_months lead_time z monthly_units fba_stock inbound_stock
  = Raise e ->
  e = OverflowError.
Proof.
  unfold compute_from_last_months.
  destruct monthly_units as [|x l]; [discriminate|].
  set (seq := x :: l) in *.
  assert (Hlen : len seq <> 0).
  { unfold seq. rewrite len_cons. pose proof (len_nonneg l). lia. }
  destruct (true_div (Py.sum seq) (len seq)) as [mean_month|e1] eqn:E1.
  2:{ intro H. injection H as <-. exact (@true_div_raises _ _ _ Hlen E1). }
  cbn [bind].
  destruct (if 2 <=? len seq then s <- stdev seq ;; Ok (s / 30)%float
            else Ok 0%float) as [sd|e2] eqn:E2.
  2:{ intro H. injection H as <-. eapply std_daily_raises; exact E2. }
  cbn [bind].
  destruct (math_sqrt (max_int 1 lead_time)) as [root|e3] eqn:E3.
  2:{ intro H. injection H as <-.
      eapply math_sqrt_raises; [|exact E3]. rewrite max_int_max. lia. }
  cbn [bind].
  destruct (mul_int (mean_month / 30) lead_time) as [ld|e4] eqn:E4.
  2:{ intro H. injection H as <-. eapply mul_int_raises; exact E4. }
  cbn [bind].
  destruct (mul_int (mean_month / 30) 60) as [hd|e5] eqn:E5.
  2:{ intro H. injection H as <-. eapply mul_int_raises; exact E5. }
  cbn [bind].
  match goal with
  | |- context [sub_int ?a ?b] => destruct (sub_int a b) as [need|e6] eqn:E6
  end.
  - discriminate.
  - intro H. injection H as <-. eapply sub_int_raises; exact E6.
Qed.

(** On values the store can hold the engine returns. *)
Lemma compute_from_last_months_returns
  (lead_time : Z) (z : float) (monthly_units : list Z)
  (fba_stock inbound_stock : Z) :
  Forall (fun u => Store.int64 u = true) monthly_units ->
  Store.int64 lead_time = true ->
  Store.int64 fba_stock = true -> Store.int64 inbound_stock = true ->
  exists m,
    compute_from_last_months lead_time z monthly_units fba_stock inbound_stock
    = Ok m.
Proof.
  intros Hall Hlead Hfba Hinb.
  apply int64_bounds in Hlead, Hfba, Hinb.
  pose proof float_limit_large as Hlim.
  assert (H63 : 2 ^ 63 * 2 < 2 ^ 200) by reflexivity.
  unfold compute_from_last_months.
  destruct monthly_units as [|x l]; [eexists; reflexivity|].
  set (seq := x :: l) in *.
  assert (Hlen : 0 < len seq).
  { unfold seq. rewrite len_cons. pose proof (len_nonneg l). lia. }
  pose proof (sum_int64 Hall) as Hsum.
  rewrite true_div_returns by nia. cbn [bind].
  assert (Hsd : exists sd,
    (if 2 <=? len seq then s <- stdev seq ;; Ok (s / 30)%float
     else Ok 0%float) = Ok sd).
  { destruct (Z.leb_spec 2 (len seq)) as [H2|H2]; [|eexists; reflexivity].
    rewrite (@stdev_returns seq H2 Hall). eexists. reflexivity. }
  destruct Hsd as [sd ->]. cbn [bind].
  rewrite math_sqrt_returns by (rewrite max_int_max; lia). cbn [bind].
  unfold mul_int, sub_int.
  rewrite !float_of_int_returns by lia. cbn [bind].
  eexists. reflexivity.
Qed.


Open Scope float_scope.

(** C1, as stated, fails: on a unit count too large for a float the
    engine raises [OverflowError] instead of returning the metrics; and
    the standard deviation is the root of the exact variance rounded once,
    which evaluating the formula step by step in floats misses by a unit
    of the last place already on [100; 100; 102]. *)
Lemma compute_from_last_months_overflows :
  compute_from_last_months 7 (165 / 100) [10 ^ 400]%Z 50 0
  = Raise OverflowError
  /\ stdev [100; 100; 102]%Z = Ok 0x1.279a74590331cp+0
  /\ (let m := 302 / 3 in
      PrimFloat.sqrt
        (((100 - m) * (100 - m) + (100 - m) * (100 - m)
          + (102 - m) * (102 - m)) / 2))
     = 0x1.279a74590331dp+0.
Proof. vm_compute. repeat split. Qed.

(** C1, amended.  On every non-empty sequence [compute_from_last_months]
    returns the reference metrics evaluated in binary64, or raises
    [OverflowError]; it returns them whenever the unit counts, the lead
    time and the stock levels fit in 64 bits, which is all the store
    holds.  The reference: the exact mean rounded once, over 30; the root
    of the exact sample variance (divisor n - 1) as [statistics] rounds
    it, over 30, and 0 for a single point; [z * stdDaily * sqrt (max 1
    leadTime)]; velocity times lead time plus safety stock; and the 60-day
    need less the stock, clamped at 0: the order quantity is 0 or above
    0, never negative (and never NaN). *)
Theorem compute_from_last_months_is_reference
  (lead_time : Z) (z : float) (monthly_units : list Z)
  (fba_stock inbound_stock : Z) :
  monthly_units <> [] ->
  (compute_from_last_months lead_time z monthly_units fba_stock inbound_stock
   = Ok (computeMetrics_spec lead_time z monthly_units fba_stock
           inbound_stock)
   \/ compute_from_last_months lead_time z monthly_units fba_stock
        inbound_stock
      = Raise OverflowError)
  /\ (Forall (fun u => Store.int64 u = true) monthly_units ->
      Store.int64 lead_time = true ->
      Store.int64 fba_stock = true -> Store.int64 inbound_stock = true ->
      compute_from_last_months lead_time z monthly_units fba_stock
        inbound_stock
      = Ok (computeMetrics_spec lead_time z monthly_units fba_stock
              inbound_stock))
  /\ (order_qty (computeMetrics_spec lead_time z monthly_units fba_stock
                   inbound_stock) = 0
      \/ (0 <? order_qty (computeMetrics_spec lead_time z monthly_units
                            fba_stock inbound_stock)) = true).
Proof.
  intro Hne. split; [|split].
  - destruct (compute_from_last_months lead_time z monthly_units fba_stock
                inbound_stock) as [m|e] eqn:E.
    + left. f_equal. eapply compute_from_last_months_value; eassumption.
    + right. f_equal. eapply compute_from_last_months_raises; eassumption.
  - intros Hall Hlead Hfba Hinb.
    destruct (@compute_from_last_months_returns lead_time z monthly_units
                fba_stock inbound_stock Hall Hlead Hfba Hinb)
      as [m E].
    rewrite E. f_equal. eapply compute_from_last_months_value; eassumption.
  - unfold computeMetrics_spec. cbn [order_qty]. unfold max_float.
    match goal with
    | |- context [if ?c then _ else _] => destruct c eqn:Hc
    end.
    + right. exact Hc.
    + left. reflexivity.
Qed.

(** C1, at [100; 120; 110] with lead time 7. *)
Lemma compute_from_last_months_is_reference_witness :
  [100; 120; 110]%Z <> []
  /\ compute_from_last_months 7 (165 / 100) [100; 120; 110]%Z 50 0
     = Ok (computeMetrics_spec 7 (165 / 100) [100; 120; 110]%Z 50 0).
Proof.
  assert (Hne : [100; 120; 110]%Z <> []) by discriminate.
  split; [exact Hne|].
  apply (proj1 (proj2 (@compute_from_last_months_is_reference
                         7 (165 / 100) [100; 120; 110]%Z 50 0 Hne))).
  - repeat constructor.
  - reflexivity.
  - reflexivity.
  - reflexivity.
Defined.

(** C2.  On the empty sequence all five metrics are 0, whatever the lead
    time, z, and stock levels. *)
Theorem compute_from_last_months_empty
  (lead_time : Z) (z : float) (fba_stock inbound_stock : Z) :
  exists m,
    compute_from_last_months lead_time z [] fba_stock inbound_stock = Ok m
    /\ daily_velocity m = 0 /\ std_daily m = 0 /\ safety_stock m = 0
    /\ rop m = 0 /\ order_qty m = 0.
Proof.
  exists zero_metrics. unfold compute_from_last_months, zero_metrics. simpl.
  repeat split; reflexivity.
Qed.

End MetricsFacts.

(* ------------------------------------------------------------------ *)
(** * The worked scenario of the metrics engine *)

Section Scenario.

Import Metrics.
Open Scope R_scope.

Lemma approx_bounds (tol x v : R) :
  v - tol <= x -> x <= v + tol -> approx tol x v.
Proof.
  intros Hlo Hhi. unfold approx. apply Rabs_le. lra.
Qed.

(** The floats the engine returns in the scenario. *)
Lemma scenario_value :
  scenario
  = Ok (mk_metrics 0x1.d555555555555p+1 0x1.5555555555555p-2
          0x1.748593ace7834p+0 0x1.b1f303e57922dp+4 0x1.56e90b2759cf0p+7).
Proof. vm_compute. reflexivity. Qed.

(** The real number of a float given by its sign, mantissa and
    exponent. *)
Lemma real_finite (x : float) (s : bool) (m : positive) (e : Z) :
  Prim2SF x = S754_finite s m e ->
  (e <? 0)%Z = true ->
  real x = IZR (cond_Zopp s (Zpos m)) / IZR (2 ^ (- e)).
Proof.
  intros Hx He. unfold real. rewrite Hx.
  destruct (Z.leb_spec 0 e) as [H|H]; [|reflexivity].
  apply Z.ltb_lt in He. lia.
Qed.

Lemma scenario_reals :
  real 0x1.d555555555555p+1 = 8256599316845909 / 2251799813685248
  /\ real 0x1.5555555555555p-2 = 6004799503160661 / 18014398509481984
  /\ real 0x1.748593ace7834p+0 = 6553472540244020 / 4503599627370496
  /\ real 0x1.b1f303e57922dp+4 = 7634116436005421 / 281474976710656
  /\ real 0x1.56e90b2759cf0p+7 = 6032542259322096 / 35184372088832.
Proof.
  repeat split;
    (erewrite real_finite;
     [|vm_compute; reflexivity|reflexivity]; reflexivity).
Qed.

(** C9, as stated, fails: the engine returns a standard deviation, a
    safety stock and an order quantity below, and a reorder point above,
    the figures of the scenario by more than a unit of their last digit. *)
Lemma scenario_figures_off :
  exists m,
    scenario = Ok m
    /\ std_daily m < 337 / 1000 - 1 / 1000
    /\ safety_stock m < 148 / 100 - 1 / 100
    /\ 267 / 10 + 1 / 10 < rop m
    /\ order_qty m < 1717 / 10 - 1 / 10.
Proof.
  eexists. split; [apply scenario_value|].
  cbn [daily_velocity std_daily safety_stock rop order_qty].
  destruct scenario_reals as [Hdv [Hsd [Hss [Hrop Hoq]]]].
  rewrite Hsd, Hss, Hrop, Hoq.
  repeat split; lra.
Qed.

(** C9, amended.  In the scenario the engine returns, rounded to the
    digits shown: daily velocity 3.67, standard deviation 0.333, safety
    stock 1.46, reorder point 27.1 and order quantity 171.5. *)
Theorem scenario_figures :
  exists m,
    scenario = Ok m
    /\ approx (5 / 1000) (daily_velocity m) (367 / 100)
    /\ approx (5 / 10000) (std_daily m) (333 / 1000)
    /\ approx (5 / 1000) (safety_stock m) (146 / 100)
    /\ approx (5 / 100) (rop m) (271 / 10)
    /\ approx (5 / 100) (order_qty m) (1715 / 10).
Proof.
  eexists. split; [apply scenario_value|].
  cbn [daily_velocity std_daily safety_stock rop order_qty].
  destruct scenario_reals as [Hdv [Hsd [Hss [Hrop Hoq]]]].
  rewrite Hdv, Hsd, Hss, Hrop, Hoq.
  repeat split; apply approx_bounds; lra.
Qed.

End Scenario.

(* ------------------------------------------------------------------ *)
(** * Floats *)

Section FloatFacts.
Open Scope float_scope.

Lemma SFcompare_same (v : spec_float) :
  v <> S754_nan -> SFcompare v v = Some Eq.
Proof.
  destruct v as [s|s| |s m e]; intro H; try congruence; simpl.
  - reflexivity.
  - destruct s; reflexivity.
  - rewrite Z.compare_refl, Pos.compare_cont_refl. destruct s; reflexivity.
Qed.

(** A float above zero is a number, and is not below zero. *)
Lemma above_zero (x : float) :
  (0 <? x) = true -> is_nan x = false /\ (x <? 0) = false.
Proof.
  unfold is_nan. rewrite !ltb_spec, eqb_spec.
  change (Prim2SF 0) with (S754_zero false).
  unfold SFltb, SFeqb.
  destruct (Prim2SF x) as [s|s| |s m e] eqn:E; simpl; try discriminate.
  - destruct s; [discriminate|]. intros _. split; reflexivity.
  - destruct s; [discriminate|]. intros _.
    rewrite Z.compare_refl, Pos.compare_cont_refl. split; reflexivity.
Qed.

Lemma iter_shr_1_exact (m : positive) :
  iter_pos shr_1 52 {| shr_m := Zpos (4503599627370496 * m); shr_r := false; shr_s := false |}
  = {| shr_m := Zpos m; shr_r := false; shr_s := false |}.
Proof. reflexivity. Qed.

Lemma digits2_pos_shift (m : positive) :
  Zpos (digits2_pos (4503599627370496 * m)) = (Zpos (digits2_pos m) + 52)%Z.
Proof. cbn. lia. Qed.

(** Multiplying by 1.0 is exact. *)
Lemma mul_one (x : float) : x * 1 = x.
Proof.
  apply Prim2SF_inj. rewrite mul_spec.
  change (Prim2SF 1) with (S754_finite false 4503599627370496 (-52)).
  pose proof (Prim2SF_valid x) as Hv.
  destruct (Prim2SF x) as [s|s| |s m e]; simpl in *.
  - destruct s; reflexivity.
  - destruct s; reflexivity.
  - reflexivity.
  - unfold SF64mul, SFmul.
    replace (xorb s false) with s by (destruct s; reflexivity).
    unfold bounded, canonical_mantissa in Hv.
    apply andb_true_iff in Hv as [Hc Hb]. apply Z.eqb_eq in Hc.
    rewrite Pos.mul_comm.
    unfold binary_round_aux, shr_fexp.
    unfold Zdigits2 at 1. rewrite digits2_pos_shift.
    replace (Z.pos (digits2_pos m) + 52 + (e + -52))%Z
      with (Z.pos (digits2_pos m) + e)%Z by lia.
    rewrite Hc.
    replace (e - (e + -52))%Z with 52%Z by lia.
    unfold shr at 1. cbn [shr_record_of_loc]. rewrite !iter_shr_1_exact.
    cbn [shr_m loc_of_shr_record round_nearest_even shr_r shr_s].
    replace (e + -52 + 52)%Z with e by lia.
    unfold Zdigits2. rewrite Hc, Z.sub_diag. cbn [shr shr_record_of_loc shr_m].
    rewrite Hb. reflexivity.
Qed.

End FloatFacts.

(* ================================================================== *)
(** * Properties of the store *)

Section StoreFacts.

Import Store.

Lemma str_eqb_eq (s t : str) : str_eqb s t = true <-> s = t.
Proof.
  revert t. induction s as [|c s IH]; destruct t as [|d t]; simpl;
    try (split; [discriminate|congruence]).
  - split; reflexivity.
  - rewrite andb_true_iff, N.eqb_eq, IH. split.
    + intros [-> ->]. reflexivity.
    + intro E. injection E as -> ->. split; reflexivity.
Qed.

Lemma str_eqb_refl (s : str) : str_eqb s s = true.
Proof. apply str_eqb_eq. reflexivity. Qed.

Lemma product_at_key (u : Z) (s : str) (r : Product.row) :
  product_at u s r = true <-> (Product.user_id r, Product.sku r) = (u, s).
Proof.
  unfold product_at. rewrite andb_true_iff, Z.eqb_eq, str_eqb_eq.
  split.
  - intros [-> ->]. reflexivity.
  - intro E. injection E as -> ->. split; reflexivity.
Qed.

(** ** Generic facts on [find], [filter] and [map] *)

Lemma find_filter (A : Type) (p g : A -> bool) (l : list A) :
  (forall x, p x = true -> g x = true) ->
  find p (filter g l) = find p l.
Proof.
  intro Hpg. induction l as [|x l IH]; simpl; [reflexivity|].
  destruct (g x) eqn:Hg; simpl.
  - rewrite IH. reflexivity.
  - destruct (p x) eqn:Hp; [|exact IH].
    apply Hpg in Hp. congruence.
Qed.

Lemma find_hd_filter (A : Type) (p : A -> bool) (l : list A) :
  find p l = hd_error (filter p l).
Proof.
  induction l as [|x l IH]; simpl; [reflexivity|].
  destruct (p x); simpl; [reflexivity|exact IH].
Qed.

Lemma filter_map_stable (A : Type) (g : A -> bool) (f : A -> A) (l : list A) :
  (forall x, g (f x) = g x) ->
  (forall x, g x = true -> f x = x) ->
  filter g (map f l) = filter g l.
Proof.
  intros Hg Hf. induction l as [|x l IH]; simpl; [reflexivity|].
  rewrite Hg. destruct (g x) eqn:E; [|exact IH].
  rewrite (Hf x E), IH. reflexivity.
Qed.

Lemma filter_map_commute (A : Type) (g : A -> bool) (f : A -> A) (l : list A) :
  (forall x, g (f x) = g x) ->
  filter g (map f l) = map f (filter g l).
Proof.
  intro Hg. induction l as [|x l IH]; simpl; [reflexivity|].
  rewrite Hg. destruct (g x); simpl; rewrite IH; reflexivity.
Qed.

Lemma filter_snoc_out (A : Type) (g : A -> bool) (l : list A) (x : A) :
  g x = false -> filter g (l ++ [x]) = filter g l.
Proof.
  intro Hx. rewrite filter_app. simpl. rewrite Hx. apply app_nil_r.
Qed.

Lemma filter_filter_out (A : Type) (g p : A -> bool) (l : list A) :
  (forall x, g x = true -> p x = false) ->
  filter g (filter (fun x => negb (p x)) l) = filter g l.
Proof.
  intro H. induction l as [|x l IH]; simpl; [reflexivity|].
  destruct (p x) eqn:Hp; simpl.
  - destruct (g x) eqn:Hg; [|exact IH].
    apply H in Hg. congruence.
  - rewrite IH. reflexivity.
Qed.

Lemma existsb_false_filter (A : Type) (p : A -> bool) (l : list A) :
  existsb p l = false -> filter p l = [].
Proof.
  induction l as [|x l IH]; simpl; [reflexivity|].
  destruct (p x); simpl; [discriminate|exact IH].
Qed.

(** ** The unique pair of [products] *)

Lemma existsb_product_at_In (u : Z) (s : str) (l : list Product.row) :
  existsb (product_at u s) l = true <-> In (u, s) (map product_key l).
Proof.
  rewrite existsb_exists, in_map_iff. split.
  - intros [r [Hin Hp]]. exists r. split; [|exact Hin].
    apply product_at_key in Hp. exact Hp.
  - intros [r [Hk Hin]]. exists r. split; [exact Hin|].
    apply product_at_key. exact Hk.
Qed.

(** Under the unique pair a query addresses at most one row. *)
Lemma unique_filter_single (u : Z) (s : str) (l : list Product.row) :
  NoDup (map product_key l) ->
  existsb (product_at u s) l = true ->
  exists r, filter (product_at u s) l = [r].
Proof.
  induction l as [|x l IH]; simpl; intros Hnd Hex; [discriminate|].
  inversion Hnd as [|k ks Hnotin Hnd']; subst.
  destruct (product_at u s x) eqn:Hx.
  - exists x. f_equal. apply existsb_false_filter.
    destruct (existsb (product_at u s) l) eqn:E; [|reflexivity].
    exfalso. apply Hnotin. apply product_at_key in Hx.
    unfold product_key at 1. rewrite Hx.
    apply existsb_product_at_In. exact E.
  - simpl in Hex. apply IH; assumption.
Qed.

Lemma rewrite_product_key now u s name lt z fba inb r :
  product_key (rewrite_product now u s name lt z fba inb r) = product_key r.
Proof.
  unfold rewrite_product. destruct (product_at u s r); reflexivity.
Qed.

Lemma rewrite_product_at now u s name lt z fba inb u' s' r :
  product_at u' s' (rewrite_product now u s name lt z fba inb r)
  = product_at u' s' r.
Proof.
  unfold rewrite_product. destruct (product_at u s r); reflexivity.
Qed.

(** ** One [upsert_product] *)

(** What the store holds after a statement that went through. *)
Lemma upsert_product_inv now cur u s name lt z fba inb cur' :
  upsert_product now cur u s name lt z fba inb = Ok cur' ->
  forallb int64 [u; lt; fba; inb] = true
  /\ is_nan z = false
  /\ products cur'
     = (if existsb (product_at u s) (products cur)
        then map (rewrite_product now u s name lt z fba inb) (products cur)
        else products cur
             ++ [Product.mk (products_seq cur + 1) u s name lt
                   (real_column z) fba inb now])
  /\ products_seq cur' = (products_seq cur + 1)%Z
  /\ monthly_sales cur' = monthly_sales cur
  /\ monthly_sales_seq cur' = monthly_sales_seq cur.
Proof.
  unfold upsert_product.
  destruct (forallb int64 [u; lt; fba; inb]); [|discriminate].
  destruct (is_nan z); [discriminate|]. cbn [negb].
  destruct (existsb (product_at u s) (products cur));
    intro E; injection E as <-; repeat split; reflexivity.
Qed.

(** The statement goes through when its integers fit in 64 bits and z
    is a number. *)
Lemma upsert_product_returns now cur u s name lt z fba inb :
  forallb int64 [u; lt; fba; inb] = true -> is_nan z = false ->
  exists cur', upsert_product now cur u s name lt z fba inb = Ok cur'.
Proof.
  intros Hb Hz. unfold upsert_product. rewrite Hb, Hz. cbn [negb].
  destruct (existsb (product_at u s) (products cur)); eexists; reflexivity.
Qed.

(** It raises otherwise: [OverflowError] first, then [IntegrityError]. *)
Lemma upsert_product_raises now cur u s name lt z fba inb :
  (forallb int64 [u; lt; fba; inb] = false ->
   upsert_product now cur u s name lt z fba inb = Raise OverflowError)
  /\ (forallb int64 [u; lt; fba; inb] = true -> is_nan z = true ->
      upsert_product now cur u s name lt z fba inb = Raise IntegrityError).
Proof.
  unfold upsert_product. split.
  - intros ->. reflexivity.
  - intros -> ->. reflexivity.
Qed.

Lemma upsert_product_present now cur u s name lt z fba inb cur' :
  upsert_product now cur u s name lt z fba inb = Ok cur' ->
  existsb (product_at u s) (products cur') = true.
Proof.
  intro E. apply upsert_product_inv in E as [_ [_ [-> _]]].
  destruct (existsb (product_at u s) (products cur)) eqn:Hex.
  - apply existsb_exists. apply existsb_exists in Hex as [r [Hin Hp]].
    exists (rewrite_product now u s name lt z fba inb r). split.
    + apply in_map. exact Hin.
    + rewrite rewrite_product_at. exact Hp.
  - rewrite existsb_app. simpl. unfold product_at at 2. simpl.
    rewrite Z.eqb_refl, str_eqb_refl. simpl. apply orb_true_r.
Qed.

(** Every [upsert_product] keeps the pair unique. *)
Lemma upsert_product_unique now cur u s name lt z fba inb cur' :
  products_unique cur ->
  upsert_product now cur u s name lt z fba inb = Ok cur' ->
  products_unique cur'.
Proof.
  unfold products_unique. intros Hnd E.
  apply upsert_product_inv in E as [_ [_ [-> _]]].
  destruct (existsb (product_at u s) (products cur)) eqn:Hex.
  - rewrite map_map.
    erewrite map_ext; [exact Hnd|].
    intro r. apply rewrite_product_key.
  - rewrite map_app. simpl.
    apply NoDup_app; [exact Hnd|repeat constructor; intros []|].
    intros k Hin [Hk|[]]. subst k.
    apply existsb_product_at_In in Hin. unfold product_key in Hin.
    simpl in Hin. congruence.
Qed.

Lemma map_rewrite_product_id now u s name lt z fba inb (l : list Product.row) :
  map Product.id (map (rewrite_product now u s name lt z fba inb) l)
  = map Product.id l.
Proof.
  rewrite map_map. apply map_ext. intro r.
  unfold rewrite_product. destruct (product_at u s r); reflexivity.
Qed.

(** A REAL column gives back what was written, a negative zero apart. *)
Lemma real_column_same (z : float) : z <> neg_zero -> real_column z = z.
Proof.
  intro H. unfold real_column.
  destruct (PrimFloat.Leibniz.eqb z neg_zero) eqn:E; [|reflexivity].
  apply FloatAxioms.Leibniz.eqb_spec in E. contradiction.
Qed.

(** C7, as stated, fails: a lead time of 2^63, or a z that is NaN, is an
    argument tuple the function accepts and the statement refuses; the
    call raises and no row is written. *)
Lemma upsert_product_refused :
  upsert_product 1 init_db 1 (lit "A1") (lit "Lamp") (2 ^ 63)
    (165 / 100)%float 50 0
  = Raise OverflowError
  /\ upsert_product 1 init_db 1 (lit "A1") (lit "Lamp") 7 nan 50 0
     = Raise IntegrityError.
Proof. split; reflexivity. Qed.

(** C7, amended.  For arguments the statement can store (user id, lead
    time and stock levels within 64 bits, z not NaN), on a [products]
    table whose (user, sku) pairs are unique: both calls go through; the
    second [upsert_product] for the pair adds no row and keeps every row
    id, it rewrites the row in place.  After the two calls (with the same
    or with different values) the pair is still unique, exactly one row is
    stored for it, [fetch_product] returns that row, and its fields are
    the arguments of the last call (z as the REAL column gives it back: a
    negative zero reads as 0.0). *)
Theorem upsert_product_twice_one_row
  (now1 now2 : Z) (cur : db) (user_id : Z) (sku : str)
  (name1 : str) (lt1 : Z) (z1 : float) (fba1 inb1 : Z)
  (name2 : str) (lt2 : Z) (z2 : float) (fba2 inb2 : Z) :
  products_unique cur ->
  forallb int64 [user_id; lt1; fba1; inb1] = true -> is_nan z1 = false ->
  forallb int64 [user_id; lt2; fba2; inb2] = true -> is_nan z2 = false ->
  exists cur1 cur2,
    upsert_product now1 cur user_id sku name1 lt1 z1 fba1 inb1 = Ok cur1
    /\ upsert_product now2 cur1 user_id sku name2 lt2 z2 fba2 inb2 = Ok cur2
    /\ products_unique cur2
    /\ List.length (products cur2) = List.length (products cur1)
    /\ map Product.id (products cur2) = map Product.id (products cur1)
    /\ exists r,
         rows_at user_id sku cur2 = [r]
         /\ fetch_product cur2 user_id sku = Some r
         /\ Product.user_id r = user_id /\ Product.sku r = sku
         /\ Product.name r = name2 /\ Product.lead_time_days r = lt2
         /\ Product.z_value r = real_column z2
         /\ (z2 <> neg_zero -> Product.z_value r = z2)
         /\ Product.fba_stock r = fba2 /\ Product.inbound_stock r = inb2.
Proof.
  intros Hu Hb1 Hz1 Hb2 Hz2.
  destruct (upsert_product_returns now1 cur user_id sku name1 lt1 z1
              fba1 inb1 Hb1 Hz1) as [cur1 E1].
  destruct (upsert_product_returns now2 cur1 user_id sku name2 lt2 z2
              fba2 inb2 Hb2 Hz2) as [cur2 E2].
  exists cur1, cur2. split; [exact E1|]. split; [exact E2|].
  assert (Hu1 : products_unique cur1)
    by (eapply upsert_product_unique; eassumption).
  assert (Hin1 : existsb (product_at user_id sku) (products cur1) = true)
    by (eapply upsert_product_present; eassumption).
  assert (Hu2 : products_unique cur2)
    by (eapply upsert_product_unique; eassumption).
  apply upsert_product_inv in E2 as [_ [_ [P2 _]]]. rewrite Hin1 in P2.
  destruct (unique_filter_single user_id sku (products cur1) Hu1 Hin1)
    as [r0 Hr0].
  assert (Hk : product_at user_id sku r0 = true).
  { assert (Hin : In r0 (filter (product_at user_id sku) (products cur1)))
      by (rewrite Hr0; left; reflexivity).
    apply filter_In in Hin. tauto. }
  assert (Hrows : rows_at user_id sku cur2
                  = [rewrite_product now2 user_id sku name2 lt2 z2
                       fba2 inb2 r0]).
  { unfold rows_at. rewrite P2.
    rewrite filter_map_commute by (intro x; apply rewrite_product_at).
    rewrite Hr0. reflexivity. }
  split; [exact Hu2|].
  split; [rewrite P2; apply length_map|].
  split; [rewrite P2; apply map_rewrite_product_id|].
  exists (rewrite_product now2 user_id sku name2 lt2 z2 fba2 inb2 r0).
  split; [exact Hrows|].
  split.
  - unfold fetch_product. rewrite find_hd_filter.
    unfold rows_at in Hrows. rewrite Hrows. reflexivity.
  - unfold rewrite_product. rewrite Hk. simpl.
    apply product_at_key in Hk. injection Hk as Hku Hks.
    repeat split; try assumption; try reflexivity.
    apply real_column_same.
Qed.

(** C7, on the empty store, for SKU "A1" of user 1, written twice. *)
Lemma upsert_product_twice_one_row_witness :
  products_unique init_db
  /\ exists cur1 cur2,
       upsert_product 1 init_db 1 (lit "A1") (lit "Lamp") 7 (165 / 100)%float
         50 0 = Ok cur1
       /\ upsert_product 2 cur1 1 (lit "A1") (lit "Lamp") 7 (165 / 100)%float
            50 0 = Ok cur2
       /\ products_unique cur2
       /\ List.length (products cur2) = List.length (products cur1).
Proof.
  assert (Hu : products_unique init_db) by constructor.
  split; [exact Hu|].
  destruct (@upsert_product_twice_one_row 1 2 init_db 1 (lit "A1")
              (lit "Lamp") 7 (165 / 100)%float 50 0
              (lit "Lamp") 7 (165 / 100)%float 50 0
              Hu eq_refl eq_refl eq_refl eq_refl)
    as [cur1 [cur2 [E1 [E2 [Hu2 [Hlen _]]]]]].
  exists cur1, cur2. repeat split; assumption.
Defined.

(** Twice the same product, then another one: the counter has moved with
    every statement, the second row gets id 3. *)
Example upsert_product_counter :
  (cur1 <- upsert_product 1 init_db 1 (lit "A1") (lit "Lamp") 7 2%float 50 0 ;;
   cur2 <- upsert_product 2 cur1 1 (lit "A1") (lit "Lamp") 7 2%float 50 0 ;;
   upsert_product 3 cur2 1 (lit "B2") (lit "Desk") 9 2%float 0 0)
  = Ok (mk_db
          [Product.mk 1 1 (lit "A1") (lit "Lamp") 7 2%float 50 0 2;
           Product.mk 3 1 (lit "B2") (lit "Desk") 9 2%float 0 0 3]
          3 [] 0).
Proof. reflexivity. Qed.

(** ** The batch of monthly sales *)

Lemma zip3_length (a b c : list Z) :
  List.length (zip3 a b c) = min_len a b c.
Proof.
  unfold min_len. revert b c.
  induction a as [|x a IH]; intros [|y b] [|z c]; simpl;
    rewrite ?IH; lia.
Qed.

Lemma zip3_firstn (k : nat) (a b c : list Z) :
  zip3 (firstn k a) (firstn k b) (firstn k c) = firstn k (zip3 a b c).
Proof.
  revert a b c. induction k as [|k IH]; intros a b c; [reflexivity|].
  destruct a as [|x a]; [reflexivity|].
  destruct b as [|y b]; [reflexivity|].
  destruct c as [|z c]; simpl; [reflexivity|].
  rewrite IH. reflexivity.
Qed.

Lemma find_map_stable (A : Type) (p : A -> bool) (f : A -> A) (l : list A) :
  (forall x, p (f x) = p x) ->
  find p (map f l) = option_map f (find p l).
Proof.
  intro Hp. induction l as [|x l IH]; simpl; [reflexivity|].
  rewrite Hp. destruct (p x); [reflexivity|exact IH].
Qed.

Lemma find_snoc (A : Type) (p : A -> bool) (l : list A) (x : A) :
  find p (l ++ [x])
  = match find p l with
    | Some r => Some r
    | None => if p x then Some x else None
    end.
Proof.
  induction l as [|y l IH]; simpl; [reflexivity|].
  destruct (p y); [reflexivity|exact IH].
Qed.

Lemma find_none_existsb (A : Type) (p : A -> bool) (l : list A) :
  existsb p l = false -> find p l = None.
Proof.
  induction l as [|x l IH]; simpl; [reflexivity|].
  destruct (p x); simpl; [discriminate|exact IH].
Qed.

Lemma find_some_existsb (A : Type) (p : A -> bool) (l : list A) :
  existsb p l = true -> exists r, find p l = Some r /\ p r = true.
Proof.
  induction l as [|x l IH]; simpl; [discriminate|].
  destruct (p x) eqn:E; simpl.
  - intros _. exists x. split; [reflexivity|exact E].
  - exact IH.
Qed.

Lemma rewrite_sale_at now u s y m v u' s' y' m' r :
  sale_at u' s' y' m' (rewrite_sale now u s y m v r) = sale_at u' s' y' m' r.
Proof.
  unfold rewrite_sale. destruct (sale_at u s y m r); reflexivity.
Qed.

Lemma sale_at_same_fact u s y m y' m' r :
  sale_at u s y m r = true -> sale_at u s y' m' r = true ->
  ((y =? y') && (m =? m'))%Z = true.
Proof.
  unfold sale_at. rewrite !andb_true_iff, !Z.eqb_eq.
  intros [[_ Hy] Hm] [[_ Hy'] Hm']. split; congruence.
Qed.

(** What the store holds after a statement of the batch that went
    through. *)
Lemma execute_upsert_sale_inv now cur u s y m v cur' :
  execute_upsert_sale now cur u s y m v = Ok cur' ->
  triple_error u (y, m, v) = None
  /\ products cur' = products cur
  /\ products_seq cur' = products_seq cur
  /\ monthly_sales cur'
     = (if existsb (sale_at u s y m) (monthly_sales cur)
        then map (rewrite_sale now u s y m v) (monthly_sales cur)
        else monthly_sales cur
             ++ [Sale.mk (monthly_sales_seq cur + 1) u s y m v now])
  /\ monthly_sales_seq cur' = (monthly_sales_seq cur + 1)%Z.
Proof.
  unfold execute_upsert_sale, triple_error.
  destruct (forallb int64 [u; y; m; v]); [|discriminate].
  destruct (sale_checks m v); [|discriminate]. cbn [negb].
  destruct (existsb (sale_at u s y m) (monthly_sales cur));
    intro E; injection E as <-; repeat split; reflexivity.
Qed.

Lemma execute_upsert_sale_returns now cur u s y m v :
  triple_error u (y, m, v) = None ->
  exists cur', execute_upsert_sale now cur u s y m v = Ok cur'.
Proof.
  unfold execute_upsert_sale, triple_error.
  destruct (forallb int64 [u; y; m; v]); [|discriminate].
  destruct (sale_checks m v); [|discriminate]. cbn [negb]. intros _.
  destruct (existsb (sale_at u s y m) (monthly_sales cur));
    eexists; reflexivity.
Qed.

Lemma execute_upsert_sale_raises now cur u s y m v e :
  triple_error u (y, m, v) = Some e ->
  execute_upsert_sale now cur u s y m v = Raise e.
Proof.
  unfold execute_upsert_sale, triple_error.
  destruct (forallb int64 [u; y; m; v]); cbn [negb];
    [|intro E; injection E as <-; reflexivity].
  destruct (sale_checks m v); cbn [negb]; [discriminate|].
  intro E. injection E as <-. reflexivity.
Qed.

(** One upsert statement: the addressed month then holds the new units;
    every other month of the SKU reads as before. *)
Lemma execute_upsert_sale_reads now cur u s y m v :
  triple_error u (y, m, v) = None ->
  exists cur',
    execute_upsert_sale now cur u s y m v = Ok cur'
    /\ products cur' = products cur
    /\ forall y' m',
         fetch_month_units cur' u s y' m'
         = if ((y =? y') && (m =? m'))%Z then Some v
           else fetch_month_units cur u s y' m'.
Proof.
  intro Hc.
  destruct (execute_upsert_sale_returns now cur u s y m v Hc) as [cur' E].
  exists cur'. split; [exact E|].
  apply execute_upsert_sale_inv in E as [_ [P [_ [S _]]]].
  split; [exact P|].
  intros y' m'. unfold fetch_month_units. rewrite S.
  destruct (existsb (sale_at u s y m) (monthly_sales cur)) eqn:Hex.
  - rewrite find_map_stable by (intro x; apply rewrite_sale_at).
    destruct (find (sale_at u s y' m') (monthly_sales cur)) as [r|] eqn:Hf;
      simpl.
    + apply find_some in Hf as [_ Hr].
      unfold rewrite_sale.
      destruct (sale_at u s y m r) eqn:Hr'; simpl.
      * rewrite (sale_at_same_fact _ _ _ _ _ _ _ Hr' Hr). reflexivity.
      * destruct ((y =? y') && (m =? m'))%Z eqn:E; [|reflexivity].
        apply andb_true_iff in E as [Ey Em].
        apply Z.eqb_eq in Ey, Em. subst. congruence.
    + destruct ((y =? y') && (m =? m'))%Z eqn:E; [|reflexivity].
      apply andb_true_iff in E as [Ey Em].
      apply Z.eqb_eq in Ey, Em. subst.
      apply find_some_existsb in Hex as [r [Hr _]]. congruence.
  - rewrite find_snoc.
    destruct (find (sale_at u s y' m') (monthly_sales cur)) as [r|] eqn:Hf.
    + apply find_some in Hf as [Hin Hr].
      destruct ((y =? y') && (m =? m'))%Z eqn:E; [|reflexivity].
      apply andb_true_iff in E as [Ey Em].
      apply Z.eqb_eq in Ey, Em. subst.
      assert (existsb (sale_at u s y' m') (monthly_sales cur) = true)
        by (apply existsb_exists; exists r; tauto).
      congruence.
    + unfold sale_at at 1, sale_of. simpl.
      rewrite Z.eqb_refl, str_eqb_refl. simpl.
      destruct ((y =? y') && (m =? m'))%Z; reflexivity.
Qed.

Lemma upsert_sales_loop_valid now u s (triples : list (Z * Z * Z)) :
  forall cur,
  first_error u triples = None ->
  exists cur',
    upsert_sales_loop now cur u s triples = Ok cur'
    /\ products cur' = products cur
    /\ forall y m,
         fetch_month_units cur' u s y m
         = match paired_units y m triples with
           | Some v => Some v
           | None => fetch_month_units cur u s y m
           end.
Proof.
  induction triples as [|[[y0 m0] v0] rest IH]; intros cur Hv.
  - exists cur. repeat split; reflexivity.
  - cbn [first_error] in Hv.
    destruct (triple_error u (y0, m0, v0)) eqn:Hc; [discriminate|].
    destruct (execute_upsert_sale_reads now cur u s y0 m0 v0 Hc)
      as [cur1 [E1 [P1 F1]]].
    destruct (IH cur1 Hv) as [cur2 [E2 [P2 F2]]].
    exists cur2. split.
    { cbn [upsert_sales_loop]. rewrite E1. exact E2. }
    split; [congruence|].
    intros y m. rewrite F2, F1. cbn [paired_units].
    destruct (paired_units y m rest); [reflexivity|].
    destruct ((y0 =? y) && (m0 =? m))%Z; reflexivity.
Qed.

Lemma upsert_sales_loop_invalid now u s (triples : list (Z * Z * Z)) :
  forall cur e,
  first_error u triples = Some e ->
  upsert_sales_loop now cur u s triples = Raise e.
Proof.
  induction triples as [|[[y0 m0] v0] rest IH]; intros cur e Hv.
  - discriminate.
  - cbn [first_error] in Hv. cbn [upsert_sales_loop].
    destruct (triple_error u (y0, m0, v0)) as [e0|] eqn:Hc.
    + injection Hv as <-.
      rewrite (execute_upsert_sale_raises now cur u s y0 m0 v0 Hc).
      reflexivity.
    + destruct (execute_upsert_sale_returns now cur u s y0 m0 v0 Hc)
        as [cur1 E1].
      rewrite E1. apply IH. exact Hv.
Qed.

(** C10, as stated, fails: a paired month outside 1..12 makes the call
    raise on the CHECK constraint, so none of the min(1, 1, 1) = 1 paired
    facts is written. *)
Lemma upsert_monthly_sales_check_raises :
  min_len [2024]%Z [13]%Z [5]%Z = 1%nat
  /\ upsert_monthly_sales 0 init_db 1 (lit "A1") [2024]%Z [13]%Z [5]%Z
     = Raise IntegrityError.
Proof. split; reflexivity. Qed.

(** A paired year of 2^63 does not fit a 64-bit INTEGER: the call raises
    [OverflowError], and it does so before the CHECK on the month is
    reached. *)
Example upsert_monthly_sales_overflow :
  upsert_monthly_sales 0 init_db 1 (lit "A1") [2 ^ 63]%Z [13]%Z [5]%Z
  = Raise OverflowError.
Proof. reflexivity. Qed.

(** Three years, two months and one unit count: one fact is written. *)
Example upsert_monthly_sales_surplus :
  upsert_monthly_sales 5 init_db 1 (lit "A1")
    [2024; 2024; 2023]%Z [1; 2]%Z [5]%Z
  = Ok (mk_db [] 0 [Sale.mk 1 1 (lit "A1") 2024 1 5 5] 1).
Proof. reflexivity. Qed.

(** Two triples for the same month: one row, with the later units; the
    counter has moved twice. *)
Example upsert_monthly_sales_same_month :
  upsert_monthly_sales 5 init_db 1 (lit "A1") [2024; 2024]%Z [1; 1]%Z [5; 6]%Z
  = Ok (mk_db [] 0 [Sale.mk 1 1 (lit "A1") 2024 1 6 5] 2).
Proof. reflexivity. Qed.

(** C10, amended.  [upsert_monthly_sales] pairs its three lists by
    position: the loop runs over min(len years, len months, len units)
    triples and the call behaves exactly as on the lists cut to that
    length, so surplus entries are neither written nor rejected.  When
    every paired entry is accepted (the user id and the three values fit
    in 64 bits and the CHECK constraints pass) the call succeeds, leaves
    the products alone, and each month then reads the units of the last
    triple that names it (an unnamed month reads as before); otherwise the
    call raises what the first refused triple raises: [OverflowError] for
    an int outside 64 bits, else [IntegrityError] for a failed CHECK. *)
Theorem upsert_monthly_sales_pairs_by_position
  (now : Z) (cur : db) (user_id : Z) (sku : str)
  (years months units_sold : list Z) :
  List.length (zip3 years months units_sold) = min_len years months units_sold
  /\ upsert_monthly_sales now cur user_id sku years months units_sold
     = upsert_monthly_sales now cur user_id sku
         (firstn (min_len years months units_sold) years)
         (firstn (min_len years months units_sold) months)
         (firstn (min_len years months units_sold) units_sold)
  /\ (first_error user_id (zip3 years months units_sold) = None ->
      exists cur',
        upsert_monthly_sales now cur user_id sku years months units_sold
        = Ok cur'
        /\ products cur' = products cur
        /\ forall y m,
             fetch_month_units cur' user_id sku y m
             = match paired_units y m (zip3 years months units_sold) with
               | Some v => Some v
               | None => fetch_month_units cur user_id sku y m
               end)
  /\ (forall e,
      first_error user_id (zip3 years months units_sold) = Some e ->
      upsert_monthly_sales now cur user_id sku years months units_sold
      = Raise e)
  /\ (forall e,
      first_error user_id (zip3 years months units_sold) = Some e ->
      e = OverflowError \/ e = IntegrityError).
Proof.
  split; [apply zip3_length|].
  split.
  - unfold upsert_monthly_sales.
    rewrite zip3_firstn, <- zip3_length, firstn_all. reflexivity.
  - split; [|split].
    + intro Hv. unfold upsert_monthly_sales.
      apply upsert_sales_loop_valid. exact Hv.
    + intros e Hv. unfold upsert_monthly_sales.
      apply upsert_sales_loop_invalid. exact Hv.
    + intros e. induction (zip3 years months units_sold) as [|[[y m] v] rest IH].
      * discriminate.
      * cbn [first_error]. unfold triple_error at 1.
        destruct (forallb int64 [user_id; y; m; v]); cbn [negb].
        -- destruct (sale_checks m v); cbn [negb]; [exact IH|].
           intro E. injection E as <-. right. reflexivity.
        -- intro E. injection E as <-. left. reflexivity.
Qed.

End StoreFacts.

(* ================================================================== *)
(** * Properties of the aggregation *)

Section PlannerFacts.

Import Store Metrics Planner Schema.

(** The units of a window, month by month: a month with a row gives its
    units, a month without one gives nothing. *)
Lemma gather_units_flat_map cur u s (window : list (Z * Z)) :
  gather_units cur u s window
  = flat_map (fun ym =>
                match fetch_month_units cur u s (fst ym) (snd ym) with
                | Some v => [v]
                | None => []
                end) window.
Proof.
  induction window as [|[y m] rest IH]; simpl; [reflexivity|].
  destruct (fetch_month_units cur u s y m); simpl; rewrite IH; reflexivity.
Qed.

Lemma gather_units_length cur u s (window : list (Z * Z)) :
  (List.length (gather_units cur u s window) <= List.length window)%nat.
Proof.
  induction window as [|[y m] rest IH]; simpl; [lia|].
  destruct (fetch_month_units cur u s y m); simpl; lia.
Qed.

(** The three-month window: this month and the two before it on the
    time line, each a month of the calendar. *)
Lemma last_3_calendar_months (y m : Z) :
  (1 <= m <= 12)%Z ->
  exists w1 w2,
    last_n_calendar_months (y, m) 3 = [(y, m); w1; w2]
    /\ month_index w1 = (month_index (y, m) - 1)%Z
    /\ month_index w2 = (month_index (y, m) - 2)%Z
    /\ (1 <= snd w1 <= 12)%Z /\ (1 <= snd w2 <= 12)%Z.
Proof.
  intro Hm. unfold last_n_calendar_months, month_index.
  cbn [months_back fst snd].
  destruct (Z.eqb_spec (m - 1) 0) as [E1|E1].
  - exists (y - 1, 12)%Z, (y - 1, 11)%Z. cbn [fst snd].
    split; [reflexivity|]. lia.
  - destruct (Z.eqb_spec (m - 1 - 1) 0) as [E2|E2].
    + exists (y, m - 1)%Z, (y - 1, 12)%Z. cbn [fst snd].
      split; [reflexivity|]. lia.
    + exists (y, m - 1)%Z, (y, m - 1 - 1)%Z. cbn [fst snd].
      split; [destruct (m - 1 - 1 - 1 =? 0)%Z; reflexivity|]. lia.
Qed.

(** ** The lookups, in terms of the rows of the tables *)

Lemma sale_at_sale_key (u : Z) (s : str) (y m : Z) (r : Sale.row) :
  sale_at u s y m r = true <-> sale_key r = (u, s, y, m).
Proof.
  unfold sale_at, sale_of, sale_key.
  rewrite !andb_true_iff, !Z.eqb_eq, str_eqb_eq. split.
  - intros [[[-> ->] ->] ->]. reflexivity.
  - intro E. injection E as -> -> -> ->. repeat split; reflexivity.
Qed.

(** Under a unique key two rows of a table with the same key are one
    row. *)
Lemma same_key_same_row (A K : Type) (key : A -> K) (rows : list A) (a b : A) :
  NoDup (map key rows) -> In a rows -> In b rows -> key a = key b -> a = b.
Proof.
  induction rows as [|r rows IH]; intros Hnd Ha Hb Hk; [destruct Ha|].
  simpl in Hnd. apply NoDup_cons_iff in Hnd as [Hfresh Hrest].
  destruct Ha as [->|Ha], Hb as [->|Hb].
  - reflexivity.
  - exfalso. apply Hfresh. rewrite Hk. apply in_map. exact Hb.
  - exfalso. apply Hfresh. rewrite <- Hk. apply in_map. exact Ha.
  - apply IH; assumption.
Qed.

(** [fetch_product] finds nothing exactly when no row of [products] has
    the pair, and finds the row that has it. *)
Lemma fetch_product_none (cur : db) (u : Z) (s : str) :
  (forall r, In r (products cur) -> product_key r <> (u, s)) ->
  fetch_product cur u s = None.
Proof.
  intro H. unfold fetch_product.
  destruct (find (product_at u s) (products cur)) as [r|] eqn:Hf;
    [|reflexivity].
  apply find_some in Hf as [Hin Hp]. apply product_at_key in Hp.
  exfalso. exact (H r Hin Hp).
Qed.

Lemma fetch_product_row (cur : db) (u : Z) (s : str) (prod : Product.row) :
  products_unique cur ->
  In prod (products cur) -> product_key prod = (u, s) ->
  fetch_product cur u s = Some prod.
Proof.
  intros Hu Hin Hk. unfold fetch_product.
  destruct (find (product_at u s) (products cur)) as [r|] eqn:Hf.
  - apply find_some in Hf as [Hin' Hp]. apply product_at_key in Hp.
    f_equal. apply (same_key_same_row product_key (products cur)); try assumption.
    unfold product_key at 1. congruence.
  - exfalso. apply (find_none _ _ Hf) in Hin.
    apply product_at_key in Hk. congruence.
Qed.

(** [gather_units] collects what the table holds for the window. *)
Lemma gather_units_window (cur : db) (u : Z) (s : str)
  (window : list (Z * Z)) :
  window_units cur u s window (gather_units cur u s window).
Proof.
  induction window as [|[y m] rest IH]; [constructor|].
  cbn [gather_units]. unfold fetch_month_units.
  destruct (find (sale_at u s y m) (monthly_sales cur)) as [r|] eqn:Hf.
  - apply find_some in Hf as [Hin Hp]. apply sale_at_sale_key in Hp.
    apply window_units_fact; assumption.
  - apply window_units_none; [|exact IH].
    intros r Hin Hk. apply (find_none _ _ Hf) in Hin.
    apply sale_at_sale_key in Hk. congruence.
Qed.

(** With at most one fact per month the table determines the units. *)
Lemma window_units_functional (cur : db) (u : Z) (s : str)
  (window : list (Z * Z)) (units units' : list Z) :
  sales_unique cur ->
  window_units cur u s window units ->
  window_units cur u s window units' ->
  units' = units.
Proof.
  intros Hu H. revert units'.
  induction H as [|y m rest units r Hin Hk _ IH|y m rest units Hno _ IH];
    intros units' H'.
  - inversion H'. reflexivity.
  - inversion H' as [|y' m' rest' us r' Hin' Hk' Hrest|y' m' rest' us Hno' Hrest];
      subst.
    + f_equal; [|apply IH; exact Hrest].
      f_equal. apply (same_key_same_row sale_key (monthly_sales cur));
        try assumption. congruence.
    + exfalso. exact (Hno' r Hin Hk).
  - inversion H' as [|y' m' rest' us r' Hin' Hk' Hrest|y' m' rest' us Hno' Hrest];
      subst.
    + exfalso. exact (Hno r' Hin' Hk').
    + apply IH. exact Hrest.
Qed.

(** C3.  On a store whose tables keep their UNIQUE constraints,
    [compute_for_sku] returns none when no row of [products] has the pair
    (user, sku).  When a row [prod] has it, the window is the current
    month followed by the two calendar months before it (month numbers
    stay within 1..12, so January is followed by December of the year
    before); the units are what [monthly_sales] holds for the window: the
    units of the fact of (user, sku, year, month) for each month that has
    one, in window order, and nothing for a month that has none (so at
    most 3 values, which the table determines); and the call feeds the
    engine these units with the lead time, z and stock levels of [prod],
    returning the row, the window, the units and the engine's metrics. *)
Theorem compute_for_sku_window
  (today : Z * Z) (cur : db) (user_id : Z) (sku : str) :
  (1 <= snd today <= 12)%Z ->
  products_unique cur -> sales_unique cur ->
  ((forall r, In r (products cur) -> product_key r <> (user_id, sku)) ->
   compute_for_sku today cur user_id sku = Ok None)
  /\ (forall prod,
       In prod (products cur) -> product_key prod = (user_id, sku) ->
       exists w1 w2 units,
         last_n_calendar_months today 3 = [today; w1; w2]
         /\ month_index w1 = (month_index today - 1)%Z
         /\ month_index w2 = (month_index today - 2)%Z
         /\ (1 <= snd w1 <= 12)%Z /\ (1 <= snd w2 <= 12)%Z
         /\ window_units cur user_id sku [today; w1; w2] units
         /\ (forall units',
               window_units cur user_id sku [today; w1; w2] units' ->
               units' = units)
         /\ (List.length units <= 3)%nat
         /\ compute_for_sku today cur user_id sku
            = (res <- compute_from_last_months
                        (Product.lead_time_days prod) (Product.z_value prod)
                        units
                        (Product.fba_stock prod) (Product.inbound_stock prod) ;;
               Ok (Some (prod, [today; w1; w2], units, res)))).
Proof.
  intros Hm Hpu Hsu. split.
  - intro Hnone. unfold compute_for_sku.
    rewrite (@fetch_product_none cur user_id sku Hnone). reflexivity.
  - intros prod Hin Hkey. destruct today as [y m]. simpl in Hm.
    destruct (last_3_calendar_months y Hm) as [w1 [w2 [Hw [I1 [I2 [B1 B2]]]]]].
    set (units := gather_units cur user_id sku [(y, m); w1; w2]).
    assert (Hunits : window_units cur user_id sku [(y, m); w1; w2] units)
      by apply gather_units_window.
    exists w1, w2, units.
    split; [exact Hw|]. split; [exact I1|]. split; [exact I2|].
    split; [exact B1|]. split; [exact B2|].
    split; [exact Hunits|].
    split.
    { intros units' H'. eapply window_units_functional; eassumption. }
    split; [apply (gather_units_length cur user_id sku [(y, m); w1; w2])|].
    unfold compute_for_sku.
    rewrite (@fetch_product_row cur user_id sku prod Hpu Hin Hkey), Hw. reflexivity.
Qed.

(** In January 2024 user 1 has a fact for December 2023 only: the engine
    is fed that single value, not a zero for each missing month. *)
Example compute_for_sku_omits_missing_months :
  compute_for_sku (2024, 1)%Z Sample.store 1 (lit "A1")
  = Ok (Some (Product.mk 1 1 (lit "A1") (lit "Lamp") 7 (165 / 100)%float
                50 0 10,
              [(2024, 1); (2023, 12); (2023, 11)]%Z, [120%Z],
              mk_metrics 4 0 0 28 190)).
Proof. vm_compute. reflexivity. Qed.

(** C3, in January 2024 on the sample store, for the product of user 1:
    of the three months only December 2023 has a fact. *)
Lemma compute_for_sku_window_witness :
  (1 <= snd (2024, 1) <= 12)%Z
  /\ products_unique Sample.store /\ sales_unique Sample.store
  /\ In (Product.mk 1 1 (lit "A1") (lit "Lamp") 7 (165 / 100)%float 50 0 10)
       (products Sample.store)
  /\ window_units Sample.store 1 (lit "A1")
       [(2024, 1); (2023, 12); (2023, 11)]%Z [120%Z]
  /\ exists w1 w2 units,
       last_n_calendar_months (2024, 1)%Z 3 = [(2024, 1)%Z; w1; w2]
       /\ units = [120%Z]
       /\ compute_for_sku (2024, 1)%Z Sample.store 1 (lit "A1")
          = (res <- compute_from_last_months 7 (165 / 100)%float units 50 0 ;;
             Ok (Some (Product.mk 1 1 (lit "A1") (lit "Lamp") 7
                         (165 / 100)%float 50 0 10,
                       [(2024, 1)%Z; w1; w2], units, res))).
Proof.
  assert (Hm : (1 <= snd (2024, 1) <= 12)%Z) by (simpl; lia).
  assert (Hpu : products_unique Sample.store).
  { unfold products_unique. simpl.
    repeat constructor; simpl; intuition discriminate. }
  assert (Hsu : sales_unique Sample.store).
  { unfold sales_unique. simpl.
    repeat constructor; simpl; intuition discriminate. }
  assert (Hin : In (Product.mk 1 1 (lit "A1") (lit "Lamp") 7
                      (165 / 100)%float 50 0 10) (products Sample.store))
    by (left; reflexivity).
  assert (Hwin : window_units Sample.store 1 (lit "A1")
                   [(2024, 1); (2023, 12); (2023, 11)]%Z [120%Z]).
  { apply window_units_none.
    { intros r [<-|[<-|[]]]; discriminate. }
    apply (@window_units_fact Sample.store 1 (lit "A1") 2023 12 _ _
             (Sale.mk 1 1 (lit "A1") 2023 12 120 10)).
    { left. reflexivity. }
    { reflexivity. }
    apply window_units_none.
    { intros r [<-|[<-|[]]]; discriminate. }
    constructor. }
  split; [exact Hm|]. split; [exact Hpu|]. split; [exact Hsu|].
  split; [exact Hin|]. split; [exact Hwin|].
  destruct (proj2 (@compute_for_sku_window (2024, 1)%Z Sample.store 1
                     (lit "A1") Hm Hpu Hsu) _ Hin eq_refl)
    as [w1 [w2 [units [Hw [_ [_ [_ [_ [_ [Hdet [_ Hc]]]]]]]]]]].
  exists w1, w2, units.
  split; [exact Hw|]. split; [|exact Hc].
  symmetry. apply Hdet.
  assert (E : [(2024, 1)%Z; w1; w2] = [(2024, 1); (2023, 12); (2023, 11)]%Z)
    by (rewrite <- Hw; reflexivity).
  rewrite E. exact Hwin.
Defined.

End PlannerFacts.

(* ================================================================== *)
(** * Isolation between users *)

Section IsolationFacts.

Import Store Metrics Planner Requests.

Lemma rewrite_product_other now u s name lt z fba inb u' r :
  u <> u' -> (Product.user_id r =? u')%Z = true ->
  rewrite_product now u s name lt z fba inb r = r.
Proof.
  intros Hne Hu. unfold rewrite_product, product_at.
  apply Z.eqb_eq in Hu.
  destruct (Z.eqb_spec (Product.user_id r) u); [congruence|reflexivity].
Qed.

Lemma rewrite_product_user now u s name lt z fba inb r :
  Product.user_id (rewrite_product now u s name lt z fba inb r)
  = Product.user_id r.
Proof.
  unfold rewrite_product. destruct (product_at u s r); reflexivity.
Qed.

Lemma rewrite_sale_other now u s y m v u' r :
  u <> u' -> (Sale.user_id r =? u')%Z = true ->
  rewrite_sale now u s y m v r = r.
Proof.
  intros Hne Hu. unfold rewrite_sale, sale_at, sale_of.
  apply Z.eqb_eq in Hu.
  destruct (Z.eqb_spec (Sale.user_id r) u); [congruence|reflexivity].
Qed.

Lemma rewrite_sale_user now u s y m v r :
  Sale.user_id (rewrite_sale now u s y m v r) = Sale.user_id r.
Proof.
  unfold rewrite_sale. destruct (sale_at u s y m r); reflexivity.
Qed.

Lemma upsert_product_keeps_other now cur u s name lt z fba inb u' cur' :
  u <> u' ->
  upsert_product now cur u s name lt z fba inb = Ok cur' ->
  products_of u' cur' = products_of u' cur
  /\ sales_of u' cur' = sales_of u' cur.
Proof.
  intros Hne E.
  apply upsert_product_inv in E as [_ [_ [P [_ [S _]]]]].
  unfold products_of, sales_of. rewrite P, S.
  destruct (existsb (product_at u s) (products cur)); simpl.
  - split; [|reflexivity]. apply filter_map_stable.
    + intro r. rewrite rewrite_product_user. reflexivity.
    + intros r Hr. eapply rewrite_product_other; eassumption.
  - split; [|reflexivity]. apply filter_snoc_out. simpl.
    apply Z.eqb_neq. exact Hne.
Qed.

Lemma execute_upsert_sale_keeps_other now cur u s y m v u' cur' :
  u <> u' ->
  execute_upsert_sale now cur u s y m v = Ok cur' ->
  products_of u' cur' = products_of u' cur
  /\ sales_of u' cur' = sales_of u' cur.
Proof.
  intros Hne E.
  apply execute_upsert_sale_inv in E as [_ [P [_ [S _]]]].
  unfold products_of, sales_of. rewrite P, S.
  destruct (existsb (sale_at u s y m) (monthly_sales cur));
    simpl; (split; [reflexivity|]).
  - apply filter_map_stable.
    + intro r. rewrite rewrite_sale_user. reflexivity.
    + intros r Hr. eapply rewrite_sale_other; eassumption.
  - apply filter_snoc_out. simpl. apply Z.eqb_neq. exact Hne.
Qed.

Lemma upsert_sales_loop_keeps_other now u s u' (triples : list (Z * Z * Z)) :
  u <> u' ->
  forall cur cur',
  upsert_sales_loop now cur u s triples = Ok cur' ->
  products_of u' cur' = products_of u' cur
  /\ sales_of u' cur' = sales_of u' cur.
Proof.
  intro Hne. induction triples as [|[[y m] v] rest IH]; intros cur cur'.
  - simpl. intro E. injection E as <-. split; reflexivity.
  - cbn [upsert_sales_loop].
    destruct (execute_upsert_sale now cur u s y m v) as [cur1|e] eqn:E1;
      simpl; [|discriminate].
    intro E2.
    destruct (execute_upsert_sale_keeps_other _ _ _ _ _ _ Hne E1)
      as [P1 S1].
    destruct (IH _ _ E2) as [P2 S2].
    split; congruence.
Qed.

Lemma product_at_other u s u' r :
  u <> u' -> (Product.user_id r =? u')%Z = true -> product_at u s r = false.
Proof.
  intros Hne Hu. unfold product_at. apply Z.eqb_eq in Hu.
  destruct (Z.eqb_spec (Product.user_id r) u); [congruence|reflexivity].
Qed.

Lemma sale_of_other u s u' r :
  u <> u' -> (Sale.user_id r =? u')%Z = true -> sale_of u s r = false.
Proof.
  intros Hne Hu. unfold sale_of. apply Z.eqb_eq in Hu.
  destruct (Z.eqb_spec (Sale.user_id r) u); [congruence|reflexivity].
Qed.

(** A command run for one user leaves the rows of every other user as
    they are. *)
Lemma run_keeps_other now u u' c cur cur' :
  u <> u' ->
  run now u c cur = Ok cur' ->
  products_of u' cur' = products_of u' cur
  /\ sales_of u' cur' = sales_of u' cur.
Proof.
  intros Hne. destruct c as [s name lt z fba inb|s ys ms us|s|s y m]; simpl.
  - apply upsert_product_keeps_other. exact Hne.
  - apply upsert_sales_loop_keeps_other. exact Hne.
  - intro E. injection E as <-.
    unfold delete_product_and_sales, products_of, sales_of. simpl. split.
    + apply filter_filter_out. intros r Hr.
      eapply product_at_other; eassumption.
    + apply filter_filter_out. intros r Hr.
      eapply sale_of_other; eassumption.
  - intro E. injection E as <-.
    unfold delete_single_month_sale, products_of, sales_of. simpl.
    split; [reflexivity|].
    apply filter_filter_out. intros r Hr. unfold sale_at.
    erewrite sale_of_other by eassumption. reflexivity.
Qed.

Lemma execute_upsert_sale_products now cur u s y m v cur' :
  execute_upsert_sale now cur u s y m v = Ok cur' ->
  products cur' = products cur.
Proof.
  intro E. apply execute_upsert_sale_inv in E. tauto.
Qed.

Lemma upsert_sales_loop_products now u s (triples : list (Z * Z * Z)) :
  forall cur cur',
  upsert_sales_loop now cur u s triples = Ok cur' ->
  products cur' = products cur.
Proof.
  induction triples as [|[[y m] v] rest IH]; intros cur cur'.
  - simpl. intro E. injection E as <-. reflexivity.
  - cbn [upsert_sales_loop].
    destruct (execute_upsert_sale now cur u s y m v) as [cur1|e] eqn:E1;
      simpl; [|discriminate].
    intro E2. rewrite (IH _ _ E2).
    eapply execute_upsert_sale_products. exact E1.
Qed.

(** Deleting rows keeps the pairs of the remaining rows distinct. *)
Lemma product_keys_after_delete (keep : Product.row -> bool)
  (rows : list Product.row) :
  NoDup (map product_key rows) ->
  NoDup (map product_key (filter keep rows)).
Proof.
  intro Hnd. induction rows as [|r rows IH]; [constructor|].
  simpl in Hnd. apply NoDup_cons_iff in Hnd as [Hfresh Hrest].
  simpl. destruct (keep r); [|exact (IH Hrest)].
  simpl. apply NoDup_cons_iff. split; [|exact (IH Hrest)].
  rewrite in_map_iff. intros [r' [Hkey Hin']]. apply Hfresh.
  rewrite in_map_iff. exists r'. split; [exact Hkey|].
  apply filter_In in Hin'. tauto.
Qed.

(** The unique (user, sku) pair of [products] holds in every store the
    application can reach. *)
Lemma reachable_products_unique (cur : db) :
  reachable cur -> products_unique cur.
Proof.
  induction 1 as [|now u c cur cur' _ IH Hrun].
  - constructor.
  - destruct c as [s name lt z fba inb|s ys ms us|s|s y m]; simpl in Hrun.
    + eapply upsert_product_unique; eassumption.
    + unfold products_unique.
      rewrite (upsert_sales_loop_products _ _ _ _ _ Hrun). exact IH.
    + injection Hrun as <-. unfold products_unique. simpl.
      apply product_keys_after_delete. exact IH.
    + injection Hrun as <-. exact IH.
Qed.

Lemma fetch_product_own u s cur :
  fetch_product cur u s = find (product_at u s) (products_of u cur).
Proof.
  unfold fetch_product, products_of. symmetry. apply find_filter.
  intros r Hr. unfold product_at in Hr.
  apply andb_true_iff in Hr. tauto.
Qed.

Lemma fetch_month_units_own u s y m cur :
  fetch_month_units cur u s y m
  = match find (sale_at u s y m) (sales_of u cur) with
    | None => None
    | Some r => Some (Sale.units_sold r)
    end.
Proof.
  unfold fetch_month_units, sales_of. rewrite find_filter; [reflexivity|].
  intros r Hr. unfold sale_at, sale_of in Hr.
  rewrite !andb_true_iff in Hr. tauto.
Qed.

(** What a query answers for a user depends on that user's rows only. *)
Lemma ask_own_rows today u q a b :
  products_of u a = products_of u b ->
  sales_of u a = sales_of u b ->
  ask today u q a = ask today u q b.
Proof.
  intros HP HS.
  assert (Hfp : forall s, fetch_product a u s = fetch_product b u s)
    by (intro s; rewrite !fetch_product_own, HP; reflexivity).
  assert (Hfm : forall s y m,
             fetch_month_units a u s y m = fetch_month_units b u s y m)
    by (intros s y m; rewrite !fetch_month_units_own, HS; reflexivity).
  destruct q as [s|s y m|s]; simpl.
  - rewrite Hfp. reflexivity.
  - rewrite Hfm. reflexivity.
  - f_equal. unfold compute_for_sku. rewrite Hfp.
    destruct (fetch_product b u s) as [prod|]; [|reflexivity].
    rewrite !gather_units_flat_map.
    erewrite flat_map_ext; [reflexivity|].
    intros [y m]. simpl. rewrite Hfm. reflexivity.
Qed.

Lemma filter_idem (A : Type) (g : A -> bool) (l : list A) :
  filter g (filter g l) = filter g l.
Proof.
  induction l as [|x l IH]; simpl; [reflexivity|].
  destruct (g x) eqn:E; simpl; rewrite ?E, IH; reflexivity.
Qed.

(** C8.  For two distinct users, whatever the SKUs: a command run on
    behalf of one (product upsert, sales upsert, product delete, sale
    delete) leaves the other's product and monthly-sales rows unchanged,
    and every query the other then makes (fetch product, fetch month
    units, metrics computation) answers as before; and a query on behalf
    of a user answers as it would on a store holding that user's rows
    only, so it observes no row of anyone else. *)
Theorem cross_user_isolation
  (now : Z) (today : Z * Z) (u1 u2 : Z) (c : command) (cur cur' : db) :
  u1 <> u2 ->
  run now u1 c cur = Ok cur' ->
  products_of u2 cur' = products_of u2 cur
  /\ sales_of u2 cur' = sales_of u2 cur
  /\ (forall q, ask today u2 q cur' = ask today u2 q cur)
  /\ (forall q, ask today u1 q cur = ask today u1 q (only_user u1 cur)).
Proof.
  intros Hne Hrun.
  destruct (run_keeps_other _ _ _ Hne Hrun) as [HP HS].
  split; [exact HP|]. split; [exact HS|]. split.
  - intro q. apply ask_own_rows; assumption.
  - intro q. apply ask_own_rows; unfold only_user, products_of, sales_of;
      simpl; symmetry; apply filter_idem.
Qed.

(** C8, on the sample store: user 1 deletes the SKU that user 2 also has. *)
Lemma cross_user_isolation_witness :
  1%Z <> 2%Z
  /\ run 20 1 (DeleteProductAndSales (lit "A1")) Sample.store
     = Ok (delete_product_and_sales Sample.store 1 (lit "A1"))
  /\ products_of 2 (delete_product_and_sales Sample.store 1 (lit "A1"))
     = products_of 2 Sample.store.
Proof.
  assert (Hne : 1%Z <> 2%Z) by discriminate.
  split; [exact Hne|]. split; [reflexivity|].
  exact (proj1 (@cross_user_isolation 20 (2024, 1)%Z 1 2
                  (DeleteProductAndSales (lit "A1")) Sample.store _
                  Hne eq_refl)).
Defined.

End IsolationFacts.

(* ================================================================== *)
(** * Properties of the credential and session helpers *)

Section PasswordFacts.

Import Auth.

(** [_pwd_ctx] is [CryptContext(schemes=["bcrypt"],
    bcrypt__truncate_error=False)]: it encodes the secret in UTF-8 and
    hands it to bcrypt, which reads the first 72 bytes and ignores the
    rest. *)
Variable salt : Type.
Variable ctx_hash : salt -> str -> str.
Variable ctx_verify : str -> str -> bool.
Variable bcrypt : salt -> list N -> str.
Variable bcrypt_check : list N -> str -> bool.

Hypothesis ctx_hash_bcrypt :
  forall fresh secret,
    ctx_hash fresh secret = bcrypt fresh (firstn 72 (utf8 secret)).
Hypothesis ctx_verify_bcrypt :
  forall secret hashed,
    ctx_verify secret hashed = bcrypt_check (firstn 72 (utf8 secret)) hashed.

Lemma slice72_length (plain : str) : (List.length (slice72 plain) <= 72)%nat.
Proof. unfold slice72. rewrite length_firstn. lia. Qed.





End PasswordFacts.

Section PasswordExamples.

Import Auth.

(** A plaintext of 72 two-byte characters passes the slice whole, 144
    bytes long: the cut to 72 bytes is bcrypt's. *)
Example slice72_keeps_72_characters :
  slice72 Sample.accented72 = Sample.accented72
  /\ List.length (utf8 (slice72 Sample.accented72)) = 144%nat.
Proof. split; reflexivity. Qed.


End PasswordExamples.

Section SessionFacts.

Import Auth.

Variable get_signature : str -> str.
Variable verify_signature : str -> str -> bool.
Variable dump_payload : json -> str.
Variable load_payload : str -> option json.
Variable encode_timestamp : Z -> str.
Variable decode_timestamp : str -> option Z.

Lemma rsplit_sep_none (s : str) : ~ In sep s -> rsplit_sep s = None.
Proof.
  induction s as [|c s IH]; simpl; intro H; [reflexivity|].
  rewrite IH by tauto.
  destruct (N.eqb_spec c sep) as [E|_]; [|reflexivity].
  exfalso. apply H. left. exact E.
Qed.

Lemma rsplit_sep_last (a b : str) :
  ~ In sep b -> rsplit_sep (a ++ [sep] ++ b) = Some (a, b).
Proof.
  intro Hb. induction a as [|c a IH]; simpl.
  - rewrite (rsplit_sep_none _ Hb). reflexivity.
  - simpl in IH. rewrite IH. reflexivity.
Qed.

(** What [loads] returns on a token signed at [issued] and read at [now]. *)
Lemma loads_of_dumps (issued now : Z) (obj : json) :
  verify_signature (dump_payload obj ++ [sep] ++ encode_timestamp issued)
    (get_signature (dump_payload obj ++ [sep] ++ encode_timestamp issued))
  = true ->
  ~ In sep (get_signature
              (dump_payload obj ++ [sep] ++ encode_timestamp issued)) ->
  ~ In sep (encode_timestamp issued) ->
  decode_timestamp (encode_timestamp issued) = Some issued ->
  load_payload (dump_payload obj) = Some obj ->
  (issued <= now <= issued + SESSION_MAX_AGE)%Z ->
  loads verify_signature load_payload decode_timestamp now SESSION_MAX_AGE
    (dumps get_signature dump_payload encode_timestamp issued obj)
  = Ok obj.
Proof.
  intros Hv Hsig Hts Hdec Hload Hage.
  unfold loads, unsign, dumps.
  rewrite (rsplit_sep_last _ _ Hsig), Hv.
  rewrite (rsplit_sep_last _ _ Hts), Hdec.
  destruct (Z.ltb_spec SESSION_MAX_AGE (now - issued)) as [H|_]; [lia|].
  destruct (Z.ltb_spec (now - issued) 0) as [H|_]; [lia|].
  simpl. rewrite Hload. reflexivity.
Qed.

(** C5.  A cookie made for [user_id] at time [issued] and decoded at a
    time [now] before the max age has elapsed (in particular at once)
    gives back [user_id], provided the serializer's own codings round-trip
    on the values involved: the signature it computes verifies, the
    timestamp and the JSON integer decode to themselves, and the encoded
    timestamp and signature contain no separator. *)
Theorem session_cookie_round_trip (issued now user_id : Z) :
  verify_signature
    (dump_payload (JInt user_id) ++ [sep] ++ encode_timestamp issued)
    (get_signature
       (dump_payload (JInt user_id) ++ [sep] ++ encode_timestamp issued))
  = true ->
  ~ In sep (get_signature
              (dump_payload (JInt user_id) ++ [sep]
               ++ encode_timestamp issued)) ->
  ~ In sep (encode_timestamp issued) ->
  decode_timestamp (encode_timestamp issued) = Some issued ->
  load_payload (dump_payload (JInt user_id)) = Some (JInt user_id) ->
  (issued <= now <= issued + SESSION_MAX_AGE)%Z ->
  decode_session_cookie verify_signature load_payload decode_timestamp now
    (make_session_cookie get_signature dump_payload encode_timestamp
       issued user_id)
  = Ok (Some user_id).
Proof.
  intros Hv Hsig Hts Hdec Hload Hage.
  unfold decode_session_cookie, make_session_cookie.
  rewrite loads_of_dumps; [reflexivity | assumption ..].
Qed.

(** ** What [decode_session_cookie] does on an arbitrary token *)

(** A token whose signature does not verify decodes to [None]. *)
Lemma decode_bad_signature (now : Z) (token : str) :
  signature_ok verify_signature token = false ->
  decode_session_cookie verify_signature load_payload decode_timestamp
    now token
  = Ok None.
Proof.
  unfold signature_ok, decode_session_cookie, loads, unsign.
  destruct (rsplit_sep token) as [[signed sig]|]; [|reflexivity].
  intro H. rewrite H.
  destruct (rsplit_sep signed) as [[? ?]|]; reflexivity.
Qed.

(** A token older than the max age decodes to [None], whatever its
    signature. *)
Lemma decode_expired (now ts : Z) (token : str) :
  embedded_timestamp decode_timestamp token = Some ts ->
  (SESSION_MAX_AGE < now - ts)%Z ->
  decode_session_cookie verify_signature load_payload decode_timestamp
    now token
  = Ok None.
Proof.
  unfold embedded_timestamp, decode_session_cookie, loads, unsign.
  destruct (rsplit_sep token) as [[signed sig]|]; [|discriminate].
  destruct (rsplit_sep signed) as [[value ts_bytes]|]; [|discriminate].
  intros Hts Hage. rewrite Hts.
  destruct (verify_signature signed sig); [|reflexivity].
  destruct (Z.ltb_spec SESSION_MAX_AGE (now - ts)) as [_|H]; [reflexivity|lia].
Qed.

(** What [int] raises on a payload. *)
Lemma int_of_raises (obj : json) (e : exn) :
  int_of obj = Raise e ->
  e = ValueError \/ e = TypeError \/ e = OverflowError.
Proof.
  destruct obj as [|b|z|f|s|l|l]; simpl; try discriminate;
    try (intro H; injection H as <-; tauto).
  - unfold int_of_float.
    destruct (Prim2SF f) as [sg|sg| |sg m x]; try discriminate;
      intro H; injection H as <-; tauto.
  - destruct (parse_int s); [discriminate|].
    intro H. injection H as <-. tauto.
Qed.

(** An exception leaves [decode_session_cookie] only on a token whose
    signature verifies and whose timestamp is neither in the future nor
    more than 30 days old, and it is [BadPayload] (the payload does not
    decode), [TypeError] or [OverflowError] (what [int] raises on the
    decoded payload and the [except] clause does not catch). *)
Theorem decode_raises_only (now : Z) (token : str) (e : exn) :
  decode_session_cookie verify_signature load_payload decode_timestamp
    now token
  = Raise e ->
  signature_ok verify_signature token = true
  /\ (exists ts,
       embedded_timestamp decode_timestamp token = Some ts
       /\ (0 <= now - ts <= SESSION_MAX_AGE)%Z)
  /\ (e = BadPayload \/ e = TypeError \/ e = OverflowError).
Proof.
  unfold decode_session_cookie, loads, unsign, signature_ok,
    embedded_timestamp.
  destruct (rsplit_sep token) as [[signed sig]|] eqn:Htok; [|discriminate].
  destruct (verify_signature signed sig);
    [|destruct (rsplit_sep signed) as [[? ?]|]; discriminate].
  destruct (rsplit_sep signed) as [[value ts_bytes]|] eqn:Hsigned;
    [|discriminate].
  destruct (decode_timestamp ts_bytes) as [ts|]; [|discriminate].
  destruct (Z.ltb_spec SESSION_MAX_AGE (now - ts)) as [|Hold]; [discriminate|].
  destruct (Z.ltb_spec (now - ts) 0) as [|Hneg]; [discriminate|].
  cbn [bind].
  assert (Hfresh : exists ts0, Some ts = Some ts0
                               /\ (0 <= now - ts0 <= SESSION_MAX_AGE)%Z)
    by (exists ts; split; [reflexivity|lia]).
  destruct (load_payload value) as [obj|] eqn:Hload; cbn [bind].
  - destruct (int_of obj) as [z|e'] eqn:Hint; [discriminate|].
    destruct (int_of_raises _ Hint) as [E|[E|E]]; subst e'; cbn.
    + discriminate.
    + intro H. injection H as <-. split; [reflexivity|].
      split; [exact Hfresh|]. tauto.
    + intro H. injection H as <-. split; [reflexivity|].
      split; [exact Hfresh|]. tauto.
  - cbn. intro H. injection H as <-. split; [reflexivity|].
    split; [exact Hfresh|]. tauto.
Qed.

(** C4, where the code departs from it.  A fresh token that carries a
    valid signature over the JSON payload [null] makes [int] raise
    [TypeError], which the [except] clause does not catch: the exception
    reaches the caller. *)
Theorem decode_signed_null_raises (issued now : Z) :
  verify_signature (dump_payload JNull ++ [sep] ++ encode_timestamp issued)
    (get_signature (dump_payload JNull ++ [sep] ++ encode_timestamp issued))
  = true ->
  ~ In sep (get_signature
              (dump_payload JNull ++ [sep] ++ encode_timestamp issued)) ->
  ~ In sep (encode_timestamp issued) ->
  decode_timestamp (encode_timestamp issued) = Some issued ->
  load_payload (dump_payload JNull) = Some JNull ->
  (issued <= now <= issued + SESSION_MAX_AGE)%Z ->
  decode_session_cookie verify_signature load_payload decode_timestamp now
    (dumps get_signature dump_payload encode_timestamp issued JNull)
  = Raise TypeError.
Proof.
  intros Hv Hsig Hts Hdec Hload Hage.
  unfold decode_session_cookie.
  rewrite loads_of_dumps; [reflexivity | assumption ..].
Qed.

End SessionFacts.

Section SessionExamples.

Import Auth.

Lemma not_in_sep (s : str) : existsb (N.eqb sep) s = false -> ~ In sep s.
Proof.
  intros H Hin.
  assert (existsb (N.eqb sep) s = true).
  { apply existsb_exists. exists sep. split; [exact Hin|apply N.eqb_refl]. }
  congruence.
Qed.

(** The max age is 30 days, in seconds. *)
Example session_max_age_30_days : SESSION_MAX_AGE = (30 * 86400)%Z.
Proof. reflexivity. Qed.

(** With the toy signer: a cookie read 31 days after issue is invalid,
    and so is one whose signature was altered. *)
Example decode_cookie_expired :
  Sample.decode_cookie (1700000000 + 31 * 86400)
    (Sample.make_cookie 1700000000 42)
  = Ok None.
Proof. vm_compute. reflexivity. Qed.

Example decode_cookie_tampered :
  Sample.decode_cookie 1700000000 (Sample.make_cookie 1700000000 42 ++ lit "0")
  = Ok None.
Proof. vm_compute. reflexivity. Qed.

(** C5, with the toy signer: user 42, issued at 1700000000, read a day
    later. *)
Lemma session_cookie_round_trip_witness :
  (1700000000 <= 1700086400 <= 1700000000 + SESSION_MAX_AGE)%Z
  /\ Sample.decode_cookie 1700086400 (Sample.make_cookie 1700000000 42)
     = Ok (Some 42%Z).
Proof.
  assert (Hage : (1700000000 <= 1700086400
                  <= 1700000000 + SESSION_MAX_AGE)%Z)
    by (unfold SESSION_MAX_AGE; lia).
  split; [exact Hage|].
  apply (@session_cookie_round_trip
           Sample.get_signature Sample.verify_signature Sample.dump_payload
           Sample.load_payload Sample.encode_timestamp Sample.decode_timestamp
           1700000000 1700086400 42).
  - vm_compute. reflexivity.
  - apply not_in_sep. vm_compute. reflexivity.
  - apply not_in_sep. vm_compute. reflexivity.
  - vm_compute. reflexivity.
  - vm_compute. reflexivity.
  - exact Hage.
Defined.

(** C4, with the toy signer: a signed [null], read a day after issue. *)
Lemma decode_signed_null_raises_witness :
  (1700000000 <= 1700086400 <= 1700000000 + SESSION_MAX_AGE)%Z
  /\ Sample.decode_cookie 1700086400
       (dumps Sample.get_signature Sample.dump_payload Sample.encode_timestamp
          1700000000 JNull)
     = Raise TypeError.
Proof.
  assert (Hage : (1700000000 <= 1700086400
                  <= 1700000000 + SESSION_MAX_AGE)%Z)
    by (unfold SESSION_MAX_AGE; lia).
  split; [exact Hage|].
  apply (@decode_signed_null_raises
           Sample.get_signature Sample.verify_signature Sample.dump_payload
           Sample.load_payload Sample.encode_timestamp Sample.decode_timestamp
           1700000000 1700086400).
  - vm_compute. reflexivity.
  - apply not_in_sep. vm_compute. reflexivity.
  - apply not_in_sep. vm_compute. reflexivity.
  - vm_compute. reflexivity.
  - vm_compute. reflexivity.
  - exact Hage.
Defined.

End SessionExamples.

(* ================================================================== *)
(** * Further properties of the metrics engine *)

Section MetricsMoreFacts.

Import Metrics.
Open Scope float_scope.

(** The engine returns whenever the monthly units, the lead time and the
    stock levels fit in 64 bits (as every stored value does), whatever z
    is; and the order quantity it returns is never negative and never
    NaN: it is 0, or a number above 0 (which [+inf] is), for every lead
    time, every z value (infinities and NaN included) and every stock
    level. *)
Theorem order_quantity_never_negative
  (lead_time : Z) (z : float) (monthly_units : list Z)
  (fba_stock inbound_stock : Z) :
  (Forall (fun u => Store.int64 u = true) monthly_units ->
   Store.int64 lead_time = true ->
   Store.int64 fba_stock = true -> Store.int64 inbound_stock = true ->
   exists m,
     compute_from_last_months lead_time z monthly_units fba_stock
       inbound_stock
     = Ok m)
  /\ forall m,
       compute_from_last_months lead_time z monthly_units fba_stock
         inbound_stock
       = Ok m ->
       (order_qty m = 0 \/ (0 <? order_qty m) = true)
       /\ is_nan (order_qty m) = false
       /\ (order_qty m <? 0) = false.
Proof.
  split; [apply compute_from_last_months_returns|].
  intros m E.
  assert (H : order_qty m = 0 \/ (0 <? order_qty m) = true).
  { destruct monthly_units as [|x l].
    - injection E as <-. left. reflexivity.
    - apply compute_from_last_months_value in E; [|discriminate].
      subst m. unfold computeMetrics_spec. cbn [order_qty]. unfold max_float.
      match goal with
      | |- context [if ?c then _ else _] => destruct c eqn:Hc
      end; [right; exact Hc|left; reflexivity]. }
  split; [exact H|].
  destruct H as [H|H].
  - rewrite H. split; reflexivity.
  - apply above_zero. exact H.
Qed.

(** With an infinite z and [100; 120; 110]: the safety stock is infinite,
    the order quantity is [+inf], not NaN. *)
Lemma order_quantity_never_negative_witness :
  compute_from_last_months 7 infinity [100; 120; 110]%Z 50 0
  = Ok (mk_metrics 0x1.d555555555555p+1 0x1.5555555555555p-2
          infinity infinity infinity)
  /\ is_nan infinity = false.
Proof.
  assert (E : compute_from_last_months 7 infinity [100; 120; 110]%Z 50 0
              = Ok (mk_metrics 0x1.d555555555555p+1 0x1.5555555555555p-2
                      infinity infinity infinity))
    by (vm_compute; reflexivity).
  split; [exact E|].
  exact (proj1 (proj2 (proj2 (@order_quantity_never_negative
                                 7 infinity [100; 120; 110]%Z 50 0) _ E))).
Defined.

Lemma sum_permutation (l l' : list Z) :
  Permutation l l' -> Py.sum l = Py.sum l'.
Proof.
  induction 1 as [|x l l' _ IH|x y l|l l' l'' _ IH1 _ IH2].
  - reflexivity.
  - rewrite !sum_cons, IH. reflexivity.
  - rewrite !sum_cons. lia.
  - congruence.
Qed.

Lemma len_permutation (l l' : list Z) : Permutation l l' -> len l = len l'.
Proof.
  intro H. unfold len. rewrite (Permutation_length H). reflexivity.
Qed.

Lemma stdev_permutation (l l' : list Z) :
  Permutation l l' -> stdev l = stdev l'.
Proof.
  intro H. unfold stdev, _ss.
  rewrite (len_permutation H), (sum_permutation H).
  rewrite (sum_permutation (Permutation_map (fun n => (n * n)%Z) H)).
  reflexivity.
Qed.

(** The metrics do not depend on the order in which the monthly unit
    counts are given: any rearrangement of the sequence yields the same
    result. *)
Theorem metrics_ignore_month_order
  (lead_time : Z) (z : float) (monthly_units rearranged : list Z)
  (fba_stock inbound_stock : Z) :
  Permutation monthly_units rearranged ->
  compute_from_last_months lead_time z monthly_units fba_stock inbound_stock
  = compute_from_last_months lead_time z rearranged fba_stock inbound_stock.
Proof.
  intro H.
  destruct monthly_units as [|x l], rearranged as [|x' l'].
  - reflexivity.
  - apply Permutation_nil in H. discriminate.
  - apply Permutation_sym, Permutation_nil in H. discriminate.
  - unfold compute_from_last_months.
    rewrite (sum_permutation H), (len_permutation H), (stdev_permutation H).
    reflexivity.
Qed.

(** On [100; 120; 110] and the same months in another order. *)
Lemma metrics_ignore_month_order_witness :
  Permutation [100; 120; 110]%Z [120; 100; 110]%Z
  /\ compute_from_last_months 7 (165 / 100) [100; 120; 110]%Z 50 0
     = compute_from_last_months 7 (165 / 100) [120; 100; 110]%Z 50 0.
Proof.
  assert (H : Permutation [100; 120; 110]%Z [120; 100; 110]%Z)
    by apply perm_swap.
  split; [exact H|].
  exact (@metrics_ignore_month_order 7 (165 / 100) _ _ 50 0 H).
Defined.

Lemma sum_constant (c : Z) (l : list Z) :
  Forall (fun x => x = c) l -> Py.sum l = (len l * c)%Z.
Proof.
  induction 1 as [|x l Hx _ IH].
  - reflexivity.
  - subst x. rewrite sum_cons, len_cons, IH. ring.
Qed.

Lemma sum_squares_constant (c : Z) (l : list Z) :
  Forall (fun x => x = c) l ->
  Py.sum (map (fun n => n * n)%Z l) = (len l * (c * c))%Z.
Proof.
  induction 1 as [|x l Hx _ IH].
  - reflexivity.
  - subst x. rewrite map_cons, sum_cons, len_cons, IH. ring.
Qed.

(** Equal values have no spread: [stdev] returns 0.0, whatever the
    value. *)
Lemma stdev_constant (c : Z) (l : list Z) :
  (2 <= len l)%Z -> Forall (fun x => x = c) l -> stdev l = Ok 0.
Proof.
  intros H2 Hall. unfold stdev.
  assert (Hss : fst (_ss l) = 0%Q).
  { unfold _ss. cbn [fst]. destruct (len l =? 0)%Z; [reflexivity|].
    change 0%Q with (Qred 0). apply Qred_complete.
    rewrite (sum_constant Hall), (sum_squares_constant Hall).
    rewrite !inject_Z_mult. unfold Qdiv. ring. }
  rewrite Hss.
  assert (Hn : snd (_ss l) = len l) by reflexivity.
  destruct (Z.ltb_spec (snd (_ss l)) 2) as [Hlt|_]; [lia|].
  assert (Hmss : Qred (0 / inject_Z (snd (_ss l) - 1)) = 0%Q).
  { change 0%Q with (Qred 0) at 2. apply Qred_complete. unfold Qdiv. ring. }
  rewrite Hmss. vm_compute. reflexivity.
Qed.

(** When every month sold the same number c of units the demand shows
    no variability.  The engine returns when c, the lead time and the
    stock levels fit in 64 bits; and whenever it returns, the standard
    deviation is exactly 0.0, so the safety stock is z times 0.0 times the
    root of the lead time (a zero for a finite z, NaN for an infinite
    one). *)
Theorem metrics_of_constant_history
  (lead_time : Z) (z : float) (c : Z) (monthly_units : list Z)
  (fba_stock inbound_stock : Z) :
  monthly_units <> [] ->
  Forall (fun x => x = c) monthly_units ->
  (Store.int64 c = true -> Store.int64 lead_time = true ->
   Store.int64 fba_stock = true -> Store.int64 inbound_stock = true ->
   exists m,
     compute_from_last_months lead_time z monthly_units fba_stock
       inbound_stock
     = Ok m)
  /\ forall m,
       compute_from_last_months lead_time z monthly_units fba_stock
         inbound_stock
       = Ok m ->
       std_daily m = 0
       /\ safety_stock m
          = z * 0 * PrimFloat.sqrt (nearest_int (Z.max 1 lead_time)).
Proof.
  intros Hne Hall. split.
  { intros Hc. apply compute_from_last_months_returns.
    eapply Forall_impl; [|exact Hall]. intros u Hu. simpl in Hu.
    subst u. exact Hc. }
  intro m. unfold compute_from_last_months.
  destruct monthly_units as [|x l]; [congruence|].
  set (seq := x :: l) in *.
  destruct (true_div (Py.sum seq) (len seq)) as [mean_month|e];
    [|discriminate].
  cbn [bind].
  assert (Hsd : (if (2 <=? len seq)%Z then s <- stdev seq ;; Ok (s / 30)
                 else Ok 0) = Ok 0).
  { destruct (Z.leb_spec 2 (len seq)) as [H2|H2]; [|reflexivity].
    rewrite (stdev_constant H2 Hall). reflexivity. }
  rewrite Hsd. cbn [bind].
  destruct (math_sqrt (max_int 1 lead_time)) as [root|e] eqn:E3;
    [|discriminate].
  apply math_sqrt_value in E3. rewrite max_int_max in E3. subst root.
  cbn [bind].
  destruct (mul_int (mean_month / 30) lead_time) as [ld|e]; [|discriminate].
  cbn [bind].
  destruct (mul_int (mean_month / 30) 60) as [hd|e]; [|discriminate].
  cbn [bind].
  match goal with
  | |- context [sub_int ?a ?b] => destruct (sub_int a b) as [need|e]
  end; [|discriminate].
  cbn [bind]. intro H. injection H as <-. split; reflexivity.
Qed.

(** Three months of 90 units each. *)
Lemma metrics_of_constant_history_witness :
  [90; 90; 90]%Z <> [] /\ Forall (fun x => x = 90%Z) [90; 90; 90]%Z
  /\ compute_from_last_months 7 2 [90; 90; 90]%Z 0 0
     = Ok (mk_metrics 3 0 0 21 180)
  /\ std_daily (mk_metrics 3 0 0 21 180) = 0.
Proof.
  assert (Hne : [90; 90; 90]%Z <> []) by discriminate.
  assert (Hall : Forall (fun x => x = 90%Z) [90; 90; 90]%Z)
    by (repeat constructor).
  assert (E : compute_from_last_months 7 2 [90; 90; 90]%Z 0 0
              = Ok (mk_metrics 3 0 0 21 180)) by (vm_compute; reflexivity).
  split; [exact Hne|]. split; [exact Hall|]. split; [exact E|].
  exact (proj1 (proj2 (@metrics_of_constant_history 7 2 90 [90; 90; 90]%Z
                         0 0 Hne Hall) _ E)).
Defined.

(** With an infinite z the safety stock of a constant history is NaN. *)
Example constant_history_infinite_z :
  compute_from_last_months 7 infinity [90; 90; 90]%Z 0 0
  = Ok (mk_metrics 3 0 nan nan 0).
Proof. vm_compute. reflexivity. Qed.

(** A lead time below every float: the product with the daily velocity
    raises. *)
Example short_lead_time_overflow :
  compute_from_last_months (- 10 ^ 400) 2 [100; 120]%Z 0 0
  = Raise OverflowError.
Proof. vm_compute. reflexivity. Qed.

(** With a lead time of one day or less (zero and negative ones
    included) the root is taken of 1.  The engine returns when the
    monthly units, the lead time and the stock levels fit in 64 bits (a
    lead time below -2^1024 raises [OverflowError]); and whenever it
    returns, the safety stock is exactly z times the daily standard
    deviation, and the reorder point is the daily velocity times the lead
    time plus that. *)
Theorem metrics_at_short_lead_time
  (lead_time : Z) (z : float) (monthly_units : list Z)
  (fba_stock inbound_stock : Z) :
  (lead_time <= 1)%Z ->
  monthly_units <> [] ->
  (Forall (fun u => Store.int64 u = true) monthly_units ->
   Store.int64 lead_time = true ->
   Store.int64 fba_stock = true -> Store.int64 inbound_stock = true ->
   exists m,
     compute_from_last_months lead_time z monthly_units fba_stock
       inbound_stock
     = Ok m)
  /\ forall m,
       compute_from_last_months lead_time z monthly_units fba_stock
         inbound_stock
       = Ok m ->
       safety_stock m = z * std_daily m
       /\ rop m
          = daily_velocity m * nearest_int lead_time + z * std_daily m.
Proof.
  intros Hlead Hne.
  split; [apply compute_from_last_months_returns|].
  intros m E.
  apply compute_from_last_months_value in E; [|exact Hne]. subst m.
  unfold computeMetrics_spec.
  cbn [safety_stock std_daily rop daily_velocity].
  rewrite Z.max_l by exact Hlead.
  change (PrimFloat.sqrt (nearest_int 1)) with 1.
  rewrite mul_one. split; reflexivity.
Qed.

(** At lead time 0. *)
Lemma metrics_at_short_lead_time_witness :
  (0 <= 1)%Z /\ [100; 120]%Z <> []
  /\ compute_from_last_months 0 2 [100; 120]%Z 0 0
     = Ok (mk_metrics 0x1.d555555555555p+1 0x1.e2b7dddfefa66p-2
             0x1.e2b7dddfefa66p-1 0x1.e2b7dddfefa66p-1 0x1.b9e2b7dddfefap+7)
  /\ 0x1.e2b7dddfefa66p-1 = 2 * 0x1.e2b7dddfefa66p-2.
Proof.
  assert (H : (0 <= 1)%Z) by lia.
  assert (Hne : [100; 120]%Z <> []) by discriminate.
  assert (E : compute_from_last_months 0 2 [100; 120]%Z 0 0
     = Ok (mk_metrics 0x1.d555555555555p+1 0x1.e2b7dddfefa66p-2
             0x1.e2b7dddfefa66p-1 0x1.e2b7dddfefa66p-1 0x1.b9e2b7dddfefap+7))
    by (vm_compute; reflexivity).
  split; [exact H|]. split; [exact Hne|]. split; [exact E|].
  exact (proj1 (proj2 (@metrics_at_short_lead_time 0 2 [100; 120]%Z 0 0
                         H Hne) _ E)).
Defined.

End MetricsMoreFacts.

(* ================================================================== *)
(** * Further properties of the month window and the chart *)

Section WindowFacts.

Import Store Planner Charts.

Lemma months_back_length (n : nat) :
  forall y m, List.length (months_back n y m) = n.
Proof.
  induction n as [|n IH]; intros y m; cbn [months_back]; [reflexivity|].
  cbn [List.length]. destruct (m - 1 =? 0)%Z; rewrite IH; reflexivity.
Qed.

Lemma months_back_nth (n : nat) :
  forall y m k ym,
  (1 <= m <= 12)%Z ->
  nth_error (months_back n y m) k = Some ym ->
  month_index ym = (month_index (y, m) - Z.of_nat k)%Z
  /\ (1 <= snd ym <= 12)%Z.
Proof.
  induction n as [|n IH]; intros y m k ym Hm; cbn [months_back].
  - destruct k; discriminate.
  - destruct k as [|k]; cbn [nth_error].
    + intro E. injection E as <-. cbn [snd]. split; lia.
    + destruct (Z.eqb_spec (m - 1) 0) as [E0|E0]; intro E.
      * apply IH in E; [|lia]. unfold month_index in *. cbn [fst snd] in *.
        split; lia.
      * apply IH in E; [|lia]. unfold month_index in *. cbn [fst snd] in *.
        split; lia.
Qed.


(** For any number [n] of months, when today's month is a calendar month:
    [last_n_calendar_months] returns exactly [n] months; the one at
    position [k] lies [k] months before the current month on the time
    line and is itself a calendar month (1..12), the year dropping by one
    after each January; and no month occurs twice. *)
Theorem last_n_calendar_months_run (today : Z * Z) (n : nat) :
  (1 <= snd today <= 12)%Z ->
  List.length (last_n_calendar_months today n) = n
  /\ (forall k ym,
       nth_error (last_n_calendar_months today n) k = Some ym ->
       month_index ym = (month_index today - Z.of_nat k)%Z
       /\ (1 <= snd ym <= 12)%Z)
  /\ NoDup (last_n_calendar_months today n).
Proof.
  intro Hm. destruct today as [y m]. cbn [snd] in Hm.
  unfold last_n_calendar_months. cbn [fst snd].
  split; [apply months_back_length|].
  split; [intros k ym; apply months_back_nth; exact Hm|].
  apply NoDup_nth_error. intros i j Hi E.
  destruct (nth_error (months_back n y m) i) as [ym|] eqn:Ei.
  - symmetry in E.
    destruct (months_back_nth _ _ _ Hm Ei) as [Ii _].
    destruct (months_back_nth _ _ _ Hm E) as [Ij _].
    lia.
  - apply nth_error_None in Ei. lia.
Qed.

(** Fourteen months back from February 2024. *)
Lemma last_n_calendar_months_run_witness :
  (1 <= snd (2024, 2) <= 12)%Z
  /\ List.length (last_n_calendar_months (2024, 2)%Z 14) = 14%nat.
Proof.
  assert (H : (1 <= snd (2024, 2) <= 12)%Z) by (simpl; lia).
  split; [exact H|].
  exact (proj1 (@last_n_calendar_months_run (2024, 2)%Z 14 H)).
Defined.




(** The same chart, computed: August 2023 to January 2024, with the one
    recorded month. *)
Example chart_of_sample_store :
  units6 (2024, 1)%Z Sample.store 1 (lit "A1") = [0; 0; 0; 0; 120; 0]%Z
  /\ labels6 (2024, 1)%Z
     = [lit "2023-08"; lit "2023-09"; lit "2023-10"; lit "2023-11";
        lit "2023-12"; lit "2024-01"].
Proof. split; vm_compute; reflexivity. Qed.

(** ** Month labels *)

Lemma lit_injective (s t : string) : lit s = lit t -> s = t.
Proof.
  revert t. induction s as [|a s IH]; destruct t as [|b t]; simpl;
    try discriminate; [reflexivity|].
  intro E. injection E as Hab Hst.
  rewrite (IH _ Hst). f_equal.
  rewrite <- (ascii_N_embedding a), <- (ascii_N_embedding b), Hab.
  reflexivity.
Qed.

Lemma to_int_not_nil (z : Z) :
  Z.to_int z <> Decimal.Pos Decimal.Nil
  /\ Z.to_int z <> Decimal.Neg Decimal.Nil.
Proof.
  destruct z as [|p|p]; simpl; split; try discriminate;
    intro E; injection E as E; exact (DecimalPos.Unsigned.to_uint_nonnil p E).
Qed.

Lemma str_of_int_injective (a b : Z) : str_of_int a = str_of_int b -> a = b.
Proof.
  unfold str_of_int. intro E. apply lit_injective in E.
  apply to_int_inj.
  destruct (to_int_not_nil a) as [Ha1 Ha2].
  destruct (to_int_not_nil b) as [Hb1 Hb2].
  pose proof (NilZero.isi (Z.to_int a) Ha1 Ha2) as Ia.
  pose proof (NilZero.isi (Z.to_int b) Hb1 Hb2) as Ib.
  rewrite E in Ia. congruence.
Qed.

Lemma month_is_one_of_twelve (m : Z) :
  (1 <= m <= 12)%Z ->
  m = 1%Z \/ m = 2%Z \/ m = 3%Z \/ m = 4%Z \/ m = 5%Z \/ m = 6%Z
  \/ m = 7%Z \/ m = 8%Z \/ m = 9%Z \/ m = 10%Z \/ m = 11%Z \/ m = 12%Z.
Proof. lia. Qed.

(** A calendar month is printed with two digits that read back as the
    month. *)
Lemma format_02d_month (m : Z) :
  (1 <= m <= 12)%Z ->
  List.length (format_02d m) = 2%nat
  /\ Auth.parse_int (format_02d m) = Some m.
Proof.
  intro Hm.
  destruct (month_is_one_of_twelve Hm)
    as [->|[->|[->|[->|[->|[->|[->|[->|[->|[->|[->| ->]]]]]]]]]]];
    split; reflexivity.
Qed.

Lemma app_split_by_length (A : Type) (a a' b b' : list A) :
  List.length b = List.length b' ->
  a ++ b = a' ++ b' -> a = a' /\ b = b'.
Proof.
  intros Hlen. revert a'.
  induction a as [|x a IH]; intros [|x' a'] E; simpl in E.
  - split; [reflexivity|exact E].
  - exfalso. apply (f_equal (@List.length A)) in E.
    simpl in E. rewrite length_app in E. lia.
  - exfalso. apply (f_equal (@List.length A)) in E.
    simpl in E. rewrite length_app in E. lia.
  - injection E as -> E. destruct (IH _ E) as [-> ->].
    split; reflexivity.
Qed.

(** Two calendar months get the same label only when they are the same
    month of the same year: the label names the month unambiguously. *)
Theorem month_label_names_one_month (y m y' m' : Z) :
  (1 <= m <= 12)%Z -> (1 <= m' <= 12)%Z ->
  month_label y m = month_label y' m' ->
  y = y' /\ m = m'.
Proof.
  intros Hm Hm' E. unfold month_label in E.
  destruct (format_02d_month Hm) as [L P].
  destruct (format_02d_month Hm') as [L' P'].
  rewrite !app_assoc in E.
  apply app_split_by_length in E; [|congruence].
  destruct E as [Ey Em]. split.
  - apply app_inv_tail in Ey. apply str_of_int_injective. exact Ey.
  - rewrite Em in P. congruence.
Qed.

(** December 2023, whose label is "2023-12". *)
Lemma month_label_names_one_month_witness :
  (1 <= 12 <= 12)%Z
  /\ month_label 2023 12 = lit "2023-12"
  /\ month_label 2023 12 = month_label 2023 12
  /\ (2023%Z = 2023%Z /\ 12%Z = 12%Z).
Proof.
  assert (H : (1 <= 12 <= 12)%Z) by lia.
  split; [exact H|]. split; [reflexivity|]. split; [reflexivity|].
  exact (@month_label_names_one_month 2023 12 2023 12 H H eq_refl).
Defined.

End WindowFacts.

(* ================================================================== *)
(** * Further properties of the store *)

Section StoreMoreFacts.

Import Store Requests Schema.

Lemma product_at_distinct u s u' s' r :
  (u', s') <> (u, s) -> product_at u' s' r = true -> product_at u s r = false.
Proof.
  intros Hne Hp. apply product_at_key in Hp.
  destruct (product_at u s r) eqn:E; [|reflexivity].
  apply product_at_key in E. congruence.
Qed.

Lemma sale_of_key (u : Z) (s : str) (r : Sale.row) :
  sale_of u s r = true <-> (Sale.user_id r, Sale.sku r) = (u, s).
Proof.
  unfold sale_of. rewrite andb_true_iff, Z.eqb_eq, str_eqb_eq.
  split.
  - intros [-> ->]. reflexivity.
  - intro E. injection E as -> ->. split; reflexivity.
Qed.

Lemma find_rejected (A : Type) (p : A -> bool) (l : list A) :
  find p (filter (fun x => negb (p x)) l) = None.
Proof.
  induction l as [|x l IH]; simpl; [reflexivity|].
  destruct (p x) eqn:E; simpl; [exact IH|].
  rewrite E. exact IH.
Qed.

(** ** Writing a product and reading it back *)

Lemma upsert_product_fetch_written
  (now : Z) (cur : db) (user_id : Z) (sku name : str)
  (lead_time_days : Z) (z_value : float) (fba_stock inbound_stock : Z)
  (cur' : db) :
  upsert_product now cur user_id sku name lead_time_days z_value
    fba_stock inbound_stock = Ok cur' ->
  exists r,
    fetch_product cur' user_id sku = Some r
    /\ Product.user_id r = user_id /\ Product.sku r = sku
    /\ Product.name r = name /\ Product.lead_time_days r = lead_time_days
    /\ Product.z_value r = real_column z_value
    /\ Product.fba_stock r = fba_stock
    /\ Product.inbound_stock r = inbound_stock
    /\ Product.updated_at r = now.
Proof.
  intro E. apply upsert_product_inv in E as [_ [_ [P _]]].
  unfold fetch_product. rewrite P.
  destruct (existsb (product_at user_id sku) (products cur)) eqn:Hex.
  - rewrite find_map_stable by (intro x; apply rewrite_product_at).
    apply find_some_existsb in Hex as [r0 [Hf Hp]]. rewrite Hf.
    cbn [option_map]. eexists. split; [reflexivity|].
    unfold rewrite_product. rewrite Hp. cbn.
    apply product_at_key in Hp. injection Hp as Hu Hs.
    repeat split; assumption || reflexivity.
  - rewrite find_snoc, (find_none_existsb _ _ Hex).
    unfold product_at at 1. cbn. rewrite Z.eqb_refl, str_eqb_refl. cbn.
    eexists. split; [reflexivity|]. cbn. repeat split; reflexivity.
Qed.

Lemma upsert_product_fetch_others
  (now : Z) (cur : db) (user_id : Z) (sku name : str)
  (lead_time_days : Z) (z_value : float) (fba_stock inbound_stock : Z)
  (cur' : db) (u' : Z) (s' : str) :
  upsert_product now cur user_id sku name lead_time_days z_value
    fba_stock inbound_stock = Ok cur' ->
  (u', s') <> (user_id, sku) ->
  fetch_product cur' u' s' = fetch_product cur u' s'.
Proof.
  intros E Hne. apply upsert_product_inv in E as [_ [_ [P _]]].
  unfold fetch_product. rewrite P.
  destruct (existsb (product_at user_id sku) (products cur)) eqn:Hex.
  - rewrite find_map_stable by (intro x; apply rewrite_product_at).
    destruct (find (product_at u' s') (products cur)) as [r|] eqn:Hf;
      [|reflexivity].
    cbn [option_map]. f_equal. apply find_some in Hf as [_ Hp].
    unfold rewrite_product.
    erewrite product_at_distinct by eassumption. reflexivity.
  - rewrite find_snoc.
    destruct (find (product_at u' s') (products cur)); [reflexivity|].
    destruct (product_at u' s' _) eqn:Hp; [|reflexivity].
    apply product_at_key in Hp. cbn in Hp. congruence.
Qed.

(** For values the statement can store (user id, lead time and stock
    levels within 64 bits, z not NaN) [upsert_product] goes through, and
    then [fetch_product] for the pair returns a row that carries exactly
    the values written (z as the REAL column gives it back) and the time
    of the write, whatever the store held before; [fetch_product] for any
    other pair, and every monthly fact, reads as before. *)
Theorem upsert_product_then_fetch
  (now : Z) (cur : db) (user_id : Z) (sku name : str)
  (lead_time_days : Z) (z_value : float) (fba_stock inbound_stock : Z) :
  forallb int64 [user_id; lead_time_days; fba_stock; inbound_stock] = true ->
  is_nan z_value = false ->
  exists cur',
    upsert_product now cur user_id sku name lead_time_days z_value
      fba_stock inbound_stock = Ok cur'
    /\ (exists r,
         fetch_product cur' user_id sku = Some r
         /\ Product.user_id r = user_id /\ Product.sku r = sku
         /\ Product.name r = name /\ Product.lead_time_days r = lead_time_days
         /\ Product.z_value r = real_column z_value
         /\ Product.fba_stock r = fba_stock
         /\ Product.inbound_stock r = inbound_stock
         /\ Product.updated_at r = now)
    /\ (forall u' s',
         (u', s') <> (user_id, sku) ->
         fetch_product cur' u' s' = fetch_product cur u' s')
    /\ monthly_sales cur' = monthly_sales cur.
Proof.
  intros Hb Hz.
  destruct (upsert_product_returns now cur user_id sku name lead_time_days
              z_value fba_stock inbound_stock Hb Hz) as [cur' E].
  exists cur'. split; [exact E|].
  split; [eapply upsert_product_fetch_written; exact E|].
  split.
  - intros u' s' Hne. eapply upsert_product_fetch_others; eassumption.
  - apply upsert_product_inv in E. tauto.
Qed.

(** A product written over the sample store's product of user 1. *)
Lemma upsert_product_then_fetch_witness :
  forallb int64 [1; 9; 3; 4]%Z = true /\ is_nan 2%float = false
  /\ exists cur',
       upsert_product 20 Sample.store 1 (lit "A1") (lit "Lamp II") 9 2%float
         3 4 = Ok cur'
       /\ fetch_product cur' 2 (lit "A1") = fetch_product Sample.store 2 (lit "A1").
Proof.
  split; [reflexivity|]. split; [reflexivity|].
  destruct (@upsert_product_then_fetch 20 Sample.store 1 (lit "A1")
              (lit "Lamp II") 9 2%float 3 4 eq_refl eq_refl)
    as [cur' [E [_ [Hother _]]]].
  exists cur'. split; [exact E|].
  apply Hother. discriminate.
Defined.

(** ** Deleting a product *)

(** After [delete_product_and_sales] for (user, sku): [fetch_product]
    finds no row for the pair and no month of the SKU has a fact any more;
    every other (user, sku) pair keeps its product and its facts. *)
Theorem delete_product_removes_its_facts
  (cur : db) (user_id : Z) (sku : str) :
  fetch_product (delete_product_and_sales cur user_id sku) user_id sku = None
  /\ (forall y m,
       fetch_month_units (delete_product_and_sales cur user_id sku)
         user_id sku y m = None)
  /\ (forall u' s',
       (u', s') <> (user_id, sku) ->
       fetch_product (delete_product_and_sales cur user_id sku) u' s'
       = fetch_product cur u' s'
       /\ forall y m,
            fetch_month_units (delete_product_and_sales cur user_id sku)
              u' s' y m
            = fetch_month_units cur u' s' y m).
Proof.
  unfold fetch_product, fetch_month_units, delete_product_and_sales.
  cbn [products monthly_sales].
  split; [apply find_rejected|]. split.
  - intros y m.
    destruct (find (sale_at user_id sku y m) _) as [r|] eqn:Hf;
      [|reflexivity].
    apply find_some in Hf as [Hin Hp].
    apply filter_In in Hin as [_ Hkeep].
    unfold sale_at in Hp. rewrite !andb_true_iff in Hp.
    destruct Hp as [[Hof _] _]. rewrite Hof in Hkeep. discriminate.
  - intros u' s' Hne. split.
    + apply find_filter. intros r Hp.
      erewrite product_at_distinct by eassumption. reflexivity.
    + intros y m. rewrite find_filter; [reflexivity|].
      intros r Hp. unfold sale_at in Hp. rewrite !andb_true_iff in Hp.
      destruct Hp as [[Hof _] _]. apply sale_of_key in Hof.
      destruct (sale_of user_id sku r) eqn:E; [|reflexivity].
      apply sale_of_key in E. congruence.
Qed.

(** ** Deleting one month *)

Lemma filter_keeps_all (A : Type) (g : A -> bool) (l : list A) :
  (forall x, In x l -> g x = true) -> filter g l = l.
Proof.
  induction l as [|x l IH]; intro H; simpl; [reflexivity|].
  rewrite (H x (or_introl eq_refl)), IH; [reflexivity|].
  intros y Hy. apply H. right. exact Hy.
Qed.

(** After [delete_single_month_sale] for (user, sku, year, month) that
    month has no fact; every other month, SKU and user reads as before and
    the products are untouched; and when the month had no fact the store
    is left exactly as it was. *)
Theorem delete_single_month_removes_one_fact
  (cur : db) (user_id : Z) (sku : str) (year month : Z) :
  fetch_month_units (delete_single_month_sale cur user_id sku year month)
    user_id sku year month = None
  /\ (forall u' s' y' m',
       (u', s', y', m') <> (user_id, sku, year, month) ->
       fetch_month_units (delete_single_month_sale cur user_id sku year month)
         u' s' y' m'
       = fetch_month_units cur u' s' y' m')
  /\ products (delete_single_month_sale cur user_id sku year month)
     = products cur
  /\ (fetch_month_units cur user_id sku year month = None ->
      delete_single_month_sale cur user_id sku year month = cur).
Proof.
  unfold fetch_month_units, delete_single_month_sale.
  cbn [products monthly_sales].
  split; [rewrite find_rejected; reflexivity|]. split; [|split].
  - intros u' s' y' m' Hne. rewrite find_filter; [reflexivity|].
    intros r Hp. apply sale_at_sale_key in Hp.
    destruct (sale_at user_id sku year month r) eqn:E; [|reflexivity].
    apply sale_at_sale_key in E. congruence.
  - reflexivity.
  - intro Hnone.
    destruct (find (sale_at user_id sku year month) (monthly_sales cur))
      as [r|] eqn:Hf; [discriminate|].
    rewrite filter_keeps_all.
    + destruct cur. reflexivity.
    + intros r Hin. rewrite (find_none _ _ Hf r Hin). reflexivity.
Qed.

(** ** What holds in every store the application can reach *)

Lemma distinct_after_filter (A B : Type) (key : A -> B) (keep : A -> bool)
  (rows : list A) :
  NoDup (map key rows) -> NoDup (map key (filter keep rows)).
Proof.
  intro Hnd. induction rows as [|r rows IH]; [constructor|].
  simpl in Hnd. apply NoDup_cons_iff in Hnd as [Hfresh Hrest].
  simpl. destruct (keep r); [|exact (IH Hrest)].
  simpl. apply NoDup_cons_iff. split; [|exact (IH Hrest)].
  rewrite in_map_iff. intros [r' [Hkey Hin']]. apply Hfresh.
  rewrite in_map_iff. exists r'. split; [exact Hkey|].
  apply filter_In in Hin'. tauto.
Qed.

Lemma all_after_filter (A B : Type) (key : A -> B) (P : B -> Prop)
  (keep : A -> bool) (rows : list A) :
  Forall P (map key rows) -> Forall P (map key (filter keep rows)).
Proof.
  rewrite !Forall_forall. intros H b Hb. apply H.
  apply in_map_iff in Hb as [r [Hk Hin]]. apply filter_In in Hin.
  apply in_map_iff. exists r. tauto.
Qed.

Lemma distinct_snoc (A : Type) (l : list A) (x : A) :
  NoDup l -> ~ In x l -> NoDup (l ++ [x]).
Proof.
  intros Hl Hx. apply NoDup_app; [exact Hl|repeat constructor; intros []|].
  intros y Hy [E|[]]. subst y. exact (Hx Hy).
Qed.

Lemma ids_fresh_snoc (ids : list Z) (counter : Z) :
  ids_fresh ids counter -> ids_fresh (ids ++ [counter + 1]%Z) (counter + 1).
Proof.
  intros [Hnd [Hall Hc]]. split; [|split; [|lia]].
  - apply distinct_snoc; [exact Hnd|].
    intro Hin. rewrite Forall_forall in Hall. apply Hall in Hin. lia.
  - apply Forall_app. split.
    + eapply Forall_impl; [|exact Hall]. intros i Hi. simpl in Hi. lia.
    + constructor; [lia|constructor].
Qed.

Lemma ids_fresh_filter (A : Type) (id : A -> Z) (keep : A -> bool)
  (rows : list A) (counter : Z) :
  ids_fresh (map id rows) counter ->
  ids_fresh (map id (filter keep rows)) counter.
Proof.
  intros [Hnd [Hall Hc]]. split; [|split; [|exact Hc]].
  - apply distinct_after_filter. exact Hnd.
  - apply all_after_filter. exact Hall.
Qed.

Lemma rewrite_sale_key now u s y m v r :
  sale_key (rewrite_sale now u s y m v r) = sale_key r.
Proof.
  unfold rewrite_sale. destruct (sale_at u s y m r); reflexivity.
Qed.

Lemma rewrite_sale_id now u s y m v r :
  Sale.id (rewrite_sale now u s y m v r) = Sale.id r.
Proof.
  unfold rewrite_sale. destruct (sale_at u s y m r); reflexivity.
Qed.

(** A statement that finds its row in conflict moves the counter past
    an id it gives to no row. *)
Lemma ids_fresh_skip (ids : list Z) (counter : Z) :
  ids_fresh ids counter -> ids_fresh ids (counter + 1).
Proof.
  intros [Hnd [Hall Hc]]. split; [exact Hnd|]. split; [|lia].
  eapply Forall_impl; [|exact Hall]. intros i Hi. simpl in Hi. lia.
Qed.

Lemma upsert_product_well_kept now cur u s name lt z fba inb cur' :
  well_kept cur ->
  upsert_product now cur u s name lt z fba inb = Ok cur' ->
  well_kept cur'.
Proof.
  intros [Hu [Hc [Hp Hs]]] E.
  apply upsert_product_inv in E as [_ [_ [P [Q [S T]]]]].
  unfold well_kept, sales_unique, sales_checked. rewrite P, Q, S, T.
  split; [exact Hu|]. split; [exact Hc|]. split; [|exact Hs].
  destruct (existsb (product_at u s) (products cur)).
  - rewrite map_rewrite_product_id. apply ids_fresh_skip. exact Hp.
  - rewrite map_app. cbn [map Product.id]. apply ids_fresh_snoc. exact Hp.
Qed.

Lemma triple_error_none (u y m v : Z) :
  triple_error u (y, m, v) = None ->
  forallb int64 [u; y; m; v] = true /\ (1 <= m <= 12)%Z /\ (0 <= v)%Z.
Proof.
  unfold triple_error.
  destruct (forallb int64 [u; y; m; v]); [|discriminate]. cbn [negb].
  destruct (sale_checks m v) eqn:Hchk; [|discriminate]. intros _.
  unfold sale_checks in Hchk. rewrite !andb_true_iff in Hchk.
  destruct Hchk as [[Hm1 Hm2] Hv].
  apply Z.leb_le in Hm1, Hm2, Hv. split; [reflexivity|]. lia.
Qed.

Lemma execute_upsert_sale_well_kept now cur u s y m v cur' :
  well_kept cur ->
  execute_upsert_sale now cur u s y m v = Ok cur' ->
  well_kept cur'.
Proof.
  intros [Hu [Hc [Hp Hs]]] E.
  apply execute_upsert_sale_inv in E as [Herr [P [Q [S T]]]].
  apply triple_error_none in Herr as [_ [Hm Hv]].
  unfold well_kept, sales_unique, sales_checked. rewrite P, Q, S, T.
  destruct (existsb (sale_at u s y m) (monthly_sales cur)) eqn:Hex.
  - split; [|split; [|split; [exact Hp|]]].
    + rewrite map_map. erewrite map_ext; [exact Hu|].
      intro r. apply rewrite_sale_key.
    + unfold sales_checked in Hc. rewrite Forall_forall in *.
      intros r' Hin. apply in_map_iff in Hin as [r [<- Hin]].
      specialize (Hc r Hin). unfold rewrite_sale.
      destruct (sale_at u s y m r); cbn; [|exact Hc]. split; [tauto|lia].
    + rewrite map_map.
      erewrite map_ext; [apply ids_fresh_skip; exact Hs|].
      intro r. apply rewrite_sale_id.
  - split; [|split; [|split; [exact Hp|]]].
    + rewrite map_app. apply distinct_snoc; [exact Hu|].
      intro Hin. apply in_map_iff in Hin as [r [Hk Hin]].
      assert (existsb (sale_at u s y m) (monthly_sales cur) = true).
      { apply existsb_exists. exists r. split; [exact Hin|].
        apply sale_at_sale_key. exact Hk. }
      congruence.
    + apply Forall_app. split; [exact Hc|].
      constructor; [cbn; lia|constructor].
    + rewrite map_app. apply ids_fresh_snoc. exact Hs.
Qed.

Lemma upsert_sales_loop_well_kept now u s (triples : list (Z * Z * Z)) :
  forall cur cur',
  well_kept cur ->
  upsert_sales_loop now cur u s triples = Ok cur' ->
  well_kept cur'.
Proof.
  induction triples as [|[[y m] v] rest IH]; intros cur cur' Hk.
  - simpl. intro E. injection E as <-. exact Hk.
  - cbn [upsert_sales_loop].
    destruct (execute_upsert_sale now cur u s y m v) as [cur1|e] eqn:E1;
      simpl; [|discriminate].
    apply IH. eapply execute_upsert_sale_well_kept; eassumption.
Qed.

Lemma run_well_kept now u c cur cur' :
  well_kept cur -> run now u c cur = Ok cur' -> well_kept cur'.
Proof.
  intros Hk. destruct c as [s name lt z fba inb|s ys ms us|s|s y m]; simpl.
  - apply upsert_product_well_kept. exact Hk.
  - apply upsert_sales_loop_well_kept. exact Hk.
  - intro E. injection E as <-. destruct Hk as [Hu [Hc [Hp Hs]]].
    unfold well_kept, sales_unique, sales_checked, delete_product_and_sales.
    cbn [products products_seq monthly_sales monthly_sales_seq].
    split; [apply distinct_after_filter; exact Hu|].
    split; [|split; apply ids_fresh_filter; assumption].
    unfold sales_checked in Hc. rewrite Forall_forall in *.
    intros r Hin. apply filter_In in Hin. apply Hc. tauto.
  - intro E. injection E as <-. destruct Hk as [Hu [Hc [Hp Hs]]].
    unfold well_kept, sales_unique, sales_checked, delete_single_month_sale.
    cbn [products products_seq monthly_sales monthly_sales_seq].
    split; [apply distinct_after_filter; exact Hu|].
    split; [|split; [exact Hp|apply ids_fresh_filter; exact Hs]].
    unfold sales_checked in Hc. rewrite Forall_forall in *.
    intros r Hin. apply filter_In in Hin. apply Hc. tauto.
Qed.

Lemma reachable_well_kept (cur : db) : reachable cur -> well_kept cur.
Proof.
  induction 1 as [|now u c cur cur' _ IH Hrun].
  - unfold well_kept, sales_unique, sales_checked, ids_fresh. simpl.
    repeat split; constructor || lia.
  - eapply run_well_kept; eassumption.
Qed.

(** In every store the application can reach, a (user, sku, year, month)
    has at most one fact, and every fact passes the CHECK constraints:
    whenever [fetch_month_units] returns a number, the month asked for is a
    calendar month and the number is not negative. *)
Theorem stored_facts_are_unique_and_checked (cur : db) :
  reachable cur ->
  sales_unique cur /\ sales_checked cur
  /\ forall user_id sku y m v,
       fetch_month_units cur user_id sku y m = Some v ->
       (1 <= m <= 12)%Z /\ (0 <= v)%Z.
Proof.
  intro Hr. destruct (reachable_well_kept Hr) as [Hu [Hc _]].
  split; [exact Hu|]. split; [exact Hc|].
  intros user_id sku y m v. unfold fetch_month_units.
  destruct (find (sale_at user_id sku y m) (monthly_sales cur)) as [r|] eqn:Hf;
    [|discriminate].
  intro E. injection E as <-. apply find_some in Hf as [Hin Hp].
  unfold sales_checked in Hc. rewrite Forall_forall in Hc.
  specialize (Hc r Hin). apply sale_at_sale_key in Hp.
  unfold sale_key in Hp. injection Hp as _ _ _ Hm. subst m. exact Hc.
Qed.

(** On the empty store after one batch of sales. *)
Lemma stored_facts_are_unique_and_checked_witness :
  reachable (mk_db [] 0 [Sale.mk 1 1 (lit "A1") 2024 1 5 5] 1)
  /\ sales_unique (mk_db [] 0 [Sale.mk 1 1 (lit "A1") 2024 1 5 5] 1).
Proof.
  assert (Hr : reachable (mk_db [] 0 [Sale.mk 1 1 (lit "A1") 2024 1 5 5] 1)).
  { apply (@reachable_run 5 1
             (UpsertMonthlySales (lit "A1") [2024; 2024; 2023]%Z [1; 2]%Z
                [5]%Z) init_db _ reachable_init).
    reflexivity. }
  split; [exact Hr|].
  exact (proj1 (@stored_facts_are_unique_and_checked _ Hr)).
Defined.

(** ** Row ids *)

Lemma upsert_product_ids now cur u s name lt z fba inb cur' :
  upsert_product now cur u s name lt z fba inb = Ok cur' ->
  forall i, In i (map Product.id (products cur')) ->
            In i (map Product.id (products cur)) \/ (products_seq cur < i)%Z.
Proof.
  intros E i. apply upsert_product_inv in E as [_ [_ [P _]]]. rewrite P.
  destruct (existsb (product_at u s) (products cur)).
  - rewrite map_rewrite_product_id. tauto.
  - rewrite map_app, in_app_iff. cbn. intros [Hin|[<-|[]]]; [tauto|lia].
Qed.

Lemma execute_upsert_sale_ids now cur u s y m v cur' :
  execute_upsert_sale now cur u s y m v = Ok cur' ->
  forall i, In i (map Sale.id (monthly_sales cur')) ->
            In i (map Sale.id (monthly_sales cur))
            \/ (monthly_sales_seq cur < i)%Z.
Proof.
  intros E i. apply execute_upsert_sale_inv in E as [_ [_ [_ [S _]]]].
  rewrite S. destruct (existsb (sale_at u s y m) (monthly_sales cur)).
  - rewrite map_map, (map_ext _ _ (rewrite_sale_id now u s y m v)). tauto.
  - rewrite map_app, in_app_iff. cbn. intros [Hin|[<-|[]]]; [tauto|lia].
Qed.

Lemma upsert_sales_loop_ids now u s (triples : list (Z * Z * Z)) :
  forall cur cur',
  upsert_sales_loop now cur u s triples = Ok cur' ->
  products cur' = products cur
  /\ products_seq cur' = products_seq cur
  /\ monthly_sales_seq cur'
     = (monthly_sales_seq cur + Z.of_nat (List.length triples))%Z
  /\ forall i, In i (map Sale.id (monthly_sales cur')) ->
               In i (map Sale.id (monthly_sales cur))
               \/ (monthly_sales_seq cur < i)%Z.
Proof.
  induction triples as [|[[y m] v] rest IH]; intros cur cur'.
  - simpl. intro E. injection E as <-.
    repeat split; try reflexivity; [lia|tauto].
  - cbn [upsert_sales_loop].
    destruct (execute_upsert_sale now cur u s y m v) as [cur1|e] eqn:E1;
      simpl; [|discriminate].
    intro E2. destruct (IH _ _ E2) as [P2 [Q2 [S2 I2]]].
    pose proof (execute_upsert_sale_ids _ _ _ _ _ _ _ E1) as I1.
    apply execute_upsert_sale_inv in E1 as [_ [P1 [Q1 [_ S1]]]].
    split; [congruence|]. split; [congruence|]. split; [lia|].
    intros i Hi. destruct (I2 i Hi) as [Hin|Hlt]; [|right; lia].
    exact (I1 i Hin).
Qed.

Lemma filter_ids (A : Type) (id : A -> Z) (keep : A -> bool)
  (rows : list A) (counter i : Z) :
  In i (map id (filter keep rows)) ->
  In i (map id rows) \/ (counter < i)%Z.
Proof.
  intro Hin. left. apply in_map_iff in Hin as [r [<- Hr]].
  apply filter_In in Hr. apply in_map. tauto.
Qed.

Lemma run_ids now u c cur cur' :
  run now u c cur = Ok cur' ->
  (products_seq cur <= products_seq cur')%Z
  /\ (monthly_sales_seq cur <= monthly_sales_seq cur')%Z
  /\ (forall i, In i (map Product.id (products cur')) ->
                In i (map Product.id (products cur))
                \/ (products_seq cur < i)%Z)
  /\ (forall i, In i (map Sale.id (monthly_sales cur')) ->
                In i (map Sale.id (monthly_sales cur))
                \/ (monthly_sales_seq cur < i)%Z).
Proof.
  destruct c as [s name lt z fba inb|s ys ms us|s|s y m]; simpl; intro E.
  - pose proof (upsert_product_ids _ _ _ _ _ _ _ _ _ E) as I.
    apply upsert_product_inv in E as [_ [_ [_ [Q [S T]]]]].
    rewrite S. split; [lia|]. split; [lia|]. split; [exact I|tauto].
  - apply upsert_sales_loop_ids in E as [P [Q [S I]]].
    rewrite P. split; [lia|]. split; [lia|]. split; [tauto|exact I].
  - injection E as <-. unfold delete_product_and_sales.
    cbn [products products_seq monthly_sales monthly_sales_seq].
    split; [lia|]. split; [lia|]. split; intro i; apply filter_ids.
  - injection E as <-. unfold delete_single_month_sale.
    cbn [products products_seq monthly_sales monthly_sales_seq].
    split; [lia|]. split; [lia|]. split; [tauto|intro i; apply filter_ids].
Qed.

(** In every store the application can reach, the row ids of each table
    are positive, pairwise distinct and not above the table's counter; no
    command lowers a counter, and after a command every row carries an id
    its table held before the command or an id above the counter of
    before: an id that was given out once (even to a row deleted since,
    or skipped by a write that found its row) is never given out
    again. *)
Theorem row_ids_are_never_reused (cur : db) :
  reachable cur ->
  ids_fresh (map Product.id (products cur)) (products_seq cur)
  /\ ids_fresh (map Sale.id (monthly_sales cur)) (monthly_sales_seq cur)
  /\ forall now user_id c cur',
       run now user_id c cur = Ok cur' ->
       (products_seq cur <= products_seq cur')%Z
       /\ (monthly_sales_seq cur <= monthly_sales_seq cur')%Z
       /\ ids_fresh (map Product.id (products cur')) (products_seq cur')
       /\ ids_fresh (map Sale.id (monthly_sales cur'))
            (monthly_sales_seq cur')
       /\ (forall i, In i (map Product.id (products cur')) ->
                     In i (map Product.id (products cur))
                     \/ (products_seq cur < i)%Z)
       /\ (forall i, In i (map Sale.id (monthly_sales cur')) ->
                     In i (map Sale.id (monthly_sales cur))
                     \/ (monthly_sales_seq cur < i)%Z).
Proof.
  intro Hr. pose proof (reachable_well_kept Hr) as Hk.
  destruct Hk as [_ [_ [Hp Hs]]].
  split; [exact Hp|]. split; [exact Hs|].
  intros now user_id c cur' Hrun.
  assert (Hk' : well_kept cur')
    by (eapply reachable_well_kept, reachable_run; eassumption).
  destruct Hk' as [_ [_ [Hp' Hs']]].
  destruct (run_ids _ _ _ _ Hrun) as [Hc1 [Hc2 [I1 I2]]].
  split; [exact Hc1|]. split; [exact Hc2|]. split; [exact Hp'|].
  split; [exact Hs'|]. split; assumption.
Qed.

(** A product written twice, then deleted: the table is empty, its
    counter is 2, and the next product gets the id 3. *)
Lemma row_ids_are_never_reused_witness :
  reachable (mk_db [] 2 [] 0)
  /\ exists cur',
       run 4 1 (UpsertProduct (lit "B2") (lit "Desk") 7 2%float 1 0)
         (mk_db [] 2 [] 0) = Ok cur'
       /\ map Product.id (products cur') = [3%Z]
       /\ (products_seq (mk_db [] 2 [] 0) <= products_seq cur')%Z.
Proof.
  assert (Hr : reachable (mk_db [] 2 [] 0)).
  { apply (@reachable_run 3 1 (DeleteProductAndSales (lit "A1"))
             (mk_db [Product.mk 1 1 (lit "A1") (lit "Lamp II") 9 2%float 3 4 2]
                2 [] 0)); [|reflexivity].
    apply (@reachable_run 2 1
             (UpsertProduct (lit "A1") (lit "Lamp II") 9 2%float 3 4)
             (mk_db [Product.mk 1 1 (lit "A1") (lit "Lamp") 7 2%float 0 0 1]
                1 [] 0)); [|reflexivity].
    apply (@reachable_run 1 1
             (UpsertProduct (lit "A1") (lit "Lamp") 7 2%float 0 0)
             init_db _ reachable_init).
    reflexivity. }
  split; [exact Hr|].
  eexists. split; [reflexivity|]. split; [reflexivity|].
  exact (proj1 (proj2 (proj2 (@row_ids_are_never_reused _ Hr)) 4%Z 1%Z
           (UpsertProduct (lit "B2") (lit "Desk") 7 2%float 1 0) _ eq_refl)).
Defined.

(** ** Submitting the same batch again *)

Lemma fetch_month_units_present cur u s y m :
  fetch_month_units cur u s y m <> None ->
  existsb (sale_at u s y m) (monthly_sales cur) = true.
Proof.
  unfold fetch_month_units. intro H.
  destruct (existsb (sale_at u s y m) (monthly_sales cur)) eqn:E;
    [reflexivity|].
  rewrite (find_none_existsb _ _ E) in H. congruence.
Qed.

Lemma paired_units_of_member y m v (triples : list (Z * Z * Z)) :
  In (y, m, v) triples -> paired_units y m triples <> None.
Proof.
  induction triples as [|[[y0 m0] v0] rest IH]; [intros []|].
  intros [E|Hin]; cbn [paired_units].
  - injection E as -> -> ->.
    destruct (paired_units y m rest); [discriminate|].
    rewrite !Z.eqb_refl. discriminate.
  - specialize (IH Hin).
    destruct (paired_units y m rest); [discriminate|congruence].
Qed.

Lemma upsert_sales_loop_on_present now u s (triples : list (Z * Z * Z)) :
  forall cur,
  first_error u triples = None ->
  (forall y m v, In (y, m, v) triples ->
                 fetch_month_units cur u s y m <> None) ->
  exists cur',
    upsert_sales_loop now cur u s triples = Ok cur'
    /\ map Sale.id (monthly_sales cur') = map Sale.id (monthly_sales cur).
Proof.
  induction triples as [|[[y0 m0] v0] rest IH]; intros cur Hv Hpresent.
  - exists cur. split; reflexivity.
  - cbn [first_error] in Hv.
    destruct (triple_error u (y0, m0, v0)) eqn:Hc; [discriminate|].
    destruct (execute_upsert_sale_reads now cur u s y0 m0 v0 Hc)
      as [cur1 [E1 [_ F1]]].
    assert (Hids : map Sale.id (monthly_sales cur1)
                   = map Sale.id (monthly_sales cur)).
    { apply execute_upsert_sale_inv in E1 as [_ [_ [_ [S1 _]]]].
      rewrite S1.
      rewrite (@fetch_month_units_present cur u s y0 m0
                 (Hpresent y0 m0 v0 (or_introl eq_refl))).
      rewrite map_map. apply map_ext. intro r. apply rewrite_sale_id. }
    destruct (IH cur1 Hv) as [cur2 [E2 L2]].
    { intros y m v Hin. rewrite F1.
      destruct ((y0 =? y) && (m0 =? m))%Z; [discriminate|].
      apply (Hpresent y m v). right. exact Hin. }
    exists cur2. split; [|congruence].
    cbn [upsert_sales_loop]. rewrite E1. exact E2.
Qed.

(** Submitting a batch of sales that the store accepts (every paired
    triple within 64 bits and the CHECKs) a second time, at any later
    moment, succeeds again and changes nothing one can read: every month
    reads as after the first submission, no row is added and the rows
    keep their ids, and the products are untouched. Only the table's
    counter moves, by one for each paired triple. *)
Theorem upsert_monthly_sales_again_changes_nothing
  (now1 now2 : Z) (cur : db) (user_id : Z) (sku : str)
  (years months units_sold : list Z) :
  first_error user_id (zip3 years months units_sold) = None ->
  exists cur1 cur2,
    upsert_monthly_sales now1 cur user_id sku years months units_sold
    = Ok cur1
    /\ upsert_monthly_sales now2 cur1 user_id sku years months units_sold
       = Ok cur2
    /\ (forall y m,
         fetch_month_units cur2 user_id sku y m
         = fetch_month_units cur1 user_id sku y m)
    /\ List.length (monthly_sales cur2) = List.length (monthly_sales cur1)
    /\ map Sale.id (monthly_sales cur2) = map Sale.id (monthly_sales cur1)
    /\ products cur2 = products cur
    /\ monthly_sales_seq cur2
       = (monthly_sales_seq cur1
          + Z.of_nat (List.length (zip3 years months units_sold)))%Z.
Proof.
  intro Hv. unfold upsert_monthly_sales.
  set (triples := zip3 years months units_sold) in *.
  destruct (upsert_sales_loop_valid now1 user_id sku triples cur Hv)
    as [cur1 [E1 [P1 F1]]].
  destruct (upsert_sales_loop_valid now2 user_id sku triples cur1 Hv)
    as [cur2 [E2 [P2 F2]]].
  destruct (upsert_sales_loop_on_present now2 user_id sku triples cur1 Hv)
    as [cur2' [E2' L2]].
  { intros y m v Hin. rewrite F1.
    pose proof (@paired_units_of_member y m v triples Hin) as Hp.
    destruct (paired_units y m triples); [discriminate|congruence]. }
  assert (cur2' = cur2) by congruence. subst cur2'.
  exists cur1, cur2. split; [exact E1|]. split; [exact E2|].
  split.
  { intros y m. rewrite F2, F1.
    destruct (paired_units y m triples); reflexivity. }
  split.
  { rewrite <- (length_map Sale.id (monthly_sales cur2)), L2.
    apply length_map. }
  split; [exact L2|]. split; [congruence|].
  apply upsert_sales_loop_ids in E2. tauto.
Qed.

(** Two months of sales, submitted twice. *)
Lemma upsert_monthly_sales_again_changes_nothing_witness :
  first_error 1 (zip3 [2024; 2024]%Z [1; 2]%Z [5; 6]%Z) = None
  /\ exists cur1 cur2,
       upsert_monthly_sales 1 init_db 1 (lit "A1") [2024; 2024]%Z [1; 2]%Z
         [5; 6]%Z = Ok cur1
       /\ upsert_monthly_sales 2 cur1 1 (lit "A1") [2024; 2024]%Z [1; 2]%Z
            [5; 6]%Z = Ok cur2
       /\ List.length (monthly_sales cur2) = List.length (monthly_sales cur1)
       /\ monthly_sales_seq cur2
          = (monthly_sales_seq cur1
             + Z.of_nat (List.length (zip3 [2024; 2024] [1; 2] [5; 6])))%Z.
Proof.
  split; [reflexivity|].
  destruct (@upsert_monthly_sales_again_changes_nothing 1 2 init_db 1
              (lit "A1") [2024; 2024]%Z [1; 2]%Z [5; 6]%Z eq_refl)
    as [cur1 [cur2 [E1 [E2 [_ [L [_ [_ C]]]]]]]].
  exists cur1, cur2. repeat split; assumption.
Defined.

Lemma first_error_kind (u : Z) (triples : list (Z * Z * Z)) (e : exn) :
  first_error u triples = Some e -> e = OverflowError \/ e = IntegrityError.
Proof.
  induction triples as [|[[y m] v] rest IH]; [discriminate|].
  cbn [first_error]. destruct (triple_error u (y, m, v)) as [e0|] eqn:Ht.
  - intro E. injection E as <-. unfold triple_error in Ht.
    destruct (negb (forallb int64 [u; y; m; v]));
      [injection Ht as <-; tauto|].
    destruct (negb (sale_checks m v)); [injection Ht as <-; tauto|].
    discriminate.
  - exact IH.
Qed.

(** ** What a stored row can hold *)







End StoreMoreFacts.

(* ================================================================== *)
(** * Further properties of the session cookie and the session boundary *)

Section SessionMoreFacts.

Import Auth Http.

Variable get_signature : str -> str.
Variable verify_signature : str -> str -> bool.
Variable dump_payload : json -> str.
Variable load_payload : str -> option json.
Variable encode_timestamp : Z -> str.
Variable decode_timestamp : str -> option Z.

Lemma unsign_of_dumps (issued now : Z) (obj : json) :
  verify_signature (dump_payload obj ++ [sep] ++ encode_timestamp issued)
    (get_signature (dump_payload obj ++ [sep] ++ encode_timestamp issued))
  = true ->
  ~ In sep (get_signature
              (dump_payload obj ++ [sep] ++ encode_timestamp issued)) ->
  ~ In sep (encode_timestamp issued) ->
  decode_timestamp (encode_timestamp issued) = Some issued ->
  unsign verify_signature decode_timestamp now SESSION_MAX_AGE
    (dumps get_signature dump_payload encode_timestamp issued obj)
  = if (SESSION_MAX_AGE <? now - issued)%Z then Raise SignatureExpired
    else if (now - issued <? 0)%Z then Raise SignatureExpired
    else Ok (dump_payload obj).
Proof.
  intros Hv Hsig Hts Hdec. unfold unsign, dumps.
  rewrite (@rsplit_sep_last get_signature verify_signature load_payload
             decode_timestamp) by exact Hsig.
  rewrite Hv.
  rewrite (@rsplit_sep_last get_signature verify_signature load_payload
             decode_timestamp) by exact Hts.
  rewrite Hdec. reflexivity.
Qed.

(** A cookie made for a user at time [issued] is accepted from that
    moment until exactly 30 days later, and at no other time: read
    earlier than its issue time or more than [SESSION_MAX_AGE] seconds
    after it, it decodes to [None] (the serializer's codings being assumed
    to round-trip as for the round trip itself). *)
Theorem session_cookie_validity_window (issued now user_id : Z) :
  verify_signature
    (dump_payload (JInt user_id) ++ [sep] ++ encode_timestamp issued)
    (get_signature
       (dump_payload (JInt user_id) ++ [sep] ++ encode_timestamp issued))
  = true ->
  ~ In sep (get_signature
              (dump_payload (JInt user_id) ++ [sep]
               ++ encode_timestamp issued)) ->
  ~ In sep (encode_timestamp issued) ->
  decode_timestamp (encode_timestamp issued) = Some issued ->
  load_payload (dump_payload (JInt user_id)) = Some (JInt user_id) ->
  decode_session_cookie verify_signature load_payload decode_timestamp now
    (make_session_cookie get_signature dump_payload encode_timestamp
       issued user_id)
  = if ((issued <=? now) && (now <=? issued + SESSION_MAX_AGE))%Z
    then Ok (Some user_id)
    else Ok None.
Proof.
  intros Hv Hsig Hts Hdec Hload.
  unfold decode_session_cookie, make_session_cookie, loads.
  rewrite (@unsign_of_dumps issued now (JInt user_id) Hv Hsig Hts Hdec).
  destruct (Z.ltb_spec SESSION_MAX_AGE (now - issued)) as [Hold|Hold];
    destruct (Z.ltb_spec (now - issued) 0) as [Hneg|Hneg];
    destruct (Z.leb_spec issued now) as [H1|H1];
    destruct (Z.leb_spec now (issued + SESSION_MAX_AGE)) as [H2|H2];
    try lia; cbn; try reflexivity.
  rewrite Hload. reflexivity.
Qed.

(** Whatever the token, when [decode_session_cookie] returns a user id
    the token's signature verifies, it embeds a timestamp that is neither
    in the future nor more than 30 days old, and the id is what [int]
    makes of its signed payload (an integer, a boolean, a finite float or
    a string of digits). *)
Theorem decoded_user_id_is_signed_and_fresh (now : Z) (token : str) (uid : Z) :
  decode_session_cookie verify_signature load_payload decode_timestamp
    now token = Ok (Some uid) ->
  signature_ok verify_signature token = true
  /\ (exists ts,
       embedded_timestamp decode_timestamp token = Some ts
       /\ (0 <= now - ts <= SESSION_MAX_AGE)%Z)
  /\ (exists signed sig value ts_bytes obj,
       rsplit_sep token = Some (signed, sig)
       /\ rsplit_sep signed = Some (value, ts_bytes)
       /\ load_payload value = Some obj
       /\ int_of obj = Ok uid).
Proof.
  unfold decode_session_cookie, loads, unsign, signature_ok,
    embedded_timestamp.
  destruct (rsplit_sep token) as [[signed sig]|] eqn:Htok; [|discriminate].
  destruct (verify_signature signed sig);
    [|destruct (rsplit_sep signed) as [[? ?]|]; discriminate].
  destruct (rsplit_sep signed) as [[value ts_bytes]|] eqn:Hsigned;
    [|discriminate].
  destruct (decode_timestamp ts_bytes) as [ts|]; [|discriminate].
  destruct (Z.ltb_spec SESSION_MAX_AGE (now - ts)) as [|Hold]; [discriminate|].
  destruct (Z.ltb_spec (now - ts) 0) as [|Hneg]; [discriminate|].
  cbn [bind].
  destruct (load_payload value) as [obj|] eqn:Hload; [|discriminate].
  cbn [bind].
  destruct (int_of obj) as [z|e] eqn:Hint.
  - intro E. injection E as <-. split; [reflexivity|]. split.
    + exists ts. split; [reflexivity|lia].
    + exists signed, sig, value, ts_bytes, obj.
      repeat split; reflexivity || assumption.
  - destruct (except_matches _ e); discriminate.
Qed.

Lemma rejected_cookie_has_no_user (now : Z) (session : option str) :
  (falsy session = true
   \/ exists token,
        session = Some token
        /\ (signature_ok verify_signature token = false
            \/ exists ts,
                 embedded_timestamp decode_timestamp token = Some ts
                 /\ (SESSION_MAX_AGE < now - ts)%Z)) ->
  _current_user_id verify_signature load_payload decode_timestamp now session
  = Ok None.
Proof.
  intro H. unfold _current_user_id. destruct H as [Hf|[token [-> Hbad]]].
  - destruct session as [token|]; [|reflexivity]. rewrite Hf. reflexivity.
  - destruct (falsy (Some token)); [reflexivity|].
    destruct Hbad as [Hsig|[ts [Hts Hold]]].
    + apply decode_bad_signature. exact Hsig.
    + eapply decode_expired; eassumption.
Qed.

(** A request whose cookie is missing, empty, wrongly signed or expired
    is treated as logged out by every helper: [_current_user_id] gives
    [None], [_require_user] raises the 303 redirect to the login page,
    [_get_user_or_redirect] returns the 302 redirect, and
    [get_current_user] raises 401. *)
Theorem rejected_cookies_are_logged_out (now : Z) (session : option str) :
  (falsy session = true
   \/ exists token,
        session = Some token
        /\ (signature_ok verify_signature token = false
            \/ exists ts,
                 embedded_timestamp decode_timestamp token = Some ts
                 /\ (SESSION_MAX_AGE < now - ts)%Z)) ->
  _current_user_id verify_signature load_payload decode_timestamp now session
  = Ok None
  /\ _require_user verify_signature load_payload decode_timestamp now session
     = HTTPException 303 (Some ToLogin)
  /\ _get_user_or_redirect verify_signature load_payload decode_timestamp
       now session
     = Returned (inr (RedirectResponse ToLogin 302 None))
  /\ get_current_user verify_signature load_payload decode_timestamp
       now session
     = HTTPException 401 None.
Proof.
  intro H.
  pose proof (@rejected_cookie_has_no_user now session H) as Hcur.
  split; [exact Hcur|].
  unfold _require_user, _get_user_or_redirect. rewrite Hcur.
  split; [reflexivity|]. split; [reflexivity|].
  unfold get_current_user. unfold _current_user_id in Hcur.
  destruct session as [token|]; [|reflexivity].
  destruct (falsy (Some token)); [reflexivity|].
  rewrite Hcur. reflexivity.
Qed.

End SessionMoreFacts.

Section SessionMoreExamples.

Import Auth Http.

(** With the toy signer: user 42, read 30 days after issue to the second. *)
Lemma session_cookie_validity_window_witness :
  Sample.decode_cookie (1700000000 + SESSION_MAX_AGE)
    (Sample.make_cookie 1700000000 42)
  = Ok (Some 42%Z)
  /\ Sample.decode_cookie (1700000000 + SESSION_MAX_AGE + 1)
       (Sample.make_cookie 1700000000 42)
     = Ok None.
Proof.
  assert (W : forall now,
             Sample.decode_cookie now (Sample.make_cookie 1700000000 42)
             = if ((1700000000 <=? now)
                   && (now <=? 1700000000 + SESSION_MAX_AGE))%Z
               then Ok (Some 42%Z) else Ok None).
  { intro now.
    apply (@session_cookie_validity_window
             Sample.get_signature Sample.verify_signature Sample.dump_payload
             Sample.load_payload Sample.encode_timestamp
             Sample.decode_timestamp 1700000000 now 42).
    - vm_compute. reflexivity.
    - apply not_in_sep. vm_compute. reflexivity.
    - apply not_in_sep. vm_compute. reflexivity.
    - vm_compute. reflexivity.
    - vm_compute. reflexivity. }
  split; rewrite W; reflexivity.
Defined.

(** With the toy signer: a signed string of a digit between blanks, read
    a day after issue, is taken for user 7. *)
Lemma decoded_user_id_is_signed_and_fresh_witness :
  Sample.decode_cookie 1700086400
    (dumps Sample.get_signature Sample.dump_payload Sample.encode_timestamp
       1700000000 (JStr (lit " 7 ")))
  = Ok (Some 7%Z)
  /\ signature_ok Sample.verify_signature
       (dumps Sample.get_signature Sample.dump_payload
          Sample.encode_timestamp 1700000000 (JStr (lit " 7 ")))
     = true.
Proof.
  assert (E : Sample.decode_cookie 1700086400
                (dumps Sample.get_signature Sample.dump_payload
                   Sample.encode_timestamp 1700000000 (JStr (lit " 7 ")))
              = Ok (Some 7%Z))
    by (vm_compute; reflexivity).
  split; [exact E|].
  exact (proj1 (@decoded_user_id_is_signed_and_fresh
                  Sample.verify_signature Sample.load_payload
                  Sample.decode_timestamp 1700086400 _ 7 E)).
Defined.

(** What [int] makes of the payloads a signed token can carry. *)
Example int_of_payloads :
  int_of (JStr (lit "1_0")) = Ok 10%Z
  /\ int_of (JStr [32; 1639; 12288]%N) = Ok 7%Z
  /\ int_of (JStr (lit "1__0")) = Raise ValueError
  /\ int_of (JFloat (3 / 2)%float) = Ok 1%Z
  /\ int_of (JFloat (-3 / 2)%float) = Ok (-1)%Z
  /\ int_of (JFloat nan) = Raise ValueError
  /\ int_of (JFloat infinity) = Raise OverflowError
  /\ int_of (JBool true) = Ok 1%Z
  /\ int_of JNull = Raise TypeError.
Proof. vm_compute. repeat split. Qed.

(** With the toy signer: a signed [Infinity] raises [OverflowError], and
    its signature verifies. *)
Lemma decode_raises_only_witness :
  Sample.decode_cookie 1700086400
    (dumps Sample.get_signature Sample.dump_payload Sample.encode_timestamp
       1700000000 (JFloat infinity))
  = Raise OverflowError
  /\ signature_ok Sample.verify_signature
       (dumps Sample.get_signature Sample.dump_payload
          Sample.encode_timestamp 1700000000 (JFloat infinity))
     = true.
Proof.
  assert (E : Sample.decode_cookie 1700086400
                (dumps Sample.get_signature Sample.dump_payload
                   Sample.encode_timestamp 1700000000 (JFloat infinity))
              = Raise OverflowError)
    by (vm_compute; reflexivity).
  split; [exact E|].
  exact (proj1 (@decode_raises_only
                  Sample.get_signature Sample.verify_signature
                  Sample.dump_payload Sample.load_payload
                  Sample.encode_timestamp
                  Sample.decode_timestamp 1700086400 _ OverflowError E)).
Defined.

(** No cookie at all. *)
Lemma rejected_cookies_are_logged_out_witness :
  falsy None = true
  /\ _require_user Sample.verify_signature Sample.load_payload
       Sample.decode_timestamp 1700000000 None
     = HTTPException 303 (Some ToLogin).
Proof.
  split; [reflexivity|].
  exact (proj1 (proj2 (@rejected_cookies_are_logged_out
                         Sample.verify_signature Sample.load_payload
                         Sample.decode_timestamp 1700000000 None
                         (or_introl eq_refl)))).
Defined.

End SessionMoreExamples.

(* ================================================================== *)
(** * Properties of the accounts *)

Section AccountFacts.

Import Auth Users Schema.

Variable normalize : str -> str.
Variable salt : Type.
Variable ctx_hash : salt -> str -> str.
Variable ctx_verify : str -> str -> bool.

Lemma nocase_eqb_folded (s t : str) :
  nocase_eqb s t = true <-> map fold_case s = map fold_case t.
Proof. unfold nocase_eqb. apply str_eqb_eq. Qed.

Lemma nocase_eqb_same (s : str) : nocase_eqb s s = true.
Proof. apply nocase_eqb_folded. reflexivity. Qed.

Lemma nocase_eqb_chain (s t u : str) :
  nocase_eqb s t = true -> nocase_eqb u t = true -> nocase_eqb s u = true.
Proof.
  rewrite !nocase_eqb_folded. congruence.
Qed.

Lemma existsb_false_all (A : Type) (p : A -> bool) (l : list A) (x : A) :
  existsb p l = false -> In x l -> p x = false.
Proof.
  intros H Hin. destruct (p x) eqn:E; [|reflexivity].
  assert (existsb p l = true) by (apply existsb_exists; exists x; tauto).
  congruence.
Qed.

Lemma create_user_ok now fresh users address plain_password uid users' :
  create_user normalize ctx_hash now fresh users address plain_password
  = Ok (uid, users') ->
  existsb (email_is normalize address) (rows users) = false
  /\ uid = (seq users + 1)%Z
  /\ users'
     = mk_table
         (rows users ++
            [Users.mk uid (normalize address)
               (ctx_hash fresh (firstn 72 plain_password)) now])
         uid.
Proof.
  unfold create_user.
  destruct (existsb (email_is normalize address) (rows users));
    [discriminate|].
  intro E. injection E as <- <-. repeat split.
Qed.

Lemma create_user_then_find
  (now : Z) (fresh : salt) (users : table)
  (address plain_password spelling : str) (uid : Z) :
  existsb (email_is normalize address) (rows users) = false ->
  nocase_eqb (normalize address) (normalize spelling) = true ->
  find (email_is normalize spelling)
    (rows users ++
       [Users.mk uid (normalize address)
          (ctx_hash fresh (firstn 72 plain_password)) now])
  = Some (Users.mk uid (normalize address)
            (ctx_hash fresh (firstn 72 plain_password)) now).
Proof.
  intros Hnew Hsame. rewrite find_snoc.
  destruct (find (email_is normalize spelling) (rows users)) as [r|] eqn:Hf.
  - exfalso. apply find_some in Hf as [Hin Hr].
    pose proof (@existsb_false_all _ _ _ r Hnew Hin) as Hr'.
    unfold email_is in Hr, Hr'.
    rewrite (@nocase_eqb_chain (email r) (normalize spelling)
               (normalize address) Hr Hsame) in Hr'.
    discriminate.
  - unfold email_is at 1. cbn [email]. rewrite Hsame. reflexivity.
Qed.

Lemma create_user_then_authenticate_aux
  (now : Z) (fresh : salt) (users users' : table)
  (address plain_password : str) (uid : Z) :
  create_user normalize ctx_hash now fresh users address plain_password
  = Ok (uid, users') ->
  ctx_verify (firstn 72 plain_password)
    (ctx_hash fresh (firstn 72 plain_password)) = true ->
  authenticate_user normalize ctx_verify users' address plain_password
  = Some uid.
Proof.
  intros Hc Hv. apply create_user_ok in Hc as [Hnew [_ ->]].
  unfold authenticate_user. cbn [rows].
  rewrite (@create_user_then_find now fresh users address plain_password
             address uid Hnew (nocase_eqb_same (normalize address))).
  cbn [hashed_pw Users.id]. unfold verify_password, slice72.
  rewrite Hv. reflexivity.
Qed.

(** After a successful [create_user], [authenticate_user] with the same
    password returns the new user's id, for the address as given and for
    any spelling of it that normalises to the same text up to ASCII case,
    provided the hashing context verifies the hash it has just made; and
    with a password the context does not verify against that hash it
    returns [None]. *)
Theorem create_user_then_authenticate
  (now : Z) (fresh : salt) (users users' : table)
  (address plain_password : str) (uid : Z) :
  create_user normalize ctx_hash now fresh users address plain_password
  = Ok (uid, users') ->
  ctx_verify (firstn 72 plain_password)
    (ctx_hash fresh (firstn 72 plain_password)) = true ->
  forall spelling,
    nocase_eqb (normalize address) (normalize spelling) = true ->
    authenticate_user normalize ctx_verify users' spelling plain_password
    = Some uid
    /\ forall other,
         ctx_verify (firstn 72 other)
           (ctx_hash fresh (firstn 72 plain_password)) = false ->
         authenticate_user normalize ctx_verify users' spelling other = None.
Proof.
  intros Hc Hv spelling Hsame.
  apply create_user_ok in Hc as [Hnew [_ ->]].
  unfold authenticate_user. cbn [rows].
  rewrite (@create_user_then_find now fresh users address plain_password
             spelling uid Hnew Hsame).
  cbn [hashed_pw Users.id]. unfold verify_password, slice72.
  split.
  - rewrite Hv. reflexivity.
  - intros other Hother. rewrite Hother. reflexivity.
Qed.

(** Once an address is registered, [create_user] for any spelling of it
    that normalises to the same text up to ASCII case raises
    [ValueError], whatever the password; the rows already stored stay as
    they are. *)
Theorem create_user_rejects_taken_address
  (now : Z) (fresh : salt) (users users' : table)
  (address plain_password : str) (uid : Z) :
  create_user normalize ctx_hash now fresh users address plain_password
  = Ok (uid, users') ->
  (exists added, rows users' = rows users ++ [added])
  /\ forall now' fresh' spelling password',
       nocase_eqb (normalize address) (normalize spelling) = true ->
       create_user normalize ctx_hash now' fresh' users' spelling password'
       = Raise ValueError.
Proof.
  intro Hc. apply create_user_ok in Hc as [_ [_ ->]]. cbn [rows].
  split; [eexists; reflexivity|].
  intros now' fresh' spelling password' Hsame.
  unfold create_user. cbn [rows].
  rewrite existsb_app. cbn [existsb].
  unfold email_is at 2. cbn [email]. rewrite Hsame.
  rewrite orb_true_l, orb_true_r. reflexivity.
Qed.

(** [authenticate_user] returns a user id only for a stored row whose
    address matches the one given (normalised, up to ASCII case) and whose
    hash the context verifies against the first 72 characters of the
    password; with no matching row it returns [None]. *)
Theorem authenticate_user_needs_matching_row
  (users : table) (address plain_password : str) (uid : Z) :
  authenticate_user normalize ctx_verify users address plain_password
  = Some uid ->
  exists r,
    In r (rows users) /\ Users.id r = uid
    /\ nocase_eqb (email r) (normalize address) = true
    /\ ctx_verify (firstn 72 plain_password) (hashed_pw r) = true.
Proof.
  unfold authenticate_user.
  destruct (find (email_is normalize address) (rows users)) as [r|] eqn:Hf;
    [|discriminate].
  apply find_some in Hf as [Hin Hr].
  unfold verify_password, slice72.
  destruct (ctx_verify (firstn 72 plain_password) (hashed_pw r)) eqn:Hv;
    [|discriminate].
  cbn [negb]. intro E. injection E as <-.
  exists r. repeat split; assumption.
Qed.

(** Two passwords with the same first 72 characters are interchangeable
    at login: [authenticate_user] gives the same answer for both. *)
Theorem authenticate_user_reads_72_characters
  (users : table) (address p q : str) :
  firstn 72 p = firstn 72 q ->
  authenticate_user normalize ctx_verify users address p
  = authenticate_user normalize ctx_verify users address q.
Proof.
  intro H. unfold authenticate_user, verify_password, slice72.
  rewrite H. reflexivity.
Qed.

Lemma fold_emails_fresh (users : table) (address : str) :
  existsb (email_is normalize address) (rows users) = false ->
  ~ In (map fold_case (normalize address))
       (map (fun r => map fold_case (email r)) (rows users)).
Proof.
  intros Hnew Hin. apply in_map_iff in Hin as [r [Hk Hin]].
  pose proof (@existsb_false_all _ _ _ r Hnew Hin) as Hr.
  unfold email_is in Hr.
  rewrite (proj2 (nocase_eqb_folded (email r) (normalize address)) Hk) in Hr.
  discriminate.
Qed.

(** In every table registrations can produce, no two rows have the same
    address up to ASCII case, and the user ids are positive, pairwise
    distinct and not above the table's counter. *)
Theorem registered_accounts_are_distinct (users : table) :
  registered normalize ctx_hash users ->
  NoDup (map (fun r => map fold_case (email r)) (rows users))
  /\ ids_fresh (map Users.id (rows users)) (seq users).
Proof.
  induction 1 as [|now fresh users users' address pw uid _ [IHe IHi] Hc].
  - split; [constructor|].
    unfold ids_fresh. simpl. repeat split; constructor || lia.
  - apply create_user_ok in Hc as [Hnew [-> ->]]. cbn [rows seq].
    rewrite !map_app. cbn [map email Users.id]. split.
    + apply distinct_snoc; [exact IHe|].
      apply fold_emails_fresh. exact Hnew.
    + apply ids_fresh_snoc. exact IHi.
Qed.

End AccountFacts.

Section AccountExamples.

Import Auth Users Schema.

(** A context that stores the password as its hash, and addresses taken
    as they are. *)
Lemma create_user_then_authenticate_witness :
  create_user (fun a => a) (fun (_ : unit) (s : str) => s) 7 tt no_users
    (lit "Ann@Shop.io") (lit "correct horse")
  = Ok (1%Z,
        mk_table [Users.mk 1 (lit "Ann@Shop.io") (lit "correct horse") 7] 1)
  /\ authenticate_user (fun a => a) str_eqb
       (mk_table [Users.mk 1 (lit "Ann@Shop.io") (lit "correct horse") 7] 1)
       (lit "ann@shop.IO") (lit "correct horse")
     = Some 1%Z.
Proof.
  assert (E : create_user (fun a => a) (fun (_ : unit) (s : str) => s) 7 tt
                no_users (lit "Ann@Shop.io") (lit "correct horse")
              = Ok (1%Z,
                    mk_table [Users.mk 1 (lit "Ann@Shop.io")
                                (lit "correct horse") 7] 1))
    by reflexivity.
  split; [exact E|].
  exact (proj1 (@create_user_then_authenticate
                  (fun a => a) unit (fun _ s => s) str_eqb
                  7 tt no_users _ (lit "Ann@Shop.io") (lit "correct horse") 1
                  E eq_refl (lit "ann@shop.IO") eq_refl)).
Defined.

Lemma create_user_rejects_taken_address_witness :
  create_user (fun a => a) (fun (_ : unit) (s : str) => s) 7 tt no_users
    (lit "Ann@Shop.io") (lit "correct horse")
  = Ok (1%Z,
        mk_table [Users.mk 1 (lit "Ann@Shop.io") (lit "correct horse") 7] 1)
  /\ create_user (fun a => a) (fun (_ : unit) (s : str) => s) 9 tt
       (mk_table [Users.mk 1 (lit "Ann@Shop.io") (lit "correct horse") 7] 1)
       (lit "ANN@shop.io") (lit "another one")
     = Raise ValueError.
Proof.
  assert (E : create_user (fun a => a) (fun (_ : unit) (s : str) => s) 7 tt
                no_users (lit "Ann@Shop.io") (lit "correct horse")
              = Ok (1%Z,
                    mk_table [Users.mk 1 (lit "Ann@Shop.io")
                                (lit "correct horse") 7] 1))
    by reflexivity.
  split; [exact E|].
  exact (proj2 (@create_user_rejects_taken_address
                  (fun a => a) unit (fun _ s => s)
                  7 tt no_users _ (lit "Ann@Shop.io") (lit "correct horse") 1
                  E) 9%Z tt (lit "ANN@shop.io") (lit "another one") eq_refl).
Defined.

Lemma authenticate_user_needs_matching_row_witness :
  authenticate_user (fun a => a) str_eqb
    (mk_table [Users.mk 1 (lit "Ann@Shop.io") (lit "correct horse") 7] 1)
    (lit "ann@shop.io") (lit "correct horse")
  = Some 1%Z
  /\ exists r,
       In r [Users.mk 1 (lit "Ann@Shop.io") (lit "correct horse") 7]
       /\ Users.id r = 1%Z.
Proof.
  assert (E : authenticate_user (fun a => a) str_eqb
                (mk_table [Users.mk 1 (lit "Ann@Shop.io")
                             (lit "correct horse") 7] 1)
                (lit "ann@shop.io") (lit "correct horse") = Some 1%Z)
    by reflexivity.
  split; [exact E|].
  destruct (@authenticate_user_needs_matching_row
              (fun a => a) str_eqb _ _ _ _ E) as [r [Hin [Hid _]]].
  exists r. split; assumption.
Defined.

(** Two passwords of 80 letters that differ in the last one. *)
Lemma authenticate_user_reads_72_characters_witness :
  firstn 72 (repeat 97%N 79 ++ [98%N]) = firstn 72 (repeat 97%N 79 ++ [99%N])
  /\ authenticate_user (fun a => a) str_eqb
       (mk_table [Users.mk 1 (lit "ann@shop.io") (repeat 97%N 72) 7] 1)
       (lit "ann@shop.io") (repeat 97%N 79 ++ [98%N])
     = authenticate_user (fun a => a) str_eqb
         (mk_table [Users.mk 1 (lit "ann@shop.io") (repeat 97%N 72) 7] 1)
         (lit "ann@shop.io") (repeat 97%N 79 ++ [99%N]).
Proof.
  split; [reflexivity|].
  exact (@authenticate_user_reads_72_characters
           (fun a => a) str_eqb
           (mk_table [Users.mk 1 (lit "ann@shop.io") (repeat 97%N 72) 7] 1)
           (lit "ann@shop.io") _ _ eq_refl).
Defined.

Lemma registered_accounts_are_distinct_witness :
  registered (fun a => a) (fun (_ : unit) (s : str) => s)
    (mk_table [Users.mk 1 (lit "Ann@Shop.io") (lit "correct horse") 7] 1)
  /\ NoDup (map (fun r => map fold_case (email r))
              [Users.mk 1 (lit "Ann@Shop.io") (lit "correct horse") 7]).
Proof.
  assert (R : registered (fun a => a) (fun (_ : unit) (s : str) => s)
                (mk_table [Users.mk 1 (lit "Ann@Shop.io")
                             (lit "correct horse") 7] 1)).
  { apply (@registered_more (fun a => a) unit (fun _ s => s) 7 tt no_users _
             (lit "Ann@Shop.io") (lit "correct horse") 1).
    - apply registered_none.
    - reflexivity. }
  split; [exact R|].
  exact (proj1 (@registered_accounts_are_distinct
                  (fun a => a) unit (fun _ s => s) _ R)).
Defined.

End AccountExamples.

(* ================================================================== *)
(** * Properties of the routes *)

Section RouteFacts.

Import Store Metrics Planner Auth Http Routes Requests.

Variable normalize : str -> str.
Variable strip : str -> str.
Variable strip_upper : str -> str.
Variable salt : Type.
Variable ctx_hash : salt -> str -> str.
Variable ctx_verify : str -> str -> bool.
Variable get_signature : str -> str.
Variable verify_signature : str -> str -> bool.
Variable dump_payload : json -> str.
Variable load_payload : str -> option json.
Variable encode_timestamp : Z -> str.
Variable decode_timestamp : str -> option Z.

(** When [POST /register] answers with a session cookie, the password
    had at least 8 characters and was typed the same twice, an account
    was created for the address, the cookie is the one made for the new
    user id, and (the hashing context verifying its own hash) a later
    [POST /login] with the same credentials is answered with a cookie for
    that same user id. *)
Theorem register_then_login
  (now : Z) (fresh : salt) (users users' : Users.table)
  (address password password2 : str) (resp : response) (token : str) :
  register normalize ctx_hash get_signature dump_payload encode_timestamp
    now fresh users address password password2
  = (Returned resp, users') ->
  session_cookie resp = Some token ->
  ctx_verify (firstn 72 password) (ctx_hash fresh (firstn 72 password))
  = true ->
  (8 <= len password)%Z /\ password = password2
  /\ exists uid,
       Users.create_user normalize ctx_hash now fresh users address password
       = Ok (uid, users')
       /\ resp = RedirectResponse ToHome 303
                   (Some (make_session_cookie get_signature dump_payload
                            encode_timestamp now uid))
       /\ forall later,
            login normalize ctx_verify get_signature dump_payload
              encode_timestamp later users' address password
            = RedirectResponse ToHome 303
                (Some (make_session_cookie get_signature dump_payload
                         encode_timestamp later uid)).
Proof.
  unfold register. intros Hreg Hcookie Hverify.
  destruct (Z.ltb_spec (len password) 8) as [Hshort|Hlong].
  { injection Hreg as <- _. discriminate. }
  destruct (str_eqb password password2) eqn:Heq; cbn [negb] in Hreg.
  2:{ injection Hreg as <- _. discriminate. }
  apply str_eqb_eq in Heq.
  destruct (Users.create_user normalize ctx_hash now fresh users address
              password) as [[uid users1]|e] eqn:Hc.
  2:{ destruct (except_matches [ValueError] e);
        [injection Hreg as <- _|]; discriminate. }
  injection Hreg as <- <-.
  split; [exact Hlong|]. split; [exact Heq|].
  exists uid. split; [reflexivity|]. split; [reflexivity|].
  intro later. unfold login.
  rewrite (@create_user_then_authenticate_aux normalize salt ctx_hash
             ctx_verify now fresh users users1 address password uid Hc
             Hverify).
  reflexivity.
Qed.

(** With a cookie that is missing, empty, wrongly signed or expired,
    none of the routes that write ([POST /upsert], [POST
    /delete/product/{sku}], [POST /delete/sale]) changes the store: each
    ends in the 303 redirect to the login page. *)
Theorem writing_routes_need_a_session
  (now : Z) (cur : db) (session : option str)
  (sku name : str) (lead_time_days : Z) (z_value : float)
  (fba_stock inbound_stock : Z) (years months units_sold : list Z)
  (year month : Z) :
  (falsy session = true
   \/ exists token,
        session = Some token
        /\ (signature_ok verify_signature token = false
            \/ exists ts,
                 embedded_timestamp decode_timestamp token = Some ts
                 /\ (SESSION_MAX_AGE < now - ts)%Z)) ->
  upsert strip strip_upper verify_signature load_payload decode_timestamp
    now cur session sku name lead_time_days z_value fba_stock inbound_stock
    years months units_sold
  = (HTTPException 303 (Some ToLogin), cur)
  /\ delete_product verify_signature load_payload decode_timestamp
       now cur session sku
     = (HTTPException 303 (Some ToLogin), cur)
  /\ delete_sale verify_signature load_payload decode_timestamp
       now cur session sku year month
     = (HTTPException 303 (Some ToLogin), cur).
Proof.
  intro H.
  pose proof (@rejected_cookie_has_no_user verify_signature load_payload
                decode_timestamp now session H) as Hcur.
  unfold upsert, delete_product, delete_sale, _require_user.
  rewrite Hcur. repeat split.
Qed.

(** For a signed-in user and a SKU that is not blank after trimming,
    [POST /upsert] is all or nothing, and which of the two is decided by
    the submitted values alone.  When the user id, lead time and stock
    levels fit in 64 bits, z is not NaN and every paired (year, month,
    units) fits in 64 bits and passes the CHECK constraints, the product
    is stored under the trimmed upper-case SKU with the submitted values
    (the name trimmed, z as the REAL column gives it back) and every
    paired month reads the units submitted for it, other months reading
    as before.  Otherwise the route ends in the exception of the first
    statement that is refused ([OverflowError] for an int outside 64
    bits, [IntegrityError] for a NaN z or a failed CHECK) and the store
    is as it was: not even the product has been written. *)
Theorem upsert_route_all_or_nothing
  (now : Z) (cur : db) (session : option str) (user_id : Z)
  (sku name : str) (lead_time_days : Z) (z_value : float)
  (fba_stock inbound_stock : Z) (years months units_sold : list Z) :
  _require_user verify_signature load_payload decode_timestamp now session
  = Returned user_id ->
  strip_upper sku <> [] ->
  (forallb int64 [user_id; lead_time_days; fba_stock; inbound_stock] = true ->
   is_nan z_value = false ->
   first_error user_id (zip3 years months units_sold) = None ->
   exists cur',
     upsert strip strip_upper verify_signature load_payload decode_timestamp
       now cur session sku name lead_time_days z_value fba_stock
       inbound_stock years months units_sold
     = (Returned (RedirectResponse (ToProduct (strip_upper sku)) 303 None),
        cur')
     /\ (exists r,
          fetch_product cur' user_id (strip_upper sku) = Some r
          /\ Product.name r = strip name
          /\ Product.lead_time_days r = lead_time_days
          /\ Product.z_value r = real_column z_value
          /\ Product.fba_stock r = fba_stock
          /\ Product.inbound_stock r = inbound_stock)
     /\ forall y m,
          fetch_month_units cur' user_id (strip_upper sku) y m
          = match paired_units y m (zip3 years months units_sold) with
            | Some v => Some v
            | None => fetch_month_units cur user_id (strip_upper sku) y m
            end)
  /\ (forallb int64 [user_id; lead_time_days; fba_stock; inbound_stock]
      = false ->
      upsert strip strip_upper verify_signature load_payload decode_timestamp
        now cur session sku name lead_time_days z_value fba_stock
        inbound_stock years months units_sold
      = (Escaped OverflowError, cur))
  /\ (forallb int64 [user_id; lead_time_days; fba_stock; inbound_stock]
      = true ->
      is_nan z_value = true ->
      upsert strip strip_upper verify_signature load_payload decode_timestamp
        now cur session sku name lead_time_days z_value fba_stock
        inbound_stock years months units_sold
      = (Escaped IntegrityError, cur))
  /\ (forall e,
      forallb int64 [user_id; lead_time_days; fba_stock; inbound_stock]
      = true ->
      is_nan z_value = false ->
      first_error user_id (zip3 years months units_sold) = Some e ->
      upsert strip strip_upper verify_signature load_payload decode_timestamp
        now cur session sku name lead_time_days z_value fba_stock
        inbound_stock years months units_sold
      = (Escaped e, cur)
      /\ (e = OverflowError \/ e = IntegrityError)).
Proof.
  intros Huser Hsku. unfold upsert. rewrite Huser.
  destruct (strip_upper sku) as [|c code] eqn:Hcode; [congruence|].
  unfold upsert_monthly_sales.
  split; [|split; [|split]].
  - intros Hb Hz Hv.
    destruct (upsert_product_returns now cur user_id (c :: code) (strip name)
                lead_time_days z_value fba_stock inbound_stock Hb Hz)
      as [cur1 E1].
    rewrite E1.
    destruct (upsert_sales_loop_valid now user_id (c :: code)
                (zip3 years months units_sold) cur1 Hv)
      as [cur2 [E2 [P2 F2]]].
    exists cur2. rewrite E2. split; [reflexivity|]. split.
    + destruct (upsert_product_fetch_written _ _ _ _ _ _ _ _ _ E1)
        as [r [Hf [_ [_ [Hn [Hl [Hzv [Hfb [Hi _]]]]]]]]].
      exists r. unfold fetch_product in *. rewrite P2.
      repeat split; assumption.
    + intros y m. rewrite F2.
      destruct (paired_units y m (zip3 years months units_sold));
        [reflexivity|].
      apply upsert_product_inv in E1 as [_ [_ [_ [_ [S1 _]]]]].
      unfold fetch_month_units. rewrite S1. reflexivity.
  - intro Hb.
    rewrite (proj1 (upsert_product_raises now cur user_id (c :: code)
                      (strip name) lead_time_days z_value fba_stock
                      inbound_stock) Hb).
    reflexivity.
  - intros Hb Hz.
    rewrite (proj2 (upsert_product_raises now cur user_id (c :: code)
                      (strip name) lead_time_days z_value fba_stock
                      inbound_stock) Hb Hz).
    reflexivity.
  - intros e Hb Hz Hv.
    destruct (upsert_product_returns now cur user_id (c :: code) (strip name)
                lead_time_days z_value fba_stock inbound_stock Hb Hz)
      as [cur1 E1].
    rewrite E1.
    rewrite (upsert_sales_loop_invalid now user_id (c :: code)
               (zip3 years months units_sold) cur1 Hv).
    split; [reflexivity|]. eapply first_error_kind; exact Hv.
Qed.

End RouteFacts.

Section RouteExamples.

Import Store Auth Http Routes.

(** Registration of "ann@shop.io" with a context that stores the password
    as its hash, then login. *)
Lemma register_then_login_witness :
  register (fun a => a) (fun (_ : unit) (s : str) => s)
    Sample.get_signature Sample.dump_payload Sample.encode_timestamp
    7 tt Users.no_users (lit "ann@shop.io") (lit "correct horse")
    (lit "correct horse")
  = (Returned (RedirectResponse ToHome 303 (Some (Sample.make_cookie 7 1))),
     Users.mk_table
       [Users.mk 1 (lit "ann@shop.io") (lit "correct horse") 7] 1)
  /\ login (fun a => a) str_eqb
       Sample.get_signature Sample.dump_payload Sample.encode_timestamp
       9 (Users.mk_table
            [Users.mk 1 (lit "ann@shop.io") (lit "correct horse") 7] 1)
       (lit "ann@shop.io") (lit "correct horse")
     = RedirectResponse ToHome 303 (Some (Sample.make_cookie 9 1)).
Proof.
  assert (E : register (fun a => a) (fun (_ : unit) (s : str) => s)
                Sample.get_signature Sample.dump_payload
                Sample.encode_timestamp
                7 tt Users.no_users (lit "ann@shop.io")
                (lit "correct horse") (lit "correct horse")
              = (Returned (RedirectResponse ToHome 303
                             (Some (Sample.make_cookie 7 1))),
                 Users.mk_table
                   [Users.mk 1 (lit "ann@shop.io") (lit "correct horse") 7]
                   1))
    by reflexivity.
  split; [exact E|].
  destruct (@register_then_login
              (fun a => a) unit (fun _ s => s) str_eqb
              Sample.get_signature Sample.dump_payload
              Sample.encode_timestamp
              7 tt Users.no_users _ (lit "ann@shop.io")
              (lit "correct horse") (lit "correct horse") _
              (Sample.make_cookie 7 1) E eq_refl eq_refl)
    as [_ [_ [uid [Hc [_ Hlogin]]]]].
  assert (Huid : uid = 1%Z) by (vm_compute in Hc; congruence).
  subst uid. exact (Hlogin 9%Z).
Defined.

(** No cookie: the sample store is left as it is. *)
Lemma writing_routes_need_a_session_witness :
  falsy None = true
  /\ delete_product Sample.verify_signature Sample.load_payload
       Sample.decode_timestamp 1700000000 Sample.store None (lit "A1")
     = (HTTPException 303 (Some ToLogin), Sample.store).
Proof.
  split; [reflexivity|].
  exact (proj1 (proj2 (@writing_routes_need_a_session
                         (fun s => s) (fun s => s)
                         Sample.verify_signature Sample.load_payload
                         Sample.decode_timestamp
                         1700000000 Sample.store None (lit "A1") (lit "")
                         0 0%float 0 0 [] [] [] 0 0 (or_introl eq_refl)))).
Defined.

(** User 1, signed in, submits a product with month 13: nothing is
    stored.  With units of 2^63 in a good month the route ends in
    [OverflowError]; with a NaN z in [IntegrityError]. *)
Lemma upsert_route_all_or_nothing_witness :
  _require_user Sample.verify_signature Sample.load_payload
    Sample.decode_timestamp 1700000100
    (Some (Sample.make_cookie 1700000000 1))
  = Returned 1%Z
  /\ lit "A1" <> []
  /\ upsert (fun s => s) (fun s => s)
       Sample.verify_signature Sample.load_payload Sample.decode_timestamp
       1700000100 init_db (Some (Sample.make_cookie 1700000000 1))
       (lit "A1") (lit "Lamp") 7 (165 / 100)%float 50 0
       [2024]%Z [13]%Z [5]%Z
     = (Escaped IntegrityError, init_db)
  /\ upsert (fun s => s) (fun s => s)
       Sample.verify_signature Sample.load_payload Sample.decode_timestamp
       1700000100 init_db (Some (Sample.make_cookie 1700000000 1))
       (lit "A1") (lit "Lamp") 7 (165 / 100)%float 50 0
       [2024]%Z [12]%Z [2 ^ 63]%Z
     = (Escaped OverflowError, init_db)
  /\ upsert (fun s => s) (fun s => s)
       Sample.verify_signature Sample.load_payload Sample.decode_timestamp
       1700000100 init_db (Some (Sample.make_cookie 1700000000 1))
       (lit "A1") (lit "Lamp") 7 nan 50 0
       [2024]%Z [12]%Z [5]%Z
     = (Escaped IntegrityError, init_db).
Proof.
  assert (Hu : _require_user Sample.verify_signature Sample.load_payload
                 Sample.decode_timestamp 1700000100
                 (Some (Sample.make_cookie 1700000000 1)) = Returned 1%Z)
    by (vm_compute; reflexivity).
  assert (Hs : lit "A1" <> []) by discriminate.
  split; [exact Hu|]. split; [exact Hs|].
  split; [|split; [reflexivity|reflexivity]].
  exact (proj1 (proj2 (proj2 (proj2 (@upsert_route_all_or_nothing
                  (fun s => s) (fun s => s)
                  Sample.verify_signature Sample.load_payload
                  Sample.decode_timestamp
                  1700000100 init_db _ 1 (lit "A1") (lit "Lamp") 7
                  (165 / 100)%float 50 0 [2024]%Z [13]%Z [5]%Z Hu Hs)))
                  IntegrityError eq_refl eq_refl eq_refl)).
Defined.

(** The same user submits one good month: the product and the month are
    stored. *)
Example upsert_route_stores :
  upsert (fun s => s) (fun s => s)
    Sample.verify_signature Sample.load_payload Sample.decode_timestamp
    1700000100 init_db (Some (Sample.make_cookie 1700000000 1))
    (lit "A1") (lit "Lamp") 7 (165 / 100)%float 50 0
    [2024]%Z [12]%Z [5]%Z
  = (Returned (RedirectResponse (ToProduct (lit "A1")) 303 None),
     mk_db [Product.mk 1 1 (lit "A1") (lit "Lamp") 7 (165 / 100)%float 50 0
              1700000100] 1
       [Sale.mk 1 1 (lit "A1") 2024 12 5 1700000100] 1).
Proof. vm_compute. reflexivity. Qed.

End RouteExamples.

(* ================================================================== *)
(** * Properties of the order plan *)

Section PlanFacts.

Import Store Metrics Planner Routes Schema.
Open Scope R_scope.

Lemma ratio_bounds (r d : R) :
  0 < d ->
  (2 * r < d -> r / d < 1 / 2)
  /\ (d < 2 * r -> 1 / 2 < r / d)
  /\ (2 * r = d -> r / d = 1 / 2)
  /\ (0 <= r -> 0 <= r / d)
  /\ (r < d -> r / d < 1).
Proof.
  intro Hd.
  assert (Hi : 0 < / d) by (apply Rinv_0_lt_compat; exact Hd).
  assert (Hone : d * / d = 1) by (apply Rinv_r; lra).
  unfold Rdiv. repeat split; intro H; nra.
Qed.

(** On a finite float above zero, [round] returns the nearest int (at
    most one half away), which is positive exactly when the float exceeds
    one half. *)
Lemma round_finite (x : float) (m : positive) (e : Z) :
  Prim2SF x = S754_finite false m e ->
  exists n,
    round x = Ok n
    /\ Rabs (IZR n - x) <= 1 / 2
    /\ ((n <=? 0)%Z = false <-> 1 / 2 < x).
Proof.
  intro H. unfold round, real. rewrite H. cbn [cond_Zopp].
  destruct (Z.leb_spec 0 e) as [He|He].
  - eexists. split; [reflexivity|].
    assert (Hn : (1 <= Z.pos m * 2 ^ e)%Z).
    { assert (0 < 2 ^ e)%Z by (apply Z.pow_pos_nonneg; lia). nia. }
    pose proof (IZR_le _ _ Hn) as Hr. split.
    + replace (IZR (Z.pos m * 2 ^ e) - IZR (Z.pos m * 2 ^ e)) with 0 by ring.
      rewrite Rabs_R0. lra.
    + rewrite Z.leb_gt. split; intros _; [lra|lia].
  - set (d := (2 ^ (- e))%Z).
    assert (Hd : (0 < d)%Z) by (apply Z.pow_pos_nonneg; lia).
    pose proof (Z.div_mod (Z.pos m) d ltac:(lia)) as Hdm.
    pose proof (Z.mod_pos_bound (Z.pos m) d Hd) as Hrem.
    assert (Hq : (0 <= Z.pos m / d)%Z) by (apply Z.div_pos; lia).
    set (q := (Z.pos m / d)%Z) in *. set (r := (Z.pos m mod d)%Z) in *.
    assert (HD : 0 < IZR d) by (apply IZR_lt; exact Hd).
    assert (Hx : IZR (Z.pos m) / IZR d = IZR q + IZR r / IZR d).
    { rewrite Hdm, plus_IZR, mult_IZR. field. lra. }
    rewrite Hx.
    destruct (ratio_bounds (IZR r) HD) as [Hlt [Hgt [Heq [H0 H1]]]].
    assert (Hr0 : 0 <= IZR r) by (apply IZR_le; lia).
    assert (Hr1 : IZR r < IZR d) by (apply IZR_lt; lia).
    specialize (H0 Hr0). specialize (H1 Hr1).
    assert (Hq0 : q = 0%Z \/ (1 <= q)%Z) by lia.
    assert (Hq1 : q = 0%Z \/ 1 <= IZR q).
    { destruct Hq0 as [E|L]; [left; exact E|right; apply IZR_le; exact L]. }
    destruct (Z.ltb_spec (2 * r) d) as [Hlow|Hnlow].
    + apply IZR_lt in Hlow. rewrite mult_IZR in Hlow. specialize (Hlt Hlow).
      exists q. split; [reflexivity|]. split; [apply Rabs_le; lra|].
      rewrite Z.leb_gt. destruct Hq1 as [E|L].
      * rewrite E. simpl. split; [lia|lra].
      * split; [lra|]. intros _. apply lt_IZR. simpl. lra.
    + destruct (Z.ltb_spec d (2 * r)) as [Hhigh|Hnhigh].
      * apply IZR_lt in Hhigh. rewrite mult_IZR in Hhigh.
        specialize (Hgt Hhigh).
        exists (q + 1)%Z. split; [reflexivity|].
        rewrite plus_IZR. split; [apply Rabs_le; lra|].
        rewrite Z.leb_gt. split; [intros _|lia].
        destruct Hq1 as [E|L]; [rewrite E; simpl|]; lra.
      * assert (Htie : (2 * r)%Z = d) by lia.
        apply (f_equal IZR) in Htie. rewrite mult_IZR in Htie.
        specialize (Heq Htie).
        destruct (Z.even q) eqn:Hev.
        -- exists q. split; [reflexivity|]. split; [apply Rabs_le; lra|].
           rewrite Z.leb_gt. destruct Hq1 as [E|L].
           ++ rewrite E. simpl. split; [lia|lra].
           ++ split; [lra|]. intros _. apply lt_IZR. simpl. lra.
        -- exists (q + 1)%Z. split; [reflexivity|].
           rewrite plus_IZR. split; [apply Rabs_le; lra|].
           rewrite Z.leb_gt. split; [intros _|lia].
           destruct Hq1 as [E|L]; [rewrite E in Hev; discriminate|lra].
Qed.

(** The order quantity the engine returns is zero, a finite float above
    zero, or the infinity above zero. *)
Lemma order_qty_cases lead z units fba inb res :
  compute_from_last_months lead z units fba inb = Ok res ->
  order_qty res = 0%float
  \/ order_qty res = infinity
  \/ exists m e, Prim2SF (order_qty res) = S754_finite false m e.
Proof.
  intro E.
  assert (H : order_qty res = 0%float \/ (0 <? order_qty res)%float = true).
  { destruct units as [|x l].
    - injection E as <-. left. reflexivity.
    - apply compute_from_last_months_value in E; [|discriminate].
      subst res. unfold computeMetrics_spec. cbn [order_qty].
      unfold max_float.
      match goal with
      | |- context [if ?c then _ else _] => destruct c eqn:Hc
      end; [right; exact Hc|left; reflexivity]. }
  destruct H as [H|H]; [left; exact H|right].
  rewrite ltb_spec in H. change (Prim2SF 0) with (S754_zero false) in H.
  unfold SFltb in H.
  destruct (Prim2SF (order_qty res)) as [s|s| |s m e] eqn:Hp; simpl in H;
    try discriminate.
  - destruct s; [discriminate|]. left.
    apply Prim2SF_inj. rewrite Hp. reflexivity.
  - destruct s; [discriminate|]. right. exists m, e. reflexivity.
Qed.

Lemma listed_sku_has_product cur user_id skus sku :
  sku_listing cur user_id skus -> In sku skus ->
  fetch_product cur user_id sku <> None.
Proof.
  intros [rows [Hperm [_ ->]]] Hin.
  apply in_map_iff in Hin as [r [<- Hr]].
  apply (Permutation_in _ Hperm) in Hr.
  unfold products_of in Hr. apply filter_In in Hr as [Hin Hu].
  unfold fetch_product. intro Hnone.
  pose proof (find_none _ _ Hnone r Hin) as Hp.
  unfold product_at in Hp. rewrite Hu, str_eqb_refl in Hp. discriminate.
Qed.

Lemma gather_units_storable cur user_id sku (window : list (Z * Z)) :
  storable cur ->
  Forall (fun u => int64 u = true) (gather_units cur user_id sku window).
Proof.
  intros [_ Hs]. rewrite Forall_forall in Hs.
  induction window as [|[y m] rest IH]; [constructor|].
  cbn [gather_units]. unfold fetch_month_units.
  destruct (find (sale_at user_id sku y m) (monthly_sales cur)) as [r|] eqn:Hf;
    [|exact IH].
  apply find_some in Hf as [Hin _]. constructor; [|exact IH].
  apply Hs. exact Hin.
Qed.

(** On a store whose values are storable the engine returns for every
    product. *)
Lemma compute_for_sku_storable today cur user_id sku :
  storable cur ->
  fetch_product cur user_id sku <> None ->
  exists prod res,
    fetch_product cur user_id sku = Some prod
    /\ compute_from_last_months
         (Product.lead_time_days prod) (Product.z_value prod)
         (gather_units cur user_id sku (last_n_calendar_months today 3))
         (Product.fba_stock prod) (Product.inbound_stock prod)
       = Ok res
    /\ compute_for_sku today cur user_id sku
       = Ok (Some (prod, last_n_calendar_months today 3,
                   gather_units cur user_id sku
                     (last_n_calendar_months today 3), res)).
Proof.
  intros Hst Hsome. unfold compute_for_sku.
  destruct (fetch_product cur user_id sku) as [prod|] eqn:Hf; [|congruence].
  unfold fetch_product in Hf. apply find_some in Hf as [Hin _].
  pose proof (gather_units_storable user_id sku
                (last_n_calendar_months today 3) Hst) as Hunits.
  destruct Hst as [Hp _]. rewrite Forall_forall in Hp.
  destruct (Hp prod Hin) as [Hlead [_ [Hfba Hinb]]].
  destruct (@compute_from_last_months_returns
              (Product.lead_time_days prod) (Product.z_value prod) _
              (Product.fba_stock prod) (Product.inbound_stock prod)
              Hunits Hlead Hfba Hinb) as [res Hres].
  exists prod, res. rewrite Hres. repeat split; reflexivity.
Qed.



Lemma plan_lines_of_products today cur user_id (skus : list str) :
  storable cur ->
  (forall sku, In sku skus -> fetch_product cur user_id sku <> None) ->
  ((exists sku prod window units res,
      In sku skus
      /\ compute_for_sku today cur user_id sku
         = Ok (Some (prod, window, units, res))
      /\ order_qty res = infinity)
   /\ plan_lines today cur user_id skus = Raise OverflowError)
  \/ ((forall sku prod window units res,
         In sku skus ->
         compute_for_sku today cur user_id sku
         = Ok (Some (prod, window, units, res)) ->
         order_qty res <> infinity)
      /\ exists lines,
           plan_lines today cur user_id skus = Ok lines
           /\ forall sku prod res oq,
                In (sku, prod, res, oq) lines <->
                (In sku skus
                 /\ (exists window units,
                       compute_for_sku today cur user_id sku
                       = Ok (Some (prod, window, units, res)))
                 /\ round (order_qty res) = Ok oq
                 /\ 1 / 2 < order_qty res)).
Proof.
  intro Hst. induction skus as [|sku0 rest IH]; intro Hall.
  - right. split; [intros sku prod window units res []|].
    exists []. split; [reflexivity|]. intros sku prod res oq. simpl.
    split; [intros []|intros [[] _]].
  - assert (Hrest : forall sku, In sku rest ->
                      fetch_product cur user_id sku <> None)
      by (intros sku Hin; apply Hall; right; exact Hin).
    specialize (IH Hrest).
    destruct (@compute_for_sku_storable today cur user_id sku0 Hst
                (Hall sku0 (or_introl eq_refl)))
      as [prod0 [res0 [Hf [Hres Hc0]]]].
    cbn [plan_lines]. rewrite Hc0. cbn [bind].
    destruct (order_qty_cases _ _ _ _ _ Hres) as [Hzero|[Hinf|[m [e Hfin]]]].
    + (* nothing to order *)
      assert (Hround : round (order_qty res0) = Ok 0%Z)
        by (rewrite Hzero; reflexivity).
      assert (Hreal : real (order_qty res0) = 0)
        by (rewrite Hzero; unfold real; simpl; reflexivity).
      assert (Hfinite : order_qty res0 <> infinity)
        by (rewrite Hzero; intro Habs;
            apply (f_equal Prim2SF) in Habs; discriminate).
      rewrite Hround. cbn [bind].
      destruct IH as [[[sku [prod [w [u [res [Hin [Hc Hi]]]]]]] Hraise]
                     |[Hnone [lines [Hlines Hiff]]]].
      * left. split; [|rewrite Hraise; reflexivity].
        exists sku, prod, w, u, res. split; [right; exact Hin|].
        split; assumption.
      * right. split.
        { intros sku prod w u res [<-|Hin] Hc.
          - rewrite Hc0 in Hc. injection Hc as _ _ _ <-. exact Hfinite.
          - eapply Hnone; eassumption. }
        rewrite Hlines. cbn [bind]. exists lines.
        split; [reflexivity|].
        intros sku prod res oq. rewrite Hiff. split.
        -- intros [Hin H]. split; [right; exact Hin|exact H].
        -- intros [[<-|Hin] [[w [u Hc]] [Hq Hhalf]]].
           ++ rewrite Hc0 in Hc. injection Hc as _ _ _ <-.
              rewrite Hreal in Hhalf. lra.
           ++ split; [exact Hin|].
              split; [exists w, u; exact Hc|]. split; assumption.
    + (* an infinite order quantity *)
      left. split.
      * exists sku0, prod0. eexists. eexists. exists res0.
        split; [left; reflexivity|]. split; [exact Hc0|exact Hinf].
      * rewrite Hinf. reflexivity.
    + destruct (round_finite _ Hfin) as [n [Hround [_ Hpos]]].
      assert (Hfinite : order_qty res0 <> infinity).
      { intro Habs. rewrite Habs in Hfin. discriminate. }
      rewrite Hround. cbn [bind].
      destruct IH as [[[sku [prod [w [u [res [Hin [Hc Hi]]]]]]] Hraise]
                     |[Hnone [lines [Hlines Hiff]]]].
      * left. split; [|rewrite Hraise; reflexivity].
        exists sku, prod, w, u, res. split; [right; exact Hin|].
        split; assumption.
      * right. split.
        { intros sku prod w u res [<-|Hin] Hc.
          - rewrite Hc0 in Hc. injection Hc as _ _ _ <-. exact Hfinite.
          - eapply Hnone; eassumption. }
        rewrite Hlines. cbn [bind].
        destruct (n <=? 0)%Z eqn:Hoq.
        -- exists lines. split; [reflexivity|].
           intros sku prod res oq. rewrite Hiff. split.
           ++ intros [Hin H]. split; [right; exact Hin|exact H].
           ++ intros [[<-|Hin] [[w [u Hc]] [Hq Hhalf]]].
              ** rewrite Hc0 in Hc. injection Hc as _ _ _ <-.
                 exfalso. destruct Hpos as [_ Hr].
                 specialize (Hr Hhalf). discriminate.
              ** split; [exact Hin|].
                 split; [exists w, u; exact Hc|]. split; assumption.
        -- eexists. split; [reflexivity|].
           intros sku prod res oq. cbn [In]. rewrite Hiff. split.
           ++ intros [E|[Hin H]].
              ** injection E as <- <- <- <-.
                 split; [left; reflexivity|].
                 split; [eexists; eexists; exact Hc0|].
                 split; [exact Hround|]. apply Hpos. reflexivity.
              ** split; [right; exact Hin|exact H].
           ++ intros [[<-|Hin] [[w [u Hc]] [Hq Hhalf]]].
              ** left. rewrite Hc0 in Hc. injection Hc as <- _ _ <-.
                 rewrite Hround in Hq. injection Hq as <-. reflexivity.
              ** right. split; [exact Hin|].
                 split; [exists w, u; exact Hc|]. split; assumption.
Qed.

(** On a store that holds what the statements can store (as every store
    the application reaches does), and for any listing of the user's SKUs
    that the products query may return, every listed SKU unpacks and the
    engine returns for it; then either some listed SKU has an infinite
    order quantity and the plan ends in [OverflowError] (raised by
    [int(round(...))]), or none has, and the plan holds exactly the listed
    SKUs whose order quantity exceeds one half, each with its product row,
    its metrics and the order quantity rounded to the nearest integer,
    which is at least 1 and differs from the float by at most one
    half. *)
Theorem plan_lists_orders_above_half
  (today : Z * Z) (cur : db) (user_id : Z) (skus : list str) :
  storable cur ->
  sku_listing cur user_id skus ->
  (forall sku, In sku skus ->
     exists prod window units res,
       compute_for_sku today cur user_id sku
       = Ok (Some (prod, window, units, res)))
  /\ (((exists sku prod window units res,
          In sku skus
          /\ compute_for_sku today cur user_id sku
             = Ok (Some (prod, window, units, res))
          /\ order_qty res = infinity)
       /\ plan_lines today cur user_id skus = Raise OverflowError)
      \/ ((forall sku prod window units res,
             In sku skus ->
             compute_for_sku today cur user_id sku
             = Ok (Some (prod, window, units, res)) ->
             order_qty res <> infinity)
          /\ exists lines,
               plan_lines today cur user_id skus = Ok lines
               /\ (forall sku prod res oq,
                    In (sku, prod, res, oq) lines <->
                    (In sku skus
                     /\ (exists window units,
                           compute_for_sku today cur user_id sku
                           = Ok (Some (prod, window, units, res)))
                     /\ round (order_qty res) = Ok oq
                     /\ 1 / 2 < order_qty res))
               /\ (forall sku prod res oq,
                    In (sku, prod, res, oq) lines ->
                    (1 <= oq)%Z
                    /\ Rabs (IZR oq - order_qty res) <= 1 / 2))).
Proof.
  intros Hst Hlist.
  assert (Hall : forall sku, In sku skus ->
                   fetch_product cur user_id sku <> None)
    by (intros sku Hin; eapply listed_sku_has_product; eassumption).
  split.
  { intros sku Hin.
    destruct (@compute_for_sku_storable today cur user_id sku Hst
                (Hall sku Hin)) as [prod [res [_ [_ Hc]]]].
    exists prod. eexists. eexists. exists res. exact Hc. }
  destruct (@plan_lines_of_products today cur user_id skus Hst Hall)
    as [Hraise|[Hnone [lines [E Hiff]]]]; [left; exact Hraise|right].
  split; [exact Hnone|].
  exists lines. split; [exact E|]. split; [exact Hiff|].
  intros sku prod res oq Hin. apply Hiff in Hin.
  destruct Hin as [Hsku [[w [u Hc]] [Hround Hhalf]]].
  unfold compute_for_sku in Hc.
  destruct (fetch_product cur user_id sku) as [prod'|]; [|discriminate].
  destruct (compute_from_last_months _ _ _ _ _) as [res'|] eqn:Hres;
    [|discriminate].
  cbn [bind] in Hc. injection Hc as _ _ _ <-.
  destruct (order_qty_cases _ _ _ _ _ Hres) as [Hzero|[Hinf|[m [e Hfin]]]].
  - rewrite Hzero in Hhalf. unfold real in Hhalf. simpl in Hhalf. lra.
  - rewrite Hinf in Hround. discriminate.
  - destruct (round_finite _ Hfin) as [n [Hn [Hnear Hpos]]].
    rewrite Hround in Hn. injection Hn as <-.
    split; [|exact Hnear].
    apply Hpos in Hhalf. apply Z.leb_gt in Hhalf. lia.
Qed.

Lemma sample_store_storable : storable Sample.store.
Proof.
  split; repeat constructor.
Qed.

(** The one SKU of user 1 in the sample store, in January 2024: 120
    units in the one month with a fact, an order of 190. *)
Lemma plan_lists_orders_above_half_witness :
  storable Sample.store
  /\ sku_listing Sample.store 1 [lit "A1"]
  /\ plan_lines (2024, 1)%Z Sample.store 1 [lit "A1"]
     = Ok [(lit "A1",
            Product.mk 1 1 (lit "A1") (lit "Lamp") 7 (165 / 100)%float 50 0 10,
            mk_metrics 4 0 0 28 190, 190%Z)]
  /\ forall sku,
       In sku [lit "A1"] ->
       exists prod window units res,
         compute_for_sku (2024, 1)%Z Sample.store 1 sku
         = Ok (Some (prod, window, units, res)).
Proof.
  assert (H : sku_listing Sample.store 1 [lit "A1"]).
  { exists [Product.mk 1 1 (lit "A1") (lit "Lamp") 7 (165 / 100)%float 50 0
              10].
    split; [apply Permutation_refl|].
    split; [repeat constructor|reflexivity]. }
  split; [exact sample_store_storable|]. split; [exact H|].
  split; [vm_compute; reflexivity|].
  exact (proj1 (@plan_lists_orders_above_half (2024, 1)%Z Sample.store 1
                  [lit "A1"] sample_store_storable H)).
Defined.

(** A product stored with z = 1e308 and two months of sales: the order
    quantity is infinite and the plan ends in [OverflowError]. *)
Example plan_lines_overflow :
  plan_lines (2024, 1)%Z
    (mk_db [Product.mk 1 1 (lit "A1") (lit "Lamp") 7 0x1.1ccf385ebc8a0p+1023
              50 0 10] 1
       [Sale.mk 1 1 (lit "A1") 2023 12 120 10;
        Sale.mk 2 1 (lit "A1") 2023 11 400 10] 2)
    1 [lit "A1"]
  = Raise OverflowError.
Proof. vm_compute. reflexivity. Qed.

End PlanFacts.
